(** * BuildLucky: the rule-based advice engine (services/localAdviceService)

    A shallow embedding of the advice service of the journaling application:
    the CSV loader ([parseCsvRow], [fetchAndParseAdviceData]), the criteria
    evaluator ([evaluateCriteria]), the record selector ([findAndPick]) and the
    composer ([generateDetailedAdvice]), followed by the properties of the
    specification that concern them.

    Conventions of the embedding.
    - A JavaScript string is a [string] holding its UTF-8 bytes.  Every
      pattern the service searches for is ASCII or a whole Korean character,
      so byte-wise search agrees with the search on UTF-16 code units.
    - The counters of a summary are integers ([Z]): counts of journal
      entries, which JavaScript holds exactly (below [2^53] in magnitude)
      and writes in full with [String(n)].  A number read from a criteria
      string is the binary64 value [Number] gives it, held as the rational
      it stands for ([Q]), or an infinity, or NaN: the value of the literal
      rounded to the nearest binary64 value, ties to even.
    - [null] and [undefined] are both [None].
    - The module-level cache [allAdvice] is threaded explicitly; the outcome
      of the network request and the successive values of [Math.random()]
      are inputs. *)

From Stdlib Require Import String Ascii List ZArith NArith QArith Bool Lia.
From Stdlib Require Import DecimalString DecimalPos.
Import ListNotations.

Open Scope string_scope.
Open Scope N_scope.

(* ================================================================== *)
(** ** Strings of the JavaScript runtime *)

Module JsString.

Definition byte (c : ascii) : N := N_of_ascii c.

Definition char (n : nat) : string := String (ascii_of_nat n) EmptyString.

Definition TAB : string := char 9.
Definition LF : string := char 10.
Definition CR : string := char 13.
Definition quoteChar : ascii := ascii_of_nat 34.

(** WhiteSpace and LineTerminator code points, as UTF-8 byte sequences:
    U+0009..U+000D and U+0020; U+00A0; U+1680, U+2000..U+200A, U+2028,
    U+2029, U+202F, U+205F, U+3000, U+FEFF. *)
Definition whitespace1 (a : ascii) : bool :=
  let x := byte a in ((9 <=? x) && (x <=? 13)) || (x =? 32).

Definition whitespace2 (a b : ascii) : bool :=
  (byte a =? 194) && (byte b =? 160).

Definition whitespace3 (a b c : ascii) : bool :=
  let x := byte a in
  let y := byte b in
  let z := byte c in
  ((x =? 225) && (y =? 154) && (z =? 128))
  || ((x =? 226) && (y =? 128)
      && (((128 <=? z) && (z <=? 138)) || (z =? 168) || (z =? 169) || (z =? 175)))
  || ((x =? 226) && (y =? 129) && (z =? 159))
  || ((x =? 227) && (y =? 128) && (z =? 128))
  || ((x =? 239) && (y =? 187) && (z =? 191)).

(** [s] is exactly one white-space character. *)
Definition isWhitespaceChar (s : string) : bool :=
  match s with
  | String a EmptyString => whitespace1 a
  | String a (String b EmptyString) => whitespace2 a b
  | String a (String b (String c EmptyString)) => whitespace3 a b c
  | _ => false
  end.

(** String.prototype.trimStart *)
Fixpoint trimStart (s : string) : string :=
  match s with
  | EmptyString => EmptyString
  | String a s1 =>
      if whitespace1 a then trimStart s1
      else
        match s1 with
        | EmptyString => s
        | String b s2 =>
            if whitespace2 a b then trimStart s2
            else
              match s2 with
              | EmptyString => s
              | String c s3 => if whitespace3 a b c then trimStart s3 else s
              end
        end
  end.

(** String.prototype.trimEnd *)
Fixpoint trimEnd (s : string) : string :=
  match s with
  | EmptyString => EmptyString
  | String a rest =>
      let t := String a (trimEnd rest) in
      if isWhitespaceChar t then EmptyString else t
  end.

(** String.prototype.trim *)
Definition trim (s : string) : string := trimStart (trimEnd s).

(** [s.split(sep)] for a one-character separator; never the empty list. *)
Fixpoint split (sep : ascii) (s : string) : list string :=
  match s with
  | EmptyString => [EmptyString]
  | String c rest =>
      if Ascii.eqb c sep then EmptyString :: split sep rest
      else
        match split sep rest with
        | part :: parts => String c part :: parts
        | [] => [String c EmptyString]
        end
  end.

Fixpoint skip (n : nat) (s : string) : string :=
  match n, s with
  | S k, String _ rest => skip k rest
  | _, _ => s
  end.

(** [s.includes(sub)] *)
Fixpoint includes (s sub : string) : bool :=
  prefix sub s
  || match s with
     | EmptyString => false
     | String _ rest => includes rest sub
     end.

Fixpoint containsChar (c : ascii) (s : string) : bool :=
  match s with
  | EmptyString => false
  | String d rest => Ascii.eqb d c || containsChar c rest
  end.

(** The text before and after the first occurrence of [pat] in [s]. *)
Fixpoint breakOn (pat s : string) {struct s} : option (string * string) :=
  if prefix pat s then Some (EmptyString, skip (String.length pat) s)
  else
    match s with
    | EmptyString => None
    | String c rest =>
        match breakOn pat rest with
        | Some (before, after) => Some (String c before, after)
        | None => None
        end
    end.

(** GetSubstitution for a match without capture groups: [$$], [$&],
    [$`] and [$'] are expanded, any other [$] is literal. *)
Fixpoint getSubstitution (matched before after replacement : string) : string :=
  match replacement with
  | EmptyString => EmptyString
  | String d tl =>
      if negb (Ascii.eqb d "$") then String d (getSubstitution matched before after tl)
      else
        match tl with
        | EmptyString => String d EmptyString
        | String c rest =>
            if Ascii.eqb c "$" then String "$" (getSubstitution matched before after rest)
            else if Ascii.eqb c "&" then matched ++ getSubstitution matched before after rest
            else if Ascii.eqb c "`" then before ++ getSubstitution matched before after rest
            else if Ascii.eqb c "'" then after ++ getSubstitution matched before after rest
            else String d (getSubstitution matched before after tl)
        end
  end.

(** [s.replace(pat, replacement)] with a string pattern: first occurrence. *)
Definition replaceFirst (pat replacement s : string) : string :=
  match breakOn pat s with
  | None => s
  | Some (before, after) =>
      before ++ getSubstitution pat before after replacement ++ after
  end.

(** [s.replace(/pat/g, replacement)] for a literal, non-empty [pat] and a
    replacement without [$]: every occurrence, left to right.  [inside]
    counts the bytes of the current occurrence still to be dropped. *)
Fixpoint replaceAllFrom (pat replacement s : string) (inside : nat) : string :=
  match s with
  | EmptyString => EmptyString
  | String c rest =>
      match inside with
      | S k => replaceAllFrom pat replacement rest k
      | O =>
          if prefix pat s
          then replacement ++ replaceAllFrom pat replacement rest (Nat.pred (String.length pat))
          else String c (replaceAllFrom pat replacement rest 0)
      end
  end.

Definition replaceAll (pat replacement s : string) : string :=
  replaceAllFrom pat replacement s 0.

(** [val.replace(/^"|"$/g, '')]: one quote off each end. *)
Fixpoint dropLastQuote (s : string) : string :=
  match s with
  | EmptyString => EmptyString
  | String c EmptyString => if Ascii.eqb c quoteChar then EmptyString else s
  | String c rest => String c (dropLastQuote rest)
  end.

Definition stripQuotes (s : string) : string :=
  match s with
  | String c rest => if Ascii.eqb c quoteChar then dropLastQuote rest else dropLastQuote s
  | EmptyString => EmptyString
  end.

(** [s.split(/\r?\n/)]: cut at every line feed; a carriage return that
    immediately precedes the line feed belongs to the separator. *)
Fixpoint dropLastCR (s : string) : string :=
  match s with
  | EmptyString => EmptyString
  | String c EmptyString => if Ascii.eqb c (ascii_of_nat 13) then EmptyString else s
  | String c rest => String c (dropLastCR rest)
  end.

Fixpoint mapButLast {A} (f : A -> A) (l : list A) : list A :=
  match l with
  | [] => []
  | [x] => [x]
  | x :: tl => f x :: mapButLast f tl
  end.

Definition splitLines (s : string) : list string :=
  mapButLast dropLastCR (split (ascii_of_nat 10) s).

(** [String(n)] for an integer [n] below [2^53] in magnitude, the range in
    which the counters of a journal lie: its decimal expansion. *)
Definition ofZ (z : Z) : string := NilZero.string_of_int (Z.to_int z).

End JsString.

(* ================================================================== *)
(** ** Numbers of the JavaScript runtime *)

Module JsNumber.
Import JsString.

Inductive number : Type :=
| NaN
| Finite (q : Q)
| PosInfinity
| NegInfinity.

Definition ofInt (z : Z) : number := Finite (inject_Z z).

Definition isNaN (x : number) : bool :=
  match x with NaN => true | _ => false end.

Definition negate (x : number) : number :=
  match x with
  | NaN => NaN
  | Finite q => Finite (Qopp q)
  | PosInfinity => NegInfinity
  | NegInfinity => PosInfinity
  end.

(** Number::lessThan; [None] is the undefined result, when an operand is NaN. *)
Definition lessThan (x y : number) : option bool :=
  match x, y with
  | NaN, _ | _, NaN => None
  | Finite p, Finite q => Some (negb (Qle_bool q p))
  | NegInfinity, NegInfinity | PosInfinity, _ | Finite _, NegInfinity => Some false
  | NegInfinity, _ | Finite _, PosInfinity => Some true
  end.

(** Number::equal *)
Definition equal (x y : number) : bool :=
  match x, y with
  | Finite p, Finite q => Qeq_bool p q
  | PosInfinity, PosInfinity | NegInfinity, NegInfinity => true
  | _, _ => false
  end.

Definition digit (base : N) (c : ascii) : option N :=
  let x := byte c in
  let v := if (48 <=? x) && (x <=? 57) then Some (x - 48)
           else if (97 <=? x) && (x <=? 102) then Some (x - 87)
           else if (65 <=? x) && (x <=? 70) then Some (x - 55)
           else None in
  match v with
  | Some d => if d <? base then Some d else None
  | None => None
  end.

(** Reads the longest run of digits: its value on top of [acc], the number
    of digits read on top of [count], and the rest of the string. *)
Fixpoint readDigits (base : N) (s : string) (acc : N) (count : nat) : N * nat * string :=
  match s with
  | EmptyString => (acc, count, s)
  | String c rest =>
      match digit base c with
      | Some d => readDigits base rest (acc * base + d) (S count)
      | None => (acc, count, s)
      end
  end.

(** The fraction [num / den] divided by [2^x]. *)
Definition shiftBy (num den x : Z) : Z * Z :=
  if (0 <=? x)%Z then (num, den * 2 ^ x)%Z else (num * 2 ^ (- x), den)%Z.

(** The binary exponent [e] of a positive fraction:
    [2^e <= num / den < 2^(e+1)]. *)
Definition floorLog2 (num den : Z) : Z :=
  let e := (Z.log2 num - Z.log2 den)%Z in
  let '(a, b) := shiftBy num den e in
  if (b <=? a)%Z then e else (e - 1)%Z.

(** The integer nearest to [a / b]; of two equally near, the even one. *)
Definition roundHalfEven (a b : Z) : Z :=
  let m := (a / b)%Z in
  match (2 * (a mod b) ?= b)%Z with
  | Lt => m
  | Gt => (m + 1)%Z
  | Eq => if Z.even m then m else (m + 1)%Z
  end.

(** The Number value for a non-negative mathematical value (roundTiesToEven
    onto binary64): the nearest multiple of [2^x], where [x] leaves 53
    significant bits and is at least -1074 (the subnormal range), the even
    multiple of two equally near; from [2^1024] on, infinity. *)
Definition toBinary64 (q : Q) : number :=
  let num := Qnum q in
  let den := Zpos (Qden q) in
  if (num <=? 0)%Z then ofInt 0
  else
    let x := (Z.max (floorLog2 num den) (-1022) - 52)%Z in
    let '(a, b) := shiftBy num den x in
    let m := roundHalfEven a b in
    if (0 <=? x)%Z
    then if (2 ^ 1024 <=? m * 2 ^ x)%Z then PosInfinity
         else Finite (inject_Z (m * 2 ^ x))
    else Finite (Qred (Qmake m (Z.to_pos (2 ^ (- x))))).

(** The digits of a 0x, 0o or 0b literal. *)
Definition parseRadix (base : N) (digits : string) : number :=
  match readDigits base digits 0 0 with
  | (v, S _, EmptyString) => toBinary64 (inject_Z (Z.of_N v))
  | _ => NaN
  end.

(** The mathematical value [m * 10^e]. *)
Definition scale (m : N) (e : Z) : Q :=
  if (0 <=? e)%Z then inject_Z (Z.of_N m * 10 ^ e)
  else Qmake (Z.of_N m) (Z.to_pos (10 ^ (- e))).

(** SignedInteger of an ExponentPart. *)
Definition parseExponent (s : string) : option Z :=
  let '(negative, ds) :=
    match s with
    | String "+"%char r => (false, r)
    | String "-"%char r => (true, r)
    | _ => (false, s)
    end in
  match readDigits 10 ds 0 0 with
  | (v, S _, EmptyString) => Some (if negative then (- Z.of_N v)%Z else Z.of_N v)
  | _ => None
  end.

(** StrUnsignedDecimalLiteral *)
Definition parseUnsignedDecimal (s : string) : number :=
  if (s =? "Infinity")%string then PosInfinity
  else
    let '(ip, ni, r1) := readDigits 10 s 0 0 in
    let '(m, nf, r2) :=
      match r1 with
      | String "."%char r => readDigits 10 r ip 0
      | _ => (ip, 0%nat, r1)
      end in
    match (ni + nf)%nat with
    | O => NaN
    | S _ =>
        match r2 with
        | EmptyString => toBinary64 (scale m (- Z.of_nat nf))
        | String c r3 =>
            if Ascii.eqb c "e" || Ascii.eqb c "E"
            then match parseExponent r3 with
                 | Some e => toBinary64 (scale m (e - Z.of_nat nf))
                 | None => NaN
                 end
            else NaN
        end
    end.

(** StringNumericLiteral without its surrounding white space. *)
Definition parseNumeric (s : string) : number :=
  match s with
  | EmptyString => ofInt 0
  | String "+"%char r => parseUnsignedDecimal r
  | String "-"%char r => negate (parseUnsignedDecimal r)
  | String "0"%char (String x r) =>
      if Ascii.eqb x "x" || Ascii.eqb x "X" then parseRadix 16 r
      else if Ascii.eqb x "o" || Ascii.eqb x "O" then parseRadix 8 r
      else if Ascii.eqb x "b" || Ascii.eqb x "B" then parseRadix 2 r
      else parseUnsignedDecimal s
  | _ => parseUnsignedDecimal s
  end.

(** [Number(s)] for a string [s] (StringToNumber). *)
Definition Number (s : string) : number := parseNumeric (trim s).

End JsNumber.

(* ================================================================== *)
(** ** The summary object and the values read from it *)

Record LogSummaryForAdvice : Type := {
  goodThoughts : Z;
  badThoughts : Z;
  goodActions : Z;
  badActions : Z;
  goodWordsCount : Z;
  badWordsCount : Z;
  happyEvents : Z;
  toughEvents : Z
}.

Record AdviceItem : Type := {
  type : string;
  subtype : string;
  text : string;
  criteria : string
}.

Module JsObject.
Import JsString JsNumber.

(** The properties a plain object inherits from [Object.prototype]. *)
Inductive inherited : Type :=
| constructor_ | defineGetter | defineSetter | hasOwnProperty
| lookupGetter | lookupSetter | isPrototypeOf | propertyIsEnumerable
| toString_ | valueOf_ | proto | toLocaleString.

Definition inheritedName (m : inherited) : string :=
  match m with
  | constructor_ => "constructor"
  | defineGetter => "__defineGetter__"
  | defineSetter => "__defineSetter__"
  | hasOwnProperty => "hasOwnProperty"
  | lookupGetter => "__lookupGetter__"
  | lookupSetter => "__lookupSetter__"
  | isPrototypeOf => "isPrototypeOf"
  | propertyIsEnumerable => "propertyIsEnumerable"
  | toString_ => "toString"
  | valueOf_ => "valueOf"
  | proto => "__proto__"
  | toLocaleString => "toLocaleString"
  end.

Definition allInherited : list inherited :=
  [constructor_; defineGetter; defineSetter; hasOwnProperty; lookupGetter;
   lookupSetter; isPrototypeOf; propertyIsEnumerable; toString_; valueOf_;
   proto; toLocaleString].

Definition inherited_eqb (a b : inherited) : bool :=
  (inheritedName a =? inheritedName b)%string.

Definition lookupInherited (key : string) : option inherited :=
  find (fun m => (inheritedName m =? key)%string) allInherited.

(** The eight own properties of a summary, in the order of the literal
    that builds it. *)
Definition ownFields : list (string * (LogSummaryForAdvice -> Z)) :=
  [("goodThoughts", goodThoughts); ("badThoughts", badThoughts);
   ("goodActions", goodActions); ("badActions", badActions);
   ("goodWordsCount", goodWordsCount); ("badWordsCount", badWordsCount);
   ("happyEvents", happyEvents); ("toughEvents", toughEvents)]%string.

Definition lookupOwn (key : string) : option (LogSummaryForAdvice -> Z) :=
  option_map snd (find (fun f => (fst f =? key)%string) ownFields).

(** What [summary[key]] can be. *)
Inductive value : Type :=
| VUndefined
| VNumber (x : number)
| VInherited (m : inherited).

(** [key in summary]: own properties and the prototype chain. *)
Definition hasProperty (summary : LogSummaryForAdvice) (key : string) : bool :=
  match lookupOwn key, lookupInherited key with
  | None, None => false
  | _, _ => true
  end.

(** [summary[key]] *)
Definition getProperty (summary : LogSummaryForAdvice) (key : string) : value :=
  match lookupOwn key with
  | Some field => VNumber (ofInt (field summary))
  | None =>
      match lookupInherited key with
      | Some m => VInherited m
      | None => VUndefined
      end
  end.

Inductive primitive : Type :=
| PUndefined
| PNumber (x : number)
| PString (s : string).

(** The source text of a built-in function, and of [Object.prototype]
    (the value of [__proto__]) under [toString]. *)
Definition inheritedToString (m : inherited) : string :=
  match m with
  | proto => "[object Object]"
  | constructor_ => "function Object() { [native code] }"
  | _ => "function " ++ inheritedName m ++ "() { [native code] }"
  end.

Definition toPrimitive (v : value) : primitive :=
  match v with
  | VUndefined => PUndefined
  | VNumber x => PNumber x
  | VInherited m => PString (inheritedToString m)
  end.

Definition toNumber (p : primitive) : number :=
  match p with
  | PUndefined => NaN
  | PNumber x => x
  | PString s => Number s
  end.

(** IsLessThan *)
Definition isLessThan (x y : value) : option bool :=
  match toPrimitive x, toPrimitive y with
  | PString a, PString b => Some (String.ltb a b)
  | px, py => lessThan (toNumber px) (toNumber py)
  end.

Definition isTrue (r : option bool) : bool :=
  match r with Some true => true | _ => false end.
Definition isFalse (r : option bool) : bool :=
  match r with Some false => true | _ => false end.

Definition gt (x y : value) : bool := isTrue (isLessThan y x).
Definition lt (x y : value) : bool := isTrue (isLessThan x y).
Definition ge (x y : value) : bool := isFalse (isLessThan x y).
Definition le (x y : value) : bool := isFalse (isLessThan y x).

(** IsLooselyEqual, [x == y] *)
Definition looseEq (x y : value) : bool :=
  match x, y with
  | VUndefined, VUndefined => true
  | VNumber a, VNumber b => equal a b
  | VInherited m, VInherited n => inherited_eqb m n
  | VNumber a, VInherited m => equal a (toNumber (toPrimitive y))
  | VInherited m, VNumber b => equal (toNumber (toPrimitive x)) b
  | _, _ => false
  end.

End JsObject.

(* ================================================================== *)
(** ** The criteria evaluator *)

Import JsString JsNumber JsObject.

Definition isValidKey (summary : LogSummaryForAdvice) (key : string) : bool :=
  hasProperty summary key.

Definition evaluateCriteria (criteria : string) (summary : LogSummaryForAdvice) : bool :=
  if (criteria =? "ALWAYS_MATCH")%string || (criteria =? "")%string then true
  else
    let parts := map trim (split " " criteria) in
    match parts with
    | [leftOperandKey; operator; rightOperandRaw] =>
        if negb (isValidKey summary leftOperandKey) then false
        else
          let leftValue := getProperty summary leftOperandKey in
          let rightValue :=
            if negb (isNaN (Number rightOperandRaw))
            then Some (VNumber (Number rightOperandRaw))
            else if isValidKey summary rightOperandRaw
                 then Some (getProperty summary rightOperandRaw)
                 else None in
          match rightValue with
          | None => false
          | Some rightValue =>
              if (operator =? ">")%string then gt leftValue rightValue
              else if (operator =? "<")%string then lt leftValue rightValue
              else if (operator =? ">=")%string then ge leftValue rightValue
              else if (operator =? "<=")%string then le leftValue rightValue
              else if (operator =? "==")%string then looseEq leftValue rightValue
              else false
          end
    | _ => false
    end.

(* ================================================================== *)
(** ** Random choice *)

(** A value of [Math.random()]: a number [u] with [0 <= u < 1]. *)
Record unitInterval : Type := {
  numerator : N;
  denominator : positive;
  below_one : numerator < Npos denominator
}.

(** The successive values [Math.random()] returns. *)
Definition RandomSource : Type := nat -> unitInterval.

Definition MathRandom (rng : RandomSource) : unitInterval * RandomSource :=
  (rng 0%nat, fun i => rng (S i)).

(** [Math.floor(u * n)] *)
Definition floorTimes (u : unitInterval) (n : nat) : nat :=
  N.to_nat ((numerator u * N.of_nat n) / Npos (denominator u)).

(** [arr[Math.floor(Math.random() * arr.length)]]; [None] is [undefined]. *)
Definition pickRandom {T : Type} (arr : list T) (rng : RandomSource)
  : option T * RandomSource :=
  let '(u, rng') := MathRandom rng in
  (nth_error arr (floorTimes u (List.length arr)), rng').

(* ================================================================== *)
(** ** Loading the advice sheet *)

Fixpoint parseCsvRowLoop (row : string) (result : list string) (current : string)
  (inQuotes : bool) : list string :=
  match row with
  | EmptyString => (result ++ [trim current])%list
  | String char rest =>
      if Ascii.eqb char quoteChar
      then parseCsvRowLoop rest result current (negb inQuotes)
      else if Ascii.eqb char "," && negb inQuotes
      then parseCsvRowLoop rest (result ++ [trim current])%list EmptyString inQuotes
      else parseCsvRowLoop rest result (current ++ String char EmptyString) inQuotes
  end.

Definition parseCsvRow (row : string) : list string :=
  map stripQuotes (parseCsvRowLoop row [] EmptyString false).

(** Truthiness of a destructured field: present and not the empty string. *)
Definition present (field : option string) : bool :=
  match field with
  | Some (String _ _) => true
  | _ => false
  end.

(** One turn of the loop over the rows: the record the row adds, if any. *)
Definition parseAdviceRow (row : string) : option AdviceItem :=
  if (trim row =? "")%string then None
  else
    let fields := parseCsvRow row in
    match nth_error fields 0, nth_error fields 1, nth_error fields 2, nth_error fields 3 with
    | Some type_, Some subtype_, Some text_, Some criteria_ =>
        if present (Some type_) && present (Some subtype_)
           && present (Some text_) && present (Some criteria_)
        then Some {| type := type_; subtype := subtype_; text := text_;
                     criteria := trim criteria_ |}
        else None
    | _, _, _, _ => None
    end.

Fixpoint parseAdviceRows (rows : list string) (parsedAdvice : list AdviceItem)
  : list AdviceItem :=
  match rows with
  | [] => parsedAdvice
  | row :: rest =>
      match parseAdviceRow row with
      | Some item => parseAdviceRows rest (parsedAdvice ++ [item])%list
      | None => parseAdviceRows rest parsedAdvice
      end
  end.

(** The body of the request up to the assignment of [allAdvice]. *)
Definition parseAdviceCsv (csvText : string) : list AdviceItem :=
  let rows := tl (splitLines csvText) in
  parseAdviceRows rows [].

(** How the request for the sheet ends. *)
Inductive FetchOutcome : Type :=
| NetworkError
| ResponseNotOk
| ResponseBodyError
| ResponseOk (csvText : string).

Inductive exception : Type :=
| FetchError
| TypeError.

Inductive completion (A : Type) : Type :=
| Normal (a : A)
| Throw (e : exception).
Arguments Normal {A} a.
Arguments Throw {A} e.

(** The cache [allAdvice]: [None] is [null]. *)
Definition Cache : Type := option (list AdviceItem).

(** The caller awaits the promise of the request, its own or the one in
    flight; [outcome] is how that request ends.  [isFetching] and
    [fetchPromise] are reset before the promise settles and are not kept. *)
Definition fetchAndParseAdviceData (allAdvice : Cache) (outcome : FetchOutcome)
  : completion unit * Cache :=
  match allAdvice with
  | Some _ => (Normal tt, allAdvice)
  | None =>
      match outcome with
      | ResponseOk csvText => (Normal tt, Some (parseAdviceCsv csvText))
      | _ => (Throw FetchError, None)
      end
  end.

(* ================================================================== *)
(** ** Selecting and composing *)

Definition MSG_DATA_UNAVAILABLE : string :=
  "조언 데이터를 불러오지 못했습니다. 인터넷 연결을 확인하거나 관리자에게 문의하세요.".
Definition MSG_NO_ACTIVITY : string :=
  "기록이 없습니다. 자신의 기운을 기록하고 맞춤 조언을 받아보세요.".
Definition MSG_GENERATION_FAILED : string :=
  "조언을 생성하는 중 오류가 발생했습니다. 잠시 후 다시 시도해주세요.".

Definition STRENGTH_HEADING : string := "✨ **당신이 정말 잘하고 있는 것들:**" ++ LF.
Definition STRENGTH_ENCOURAGEMENT : string :=
  "꾸준히 기록하는 당신의 노력을 응원합니다!" ++ LF ++ LF.
Definition GROWTH_HEADING : string := "☁️ **우리 함께 채워나갈 부분:**" ++ LF.
Definition TIPS_HEADING : string := "🌱 **당신을 위한 따뜻하고 실천 가능한 조언:**" ++ LF.

(** [Object.values(logSummary)] *)
Definition objectValues (logSummary : LogSummaryForAdvice) : list Z :=
  map (fun f => snd f logSummary) ownFields.

(** [val || 0] *)
Definition orZero (val : Z) : Z := if (val =? 0)%Z then 0%Z else val.

Definition totalActions (logSummary : LogSummaryForAdvice) : Z :=
  fold_left (fun sum val => (sum + orZero val)%Z) (objectValues logSummary) 0%Z.

(** Truthiness of an optional string argument. *)
Definition given (s : option string) : option string :=
  match s with
  | Some (String _ _) => s
  | _ => None
  end.

(** The list [suitable] of [findAndPick]. *)
Definition suitable (allAdvice : list AdviceItem) (logSummary : LogSummaryForAdvice)
  (type_ : string) (subtype_ : option string) : list AdviceItem :=
  let pool := filter (fun item => (type item =? type_)%string) allAdvice in
  let pool :=
    match given subtype_ with
    | Some st => filter (fun item => (subtype item =? st)%string) pool
    | None => pool
    end in
  filter (fun item => evaluateCriteria (criteria item) logSummary) pool.

Definition findAndPick (allAdvice : list AdviceItem) (logSummary : LogSummaryForAdvice)
  (type_ : string) (subtype_ : option string) (rng : RandomSource)
  : option AdviceItem * RandomSource :=
  let suitable := suitable allAdvice logSummary type_ subtype_ in
  if (0 <? List.length suitable)%nat then pickRandom suitable rng else (None, rng).

Section Composer.

Variable allAdvice : list AdviceItem.
Variable logSummary : LogSummaryForAdvice.
Variable periodLabel : string.

Definition periodType : string :=
  if includes periodLabel "주" then "weekly"
  else if includes periodLabel "월" then "monthly"
  else "daily".

(** [findAndPick('intro', periodType) || findAndPick('intro', 'default')]
    and the text it adds. *)
Definition introSection (rng : RandomSource) : string * RandomSource :=
  let '(intro, rng) :=
    match findAndPick allAdvice logSummary "intro" (Some periodType) rng with
    | (Some item, rng1) => (Some item, rng1)
    | (None, rng1) => findAndPick allAdvice logSummary "intro" (Some "default") rng1
    end in
  match intro with
  | Some item => (replaceFirst "{periodLabel}" periodLabel (text item) ++ LF ++ LF, rng)
  | None => (EmptyString, rng)
  end.

(** What follows the strength heading. *)
Definition strengthEntry (rng : RandomSource) : string * RandomSource :=
  let '(strength, rng) := findAndPick allAdvice logSummary "strength" None rng in
  match strength with
  | Some item => ("1. " ++ text item ++ LF ++ LF, rng)
  | None =>
      let '(fallbackStrength, rng) :=
        findAndPick allAdvice logSummary "strength" (Some "balance") rng in
      match fallbackStrength with
      | Some item => ("1. " ++ text item ++ LF ++ LF, rng)
      | None => (STRENGTH_ENCOURAGEMENT, rng)
      end
  end.

Definition strengthSection (rng : RandomSource) : string * RandomSource :=
  let '(entry, rng) := strengthEntry rng in
  (STRENGTH_HEADING ++ entry, rng).

(** The growth block: its text and [growthSubtype]. *)
Definition growthSection (rng : RandomSource) : string * option string * RandomSource :=
  let '(growth, rng) := findAndPick allAdvice logSummary "growth" None rng in
  match growth with
  | Some item => (GROWTH_HEADING ++ text item ++ LF ++ LF, Some (subtype item), rng)
  | None => (EmptyString, None, rng)
  end.

(** The [forEach] over [tipsList]. *)
Fixpoint renderTips (tipsList : list string) (index : nat) : string :=
  match tipsList with
  | [] => EmptyString
  | tip :: rest =>
      ofZ (Z.of_nat index + 1) ++ ". " ++ tip ++ LF ++ renderTips rest (S index)
  end.

Definition tipsSection (growthSubtype : option string) (rng : RandomSource)
  : completion (string * RandomSource) :=
  let tipsList : list string := [] in
  let '(tipsList, rng) :=
    match given growthSubtype with
    | Some st =>
        let '(growthTip, rng) := findAndPick allAdvice logSummary "tip" (Some st) rng in
        match growthTip with
        | Some item => ((tipsList ++ [text item])%list, rng)
        | None => (tipsList, rng)
        end
    | None => (tipsList, rng)
    end in
  let '(maintainTip, rng) :=
    findAndPick allAdvice logSummary "tip" (Some "maintainStrengths") rng in
  let tipsList :=
    match maintainTip with
    | Some item => (tipsList ++ [text item])%list
    | None => tipsList
    end in
  let ensured : completion (list string * RandomSource) :=
    if (List.length tipsList =? 0)%nat
    then
      let fallbackTip :=
        filter (fun a => (type a =? "tip")%string
                         && negb (subtype a =? "maintainStrengths")%string) allAdvice in
      if (0 <? List.length fallbackTip)%nat
      then match pickRandom fallbackTip rng with
           | (Some item, rng) => Normal ((tipsList ++ [text item])%list, rng)
           | (None, _) => Throw TypeError
           end
      else Normal (tipsList, rng)
    else Normal (tipsList, rng) in
  match ensured with
  | Throw e => Throw e
  | Normal (tipsList, rng) => Normal (TIPS_HEADING ++ renderTips tipsList 0 ++ LF, rng)
  end.

Definition closingSection (rng : RandomSource) : string * RandomSource :=
  let '(closing, rng) := findAndPick allAdvice logSummary "closing" None rng in
  match closing with
  | Some item => (text item, rng)
  | None => (EmptyString, rng)
  end.

(** The final chain of global replacements. *)
Definition substitutePlaceholders (advice : string) : string :=
  let advice := replaceAll "{goodWordsCount}" (ofZ (goodWordsCount logSummary)) advice in
  let advice := replaceAll "{badWordsCount}" (ofZ (badWordsCount logSummary)) advice in
  let advice := replaceAll "{goodActions}" (ofZ (goodActions logSummary)) advice in
  let advice := replaceAll "{badActions}" (ofZ (badActions logSummary)) advice in
  let advice := replaceAll "{goodThoughts}" (ofZ (goodThoughts logSummary)) advice in
  let advice := replaceAll "{badThoughts}" (ofZ (badThoughts logSummary)) advice in
  let advice := replaceAll "{happyEvents}" (ofZ (happyEvents logSummary)) advice in
  replaceAll "{toughEvents}" (ofZ (toughEvents logSummary)) advice.

(** The section pipeline, from [let advice = ""] to the final [return]. *)
Definition composeAdvice (rng : RandomSource) : completion string :=
  let advice := EmptyString in
  let '(intro, rng) := introSection rng in
  let advice := advice ++ intro in
  let '(strength, rng) := strengthSection rng in
  let advice := advice ++ strength in
  let '(growth, growthSubtype, rng) := growthSection rng in
  let advice := advice ++ growth in
  match tipsSection growthSubtype rng with
  | Throw e => Throw e
  | Normal (tips, rng) =>
      let advice := advice ++ tips in
      let '(closing, _) := closingSection rng in
      let advice := advice ++ closing in
      Normal (substitutePlaceholders advice)
  end.

End Composer.

(** The [try] block of [generateDetailedAdvice]. *)
Definition adviceAttempt (logSummary : option LogSummaryForAdvice) (periodLabel : string)
  (allAdvice : Cache) (outcome : FetchOutcome) (rng : RandomSource)
  : completion string * Cache :=
  let '(awaited, allAdvice) :=
    match allAdvice with
    | None => fetchAndParseAdviceData allAdvice outcome
    | Some _ => (Normal tt, allAdvice)
    end in
  match awaited with
  | Throw e => (Throw e, allAdvice)
  | Normal _ =>
      match allAdvice, logSummary with
      | Some records, Some summary =>
          if (totalActions summary =? 0)%Z then (Normal MSG_NO_ACTIVITY, allAdvice)
          else (composeAdvice records summary periodLabel rng, allAdvice)
      | _, _ => (Normal MSG_DATA_UNAVAILABLE, allAdvice)
      end
  end.

(** The string the promise resolves to, and the cache afterwards. *)
Definition generateDetailedAdvice (logSummary : option LogSummaryForAdvice)
  (periodLabel : string) (allAdvice : Cache) (outcome : FetchOutcome)
  (rng : RandomSource) : string * Cache :=
  match adviceAttempt logSummary periodLabel allAdvice outcome rng with
  | (Normal advice, cache) => (advice, cache)
  | (Throw _, cache) => (MSG_GENERATION_FAILED, cache)
  end.

(* ================================================================== *)
(** ** The vocabulary of the specification *)

Module Spec.

(** The eight counter names. *)
Definition fieldNames : list string := map fst ownFields.

(** The five comparison operators of a criteria expression. *)
Inductive Operator : Type := Gt | Lt | Ge | Le | Eq.

Definition symbol (op : Operator) : string :=
  match op with
  | Gt => ">"
  | Lt => "<"
  | Ge => ">="
  | Le => "<="
  | Eq => "=="
  end.

Definition operators : list string := map symbol [Gt; Lt; Ge; Le; Eq].

(** The comparison [x op y] of a counter with a number, on the values the
    two stand for. *)
Definition holds (op : Operator) (x : Z) (y : number) : Prop :=
  match y with
  | NaN => False
  | Finite q =>
      match op with
      | Gt => (q < inject_Z x)%Q
      | Lt => (inject_Z x < q)%Q
      | Ge => (q <= inject_Z x)%Q
      | Le => (inject_Z x <= q)%Q
      | Eq => (inject_Z x == q)%Q
      end
  | PosInfinity => match op with Lt | Le => True | _ => False end
  | NegInfinity => match op with Gt | Ge => True | _ => False end
  end.

(** Number of bytes of the white-space character [s] starts with, if any. *)
Definition whitespaceAt (s : string) : nat :=
  match s with
  | String a (String b (String c _)) =>
      if whitespace1 a then 1 else if whitespace2 a b then 2
      else if whitespace3 a b c then 3 else 0
  | String a (String b EmptyString) =>
      if whitespace1 a then 1 else if whitespace2 a b then 2 else 0
  | String a EmptyString => if whitespace1 a then 1 else 0
  | EmptyString => 0
  end%nat.

(** The pieces of [s] between its white-space characters, empty pieces
    included.  [inside] counts the bytes of the current white-space
    character still to be dropped. *)
Fixpoint whitespacePieces (s : string) (inside : nat) : list string :=
  match s with
  | EmptyString => [EmptyString]
  | String c rest =>
      match inside with
      | S k => whitespacePieces rest k
      | O =>
          match whitespaceAt s with
          | S k => EmptyString :: whitespacePieces rest k
          | O =>
              match whitespacePieces rest 0 with
              | piece :: pieces => String c piece :: pieces
              | [] => [String c EmptyString]
              end
          end
      end
  end.

(** The tokens of [s]: its maximal runs of characters that are not white
    space. *)
Definition whitespaceTokens (s : string) : list string :=
  filter (fun piece => negb (piece =? "")%string) (whitespacePieces s 0).

(** A record [findAndPick(type, subtype)] may return, when the subtype
    filter applies to every subtype that is passed. *)
Definition eligible (records : list AdviceItem) (summary : LogSummaryForAdvice)
  (type_ : string) (subtype_ : option string) (item : AdviceItem) : Prop :=
  In item records
  /\ type item = type_
  /\ (forall st, subtype_ = Some st -> subtype item = st)
  /\ evaluateCriteria (criteria item) summary = true.

(** All four fields of a record are non-empty. *)
Definition complete (item : AdviceItem) : Prop :=
  type item <> EmptyString /\ subtype item <> EmptyString
  /\ text item <> EmptyString /\ criteria item <> EmptyString.

(** The sum of the eight counters. *)
Definition fieldSum (s : LogSummaryForAdvice) : Z :=
  (goodThoughts s + badThoughts s + goodActions s + badActions s
   + goodWordsCount s + badWordsCount s + happyEvents s + toughEvents s)%Z.

(** What the composer returns for a dataset without records. *)
Definition emptyDatasetAdvice : string :=
  STRENGTH_HEADING ++ STRENGTH_ENCOURAGEMENT ++ TIPS_HEADING ++ LF.

End Spec.

(* ================================================================== *)
(** ** Sample inputs *)

Module Sample.

(** The summary of the end-to-end example of the specification. *)
Definition summary : LogSummaryForAdvice :=
  {| goodThoughts := 3; badThoughts := 0; goodActions := 2; badActions := 0;
     goodWordsCount := 1; badWordsCount := 0; happyEvents := 1; toughEvents := 0 |}.

Definition noActivity : LogSummaryForAdvice :=
  {| goodThoughts := 0; badThoughts := 0; goodActions := 0; badActions := 0;
     goodWordsCount := 0; badWordsCount := 0; happyEvents := 0; toughEvents := 0 |}.

Definition half : unitInterval :=
  {| numerator := 1; denominator := 2; below_one := eq_refl |}.

Definition rng : RandomSource := fun _ => half.

Definition tipX : AdviceItem :=
  {| type := "tip"; subtype := "x"; text := "Breathe."; criteria := "ALWAYS_MATCH" |}.

Definition strengthBalance : AdviceItem :=
  {| type := "strength"; subtype := "balance"; text := "Well balanced.";
     criteria := "goodThoughts > badThoughts" |}.

Definition sheet : string :=
  "type,subtype,text,criteria" ++ CR ++ LF
  ++ "strength,balance,Well balanced.,goodThoughts > badThoughts" ++ CR ++ LF
  ++ "tip,x,Breathe." ++ CR ++ LF
  ++ "tip,x,Breathe.,ALWAYS_MATCH".

End Sample.

(* ================================================================== *)
(** ** The ad service (services/geminiService) and its caller *)

Module AdService.

Record AdItem : Type := {
  text : string;
  link : string
}.

(** The cache [allAds]: [None] is [null]. *)
Definition AdCache : Type := option (list AdItem).

(** One turn of the loop over the rows; the row parser is the one of the
    advice service, repeated word for word in this file. *)
Definition parseAdRow (row : string) : option AdItem :=
  if (trim row =? "")%string then None
  else
    let fields := parseCsvRow row in
    match nth_error fields 0, nth_error fields 1 with
    | Some text_, Some link_ =>
        if present (Some text_) && present (Some link_)
        then Some {| text := text_; link := link_ |}
        else None
    | _, _ => None
    end.

Fixpoint parseAdRows (rows : list string) (parsedAds : list AdItem) : list AdItem :=
  match rows with
  | [] => parsedAds
  | row :: rest =>
      match parseAdRow row with
      | Some item => parseAdRows rest (parsedAds ++ [item])%list
      | None => parseAdRows rest parsedAds
      end
  end.

Definition parseAdCsv (csvText : string) : list AdItem :=
  let rows := tl (splitLines csvText) in
  parseAdRows rows [].

(** On a failure the cache is set to the empty list before the error is
    thrown again. *)
Definition fetchAndParseAdData (allAds : AdCache) (outcome : FetchOutcome)
  : completion unit * AdCache :=
  match allAds with
  | Some _ => (Normal tt, allAds)
  | None =>
      match outcome with
      | ResponseOk csvText => (Normal tt, Some (parseAdCsv csvText))
      | _ => (Throw FetchError, Some [])
      end
  end.

Definition fetchAds (allAds : AdCache) (outcome : FetchOutcome)
  : completion (list AdItem) * AdCache :=
  let '(awaited, allAds) :=
    match allAds with
    | None => fetchAndParseAdData allAds outcome
    | Some _ => (Normal tt, allAds)
    end in
  match awaited with
  | Throw e => (Throw e, allAds)
  | Normal _ =>
      (Normal match allAds with
              | Some ads => ads
              | None => []
              end, allAds)
  end.

(** The ads [loadAds] of [App] falls back to. *)
Definition FALLBACK_ADS : list AdItem :=
  [{| text := "✨ 긍정 확언 노트로 매일 행운을 기록하세요!";
      link := "https://example.com" |};
   {| text := "🍀 오늘의 운세 확인하고 하루를 준비하세요!";
      link := "https://example.com" |};
   {| text := "🧘‍♀️ 명상으로 마음 챙김, 스트레스를 줄여보세요.";
      link := "https://example.com" |};
   {| text := "💖 감사 일기로 삶의 소중함을 발견하세요.";
      link := "https://example.com" |}].

(** [loadAds]: the value given to [setAdItems], and the cache afterwards.
    The error thrown for an empty list is caught by the same handler. *)
Definition loadAds (allAds : AdCache) (outcome : FetchOutcome)
  : list AdItem * AdCache :=
  match fetchAds allAds outcome with
  | (Normal fetchedAds, cache) =>
      if (0 <? List.length fetchedAds)%nat then (fetchedAds, cache)
      else (FALLBACK_ADS, cache)
  | (Throw _, cache) => (FALLBACK_ADS, cache)
  end.

(** Both fields of an ad are non-empty. *)
Definition complete (item : AdItem) : Prop :=
  text item <> EmptyString /\ link item <> EmptyString.

(** What every cache the service builds satisfies. *)
Definition cacheComplete (cache : AdCache) : Prop :=
  match cache with
  | Some ads => Forall complete ads
  | None => True
  end.

End AdService.

(* ================================================================== *)
(** ** The daily log and its handlers (App) *)

Module Journal.

(** A logged word: the [data] of [addWord] and the [id] it adds. *)
Record WordEntry : Type := {
  text : string;
  intensity : Z;
  id : Z
}.

(** The shape of a daily log, as the literal of [currentLog] gives it. *)
Record DailyLog : Type := {
  goodWords : list WordEntry;
  badWords : list WordEntry;
  goodThoughts : Z;
  badThoughts : Z;
  goodActions : Z;
  badActions : Z;
  happyEvents : Z;
  toughEvents : Z
}.

(** The literal used for a day without a log. *)
Definition emptyLog : DailyLog :=
  {| goodWords := []; badWords := [];
     goodThoughts := 0; badThoughts := 0;
     goodActions := 0; badActions := 0;
     happyEvents := 0; toughEvents := 0 |}.

(** [allLogs[todayKey] || { ... }] *)
Definition currentLog (stored : option DailyLog) : DailyLog :=
  match stored with
  | Some log => log
  | None => emptyLog
  end.

(** The [field] argument of [handleCounterChange]. *)
Inductive CounterField : Type :=
| GoodThoughts | BadThoughts | GoodActions | BadActions | HappyEvents | ToughEvents.

(** Its [amount] argument, of type [1 | -1]. *)
Inductive Amount : Type := PlusOne | MinusOne.

Definition amountValue (amount : Amount) : Z :=
  match amount with
  | PlusOne => 1
  | MinusOne => -1
  end.

(** [log[field]] *)
Definition getCounter (log : DailyLog) (field : CounterField) : Z :=
  match field with
  | GoodThoughts => goodThoughts log
  | BadThoughts => badThoughts log
  | GoodActions => goodActions log
  | BadActions => badActions log
  | HappyEvents => happyEvents log
  | ToughEvents => toughEvents log
  end.

(** [{ ...log, [field]: value }] *)
Definition setCounter (log : DailyLog) (field : CounterField) (value : Z) : DailyLog :=
  {| goodWords := goodWords log;
     badWords := badWords log;
     goodThoughts := match field with GoodThoughts => value | _ => goodThoughts log end;
     badThoughts := match field with BadThoughts => value | _ => badThoughts log end;
     goodActions := match field with GoodActions => value | _ => goodActions log end;
     badActions := match field with BadActions => value | _ => badActions log end;
     happyEvents := match field with HappyEvents => value | _ => happyEvents log end;
     toughEvents := match field with ToughEvents => value | _ => toughEvents log end |}.

(** The log [handleCounterChange] passes to [updateLog]. *)
Definition handleCounterChange (currentLog : DailyLog) (field : CounterField)
  (amount : Amount) : DailyLog :=
  let newLog := currentLog in
  setCounter newLog field (Z.max 0 (getCounter newLog field + amountValue amount)).

Inductive WordType : Type := Good | Bad.

(** The log [addWord] passes to [updateLog]; [now] is [Date.now()]. *)
Definition addWord (currentLog : DailyLog) (type : WordType) (text_ : string)
  (intensity_ : Z) (now : Z) : DailyLog :=
  let entry := {| text := text_; intensity := intensity_; id := now |} in
  match type with
  | Good =>
      {| goodWords := (goodWords currentLog ++ [entry])%list;
         badWords := badWords currentLog;
         goodThoughts := goodThoughts currentLog;
         badThoughts := badThoughts currentLog;
         goodActions := goodActions currentLog;
         badActions := badActions currentLog;
         happyEvents := happyEvents currentLog;
         toughEvents := toughEvents currentLog |}
  | Bad =>
      {| goodWords := goodWords currentLog;
         badWords := (badWords currentLog ++ [entry])%list;
         goodThoughts := goodThoughts currentLog;
         badThoughts := badThoughts currentLog;
         goodActions := goodActions currentLog;
         badActions := badActions currentLog;
         happyEvents := happyEvents currentLog;
         toughEvents := toughEvents currentLog |}
  end.

(** One use of a handler on the log of the day. *)
Inductive Action : Type :=
| Counter (field : CounterField) (amount : Amount)
| Word (type : WordType) (text_ : string) (intensity_ : Z) (now : Z).

Definition act (log : DailyLog) (action : Action) : DailyLog :=
  match action with
  | Counter field amount => handleCounterChange log field amount
  | Word type text_ intensity_ now => addWord log type text_ intensity_ now
  end.

(** No counter of the log is negative. *)
Definition nonNegative (log : DailyLog) : Prop :=
  forall field, (0 <= getCounter log field)%Z.

End Journal.

(* ================================================================== *)
(** ** The monthly aggregation (App, [monthlyData]) *)

Module Monthly.

Record WeekEnergy : Type := {
  goodEnergy : Z;
  badEnergy : Z;
  totalEnergy : Z
}.

Record Totals : Type := {
  goodThoughts : Z;
  badThoughts : Z;
  goodActions : Z;
  badActions : Z;
  goodWords : Z;
  badWords : Z;
  happyEvents : Z;
  toughEvents : Z;
  goodWordScore : Z;
  badWordScore : Z
}.

Definition zeroTotals : Totals :=
  {| goodThoughts := 0; badThoughts := 0; goodActions := 0; badActions := 0;
     goodWords := 0; badWords := 0; happyEvents := 0; toughEvents := 0;
     goodWordScore := 0; badWordScore := 0 |}.

Definition zeroEnergy : WeekEnergy :=
  {| goodEnergy := 0; badEnergy := 0; totalEnergy := 0 |}.

(** [words.reduce((sum, w) => sum + w.intensity, 0)] *)
Definition wordScore (words : list Journal.WordEntry) : Z :=
  fold_left (fun sum w => (sum + Journal.intensity w)%Z) words 0%Z.

Definition goodEnergyOf (log : Journal.DailyLog) : Z :=
  (Journal.goodThoughts log * 6 + wordScore (Journal.goodWords log)
   + Journal.goodActions log * 20 + Journal.happyEvents log * 10)%Z.

Definition badEnergyOf (log : Journal.DailyLog) : Z :=
  (Journal.badThoughts log * 6 + wordScore (Journal.badWords log)
   + Journal.badActions log * 20 + Journal.toughEvents log * 10)%Z.

(** [arr[index]] updated in place when it exists. *)
Fixpoint updateAt {A : Type} (index : nat) (f : A -> A) (arr : list A) : list A :=
  match arr, index with
  | [], _ => []
  | x :: rest, O => f x :: rest
  | x :: rest, S i => x :: updateAt i f rest
  end.

(** The body of the loop over the days; [logOfDay day] is what [allLogs]
    holds under the key of that day of the month. *)
Definition dayStep (logOfDay : nat -> option Journal.DailyLog)
  (state : Totals * list WeekEnergy) (day : nat) : Totals * list WeekEnergy :=
  let '(totals, weeklyEnergies) := state in
  let log := Journal.currentLog (logOfDay day) in
  let goodWordScore_ := wordScore (Journal.goodWords log) in
  let badWordScore_ := wordScore (Journal.badWords log) in
  let totals :=
    {| goodThoughts := goodThoughts totals + Journal.goodThoughts log;
       badThoughts := badThoughts totals + Journal.badThoughts log;
       goodActions := goodActions totals + Journal.goodActions log;
       badActions := badActions totals + Journal.badActions log;
       goodWords := goodWords totals + Z.of_nat (List.length (Journal.goodWords log));
       badWords := badWords totals + Z.of_nat (List.length (Journal.badWords log));
       happyEvents := happyEvents totals + Journal.happyEvents log;
       toughEvents := toughEvents totals + Journal.toughEvents log;
       goodWordScore := goodWordScore totals + goodWordScore_;
       badWordScore := badWordScore totals + badWordScore_ |}%Z in
  let goodEnergy_ := goodEnergyOf log in
  let badEnergy_ := badEnergyOf log in
  let weekIndex := ((day - 1) / 7)%nat in
  let weeklyEnergies :=
    updateAt weekIndex
      (fun e => {| goodEnergy := goodEnergy e + goodEnergy_;
                   badEnergy := badEnergy e + badEnergy_;
                   totalEnergy := totalEnergy e + (goodEnergy_ + badEnergy_) |}%Z)
      weeklyEnergies in
  (totals, weeklyEnergies).

Record MonthlyData : Type := {
  weeklyEnergies : list WeekEnergy;
  maxEnergy : Z;
  totals : Totals
}.

(** [monthlyData] for a month of [numDays] days, without its label. *)
Definition monthlyData (numDays : nat) (logOfDay : nat -> option Journal.DailyLog)
  : MonthlyData :=
  let '(totals_, weeklyEnergies_) :=
    fold_left (dayStep logOfDay) (seq 1 numDays) (zeroTotals, repeat zeroEnergy 5) in
  {| weeklyEnergies := weeklyEnergies_;
     maxEnergy := fold_right Z.max 10%Z (map totalEnergy weeklyEnergies_);
     totals := totals_ |}.

(** Sum of a list of integers. *)
Definition sumZ (l : list Z) : Z := fold_right Z.add 0%Z l.

End Monthly.

(* ================================================================== *)
(** ** The advice coach (components/AdviceCoach) *)

Module Coach.

(** The totals a weekly or monthly report passes instead of a daily log. *)
Record AggregatedLog : Type := {
  goodThoughts : Z;
  badThoughts : Z;
  goodActions : Z;
  badActions : Z;
  goodWords : Z;
  badWords : Z;
  happyEvents : Z;
  toughEvents : Z
}.

(** The prop [logSummary], when it is not null. *)
Inductive LogInput : Type :=
| Daily (log : Journal.DailyLog)
| Aggregated (log : AggregatedLog).

(** The literal [summaryForAdvice]. *)
Definition summaryForAdvice (logSummary : LogInput) : LogSummaryForAdvice :=
  match logSummary with
  | Daily log =>
      Build_LogSummaryForAdvice
        (orZero (Journal.goodThoughts log)) (orZero (Journal.badThoughts log))
        (orZero (Journal.goodActions log)) (orZero (Journal.badActions log))
        (Z.of_nat (List.length (Journal.goodWords log)))
        (Z.of_nat (List.length (Journal.badWords log)))
        (orZero (Journal.happyEvents log)) (orZero (Journal.toughEvents log))
  | Aggregated log =>
      Build_LogSummaryForAdvice
        (orZero (goodThoughts log)) (orZero (badThoughts log))
        (orZero (goodActions log)) (orZero (badActions log))
        (orZero (goodWords log)) (orZero (badWords log))
        (orZero (happyEvents log)) (orZero (toughEvents log))
  end.

(** The memoized [totalActions] of the component. *)
Definition totalActions (logSummary : option LogInput) : Z :=
  match logSummary with
  | None => 0%Z
  | Some input =>
      fold_left (fun sum val => (sum + val)%Z) (objectValues (summaryForAdvice input)) 0%Z
  end.

(** The component renders something: [totalActions] is not 0. *)
Definition renders (logSummary : option LogInput) : bool :=
  negb (totalActions logSummary =? 0)%Z.

(** [handleGetAdvice]: the advice given to [setAdvice] and the cache of the
    service afterwards; [None] when the handler returns at once. *)
Definition handleGetAdvice (logSummary : option LogInput) (periodLabel : string)
  (allAdvice : Cache) (outcome : FetchOutcome) (rng : RandomSource)
  : option (string * Cache) :=
  match logSummary with
  | None => None
  | Some input =>
      Some (generateDetailedAdvice (Some (summaryForAdvice input)) periodLabel
              allAdvice outcome rng)
  end.

End Coach.

(* ================================================================== *)
(** ** Auxiliary notions *)

(** What every field [parseCsvRow] cuts satisfies: no quote is left in it,
    and it is already trimmed. *)
Definition cleanField (f : string) : Prop :=
  containsChar quoteChar f = false /\ trim f = f.

(** The record a row adds to the sheet, as a list. *)
Definition rowRecords (row : string) : list AdviceItem :=
  match parseAdviceRow row with
  | Some item => [item]
  | None => []
  end.

(** The comparison [x op y] of two counters. *)
Definition holdsBetween (op : Spec.Operator) (x y : Z) : Prop :=
  match op with
  | Spec.Gt => (y < x)%Z
  | Spec.Lt => (x < y)%Z
  | Spec.Ge => (y <= x)%Z
  | Spec.Le => (x <= y)%Z
  | Spec.Eq => x = y
  end.

(** A field between two quotes, as a spreadsheet exports it. *)
Definition csvQuote (field : string) : string :=
  String quoteChar (field ++ String quoteChar EmptyString).

(** [fields.join(',')] *)
Fixpoint joinComma (fields : list string) : string :=
  match fields with
  | [] => EmptyString
  | [field] => field
  | field :: rest => field ++ "," ++ joinComma rest
  end.

(** The eight placeholders of the final replacement. *)
Definition placeholders : list string :=
  map (fun name => "{" ++ name ++ "}") Spec.fieldNames.

(** The three fixed messages. *)
Definition fixedMessages : list string :=
  [MSG_DATA_UNAVAILABLE; MSG_NO_ACTIVITY; MSG_GENERATION_FAILED].

(** A pattern [p] none of whose characters occurs in the replacement [r]. *)
Definition apartFrom (r p : string) : Prop :=
  forall c, containsChar c r = true -> containsChar c p = false.

(** A byte that is not white space and starts no white-space character. *)
Definition plainChar (a : ascii) : bool :=
  negb (whitespace1 a) && (byte a <? 128).

(** A string of plain bytes: no white-space character occurs in it. *)
Fixpoint plain (s : string) : bool :=
  match s with
  | EmptyString => true
  | String a rest => plainChar a && plain rest
  end.

(** A run of white-space characters. *)
Inductive blank : string -> Prop :=
| blank_nil : blank EmptyString
| blank_cons : forall w s, isWhitespaceChar w = true -> blank s -> blank (w ++ s).

(** The request of this call fails: nothing is cached and the outcome is
    not a response with a body. *)
Definition loadFails (cache : Cache) (outcome : FetchOutcome) : Prop :=
  cache = None /\ forall csvText, outcome <> ResponseOk csvText.

(** The energy of a week is the sum of its two parts. *)
Definition weekConsistent (w : Monthly.WeekEnergy) : Prop :=
  Monthly.totalEnergy w = (Monthly.goodEnergy w + Monthly.badEnergy w)%Z.

(** The good and the bad energy the totals of a month stand for. *)
Definition goodEnergyOfTotals (t : Monthly.Totals) : Z :=
  (Monthly.goodThoughts t * 6 + Monthly.goodWordScore t
   + Monthly.goodActions t * 20 + Monthly.happyEvents t * 10)%Z.

Definition badEnergyOfTotals (t : Monthly.Totals) : Z :=
  (Monthly.badThoughts t * 6 + Monthly.badWordScore t
   + Monthly.badActions t * 20 + Monthly.toughEvents t * 10)%Z.

(** One call of [generateDetailedAdvice], with what the world answers. *)
Record Call : Type := {
  callSummary : option LogSummaryForAdvice;
  callLabel : string;
  callOutcome : FetchOutcome;
  callRng : RandomSource
}.

(** The cache after a series of calls, one after the other. *)
Definition cacheAfter (cache : Cache) (calls : list Call) : Cache :=
  fold_left
    (fun allAdvice call =>
       snd (generateDetailedAdvice (callSummary call) (callLabel call) allAdvice
              (callOutcome call) (callRng call)))
    calls cache.

(* ================================================================== *)
(** * Properties *)

(** ** Facts about the string primitives *)

Section TrimFacts.

Lemma trimEnd_idempotent : forall s, trimEnd (trimEnd s) = trimEnd s.
Proof.
  induction s as [|a rest IH]; [reflexivity|].
  cbn [trimEnd].
  destruct (isWhitespaceChar (String a (trimEnd rest))) eqn:E; [reflexivity|].
  cbn [trimEnd]. rewrite IH, E. reflexivity.
Qed.

(** A string [trimEnd] leaves alone has only tails it leaves alone. *)
Lemma trimEnd_fixed_tail :
  forall a s, trimEnd (String a s) = String a s -> trimEnd s = s.
Proof.
  intros a s H. cbn [trimEnd] in H.
  destruct (isWhitespaceChar (String a (trimEnd s))); [discriminate|].
  now injection H.
Qed.

Variable P : string -> Prop.
Hypothesis P_tail : forall a s, P (String a s) -> P s.

Lemma trimStart_keeps_bounded :
  forall n s, (String.length s <= n)%nat -> P s -> P (trimStart s).
Proof.
  induction n as [|n IH]; intros s Hlen Hs.
  - destruct s; [exact Hs | simpl in Hlen; lia].
  - destruct s as [|a s1]; [exact Hs|].
    cbn [trimStart]. cbn [String.length] in Hlen.
    destruct (whitespace1 a).
    { apply IH; [lia | eauto]. }
    destruct s1 as [|b s2]; [exact Hs|].
    cbn [String.length] in Hlen.
    destruct (whitespace2 a b).
    { apply IH; [lia | eauto]. }
    destruct s2 as [|c s3]; [exact Hs|].
    cbn [String.length] in Hlen.
    destruct (whitespace3 a b c); [|exact Hs].
    apply IH; [lia | eauto].
Qed.

(** Whatever holds of a string and of its tails holds of what
    [trimStart] leaves. *)
Lemma trimStart_keeps : forall s, P s -> P (trimStart s).
Proof. intros s. now apply (trimStart_keeps_bounded (String.length s)). Qed.

End TrimFacts.

Lemma trimStart_idempotent_bounded :
  forall n s, (String.length s <= n)%nat -> trimStart (trimStart s) = trimStart s.
Proof.
  induction n as [|n IH]; intros s Hlen.
  - destruct s; [reflexivity | simpl in Hlen; lia].
  - destruct s as [|a s1]; [reflexivity|].
    cbn [String.length] in Hlen.
    destruct (whitespace1 a) eqn:E1.
    { cbn [trimStart]. rewrite E1. apply IH. lia. }
    destruct s1 as [|b s2].
    { cbn [trimStart]. rewrite E1. cbn [trimStart]. now rewrite E1. }
    cbn [String.length] in Hlen.
    destruct (whitespace2 a b) eqn:E2.
    { cbn [trimStart]. rewrite E1, E2. apply IH. lia. }
    destruct s2 as [|c s3].
    { cbn [trimStart]. rewrite E1, E2. cbn [trimStart]. now rewrite E1, E2. }
    cbn [String.length] in Hlen.
    destruct (whitespace3 a b c) eqn:E3.
    { cbn [trimStart]. rewrite E1, E2, E3. apply IH. lia. }
    cbn [trimStart]. rewrite E1, E2, E3. cbn [trimStart]. now rewrite E1, E2, E3.
Qed.

Lemma trimStart_idempotent : forall s, trimStart (trimStart s) = trimStart s.
Proof. intros s. now apply (trimStart_idempotent_bounded (String.length s)). Qed.

Lemma trim_idempotent : forall s, trim (trim s) = trim s.
Proof.
  intros s. unfold trim.
  assert (H : trimEnd (trimStart (trimEnd s)) = trimStart (trimEnd s)).
  { apply (trimStart_keeps (fun v => trimEnd v = v)).
    - apply trimEnd_fixed_tail.
    - apply trimEnd_idempotent. }
  rewrite H. apply trimStart_idempotent.
Qed.

Lemma Number_trim : forall s, Number (trim s) = Number s.
Proof. intros s. unfold Number. now rewrite trim_idempotent. Qed.

Lemma containsChar_tail :
  forall c a s, containsChar c (String a s) = false -> containsChar c s = false.
Proof. intros c a s H. cbn in H. now apply orb_false_iff in H. Qed.

Lemma trimEnd_without : forall c s, containsChar c s = false -> containsChar c (trimEnd s) = false.
Proof.
  intros c. induction s as [|a rest IH]; intros H; [reflexivity|].
  cbn [trimEnd]. cbn in H. apply orb_false_iff in H as [Ha Hrest].
  destruct (isWhitespaceChar (String a (trimEnd rest))); [reflexivity|].
  cbn. now rewrite Ha, IH.
Qed.

Lemma trim_without : forall c s, containsChar c s = false -> containsChar c (trim s) = false.
Proof.
  intros c s H. unfold trim.
  apply (trimStart_keeps (fun v => containsChar c v = false)).
  - apply containsChar_tail.
  - now apply trimEnd_without.
Qed.

Section SplitFacts.

Variable sep : ascii.

Lemma split_not_nil : forall s, split sep s <> [].
Proof.
  induction s as [|c rest IH]; cbn; [discriminate|].
  destruct (Ascii.eqb c sep); [discriminate|].
  destruct (split sep rest); [contradiction | discriminate].
Qed.

(** Cutting at a separator cuts the list of parts. *)
Lemma split_app :
  forall a b, split sep (a ++ String sep b) = (split sep a ++ split sep b)%list.
Proof.
  induction a as [|c a IH]; intros b; cbn.
  - now rewrite Ascii.eqb_refl.
  - destruct (Ascii.eqb c sep); [now rewrite IH|].
    rewrite IH. destruct (split sep a) eqn:E; [|reflexivity].
    now apply split_not_nil in E.
Qed.

Lemma split_without : forall s, containsChar sep s = false -> split sep s = [s].
Proof.
  induction s as [|c rest IH]; intros H; [reflexivity|].
  cbn in *. apply orb_false_iff in H as [Hc Hrest].
  now rewrite Hc, IH.
Qed.

Lemma split_length_with :
  forall s, containsChar sep s = true -> (2 <= List.length (split sep s))%nat.
Proof.
  induction s as [|c rest IH]; intros H; [discriminate|].
  cbn in *. destruct (Ascii.eqb c sep).
  - cbn. pose proof (split_not_nil rest). destruct (split sep rest); [contradiction|cbn; lia].
  - cbn in H. specialize (IH H). destruct (split sep rest); cbn in *; lia.
Qed.

End SplitFacts.

Lemma containsChar_app_sep :
  forall c a b, containsChar c (a ++ String c b) = true.
Proof.
  intros c a b. induction a as [|d a IH]; cbn.
  - now rewrite Ascii.eqb_refl.
  - rewrite IH. apply orb_true_r.
Qed.

Lemma split_singleton :
  forall sep s x, split sep s = [x] -> x = s.
Proof.
  intros sep. induction s as [|c rest IH]; intros x H; cbn in H.
  - now injection H.
  - destruct (Ascii.eqb c sep).
    + pose proof (split_not_nil sep rest) as Hne.
      destruct (split sep rest); [contradiction | discriminate].
    + destruct (split sep rest) as [|p ps] eqn:E.
      * now apply split_not_nil in E.
      * injection H as <- ->. now rewrite (IH p eq_refl).
Qed.

Lemma split_three :
  forall l o r,
    containsChar " " l = false -> containsChar " " o = false ->
    containsChar " " r = false ->
    split " " (l ++ " " ++ o ++ " " ++ r) = [l; o; r].
Proof.
  intros l o r Hl Ho Hr.
  change (split " " (l ++ String " " (o ++ String " " r)) = [l; o; r]).
  rewrite !split_app, !split_without by assumption. reflexivity.
Qed.

Lemma append_assoc : forall a b c : string, (a ++ b) ++ c = a ++ b ++ c.
Proof.
  induction a as [|x a IH]; intros b c; cbn; [reflexivity | now rewrite IH].
Qed.

Lemma append_nil_r : forall s : string, s ++ "" = s.
Proof. induction s as [|c s IH]; cbn; [reflexivity | now rewrite IH]. Qed.

(** ** The criteria evaluator *)

(** A criteria with a space in it is neither the sentinel nor empty. *)
Lemma spaced_not_trivial :
  forall c, containsChar " " c = true ->
            ((c =? "ALWAYS_MATCH") || (c =? ""))%string = false.
Proof.
  intros c H.
  destruct (c =? "ALWAYS_MATCH")%string eqn:E1.
  { apply String.eqb_eq in E1. subst c. discriminate H. }
  destruct (c =? "")%string eqn:E2; [|reflexivity].
  apply String.eqb_eq in E2. subst c. discriminate H.
Qed.

Lemma own_field_facts :
  forall key field,
    In (key, field) ownFields ->
    trim key = key /\ containsChar " " key = false /\ lookupOwn key = Some field.
Proof.
  intros key field H. unfold ownFields in H. cbn [In] in H.
  repeat (destruct H as [H|H]; [injection H as <- <-; repeat split; reflexivity|]).
  contradiction.
Qed.

Lemma own_field_valid :
  forall summary key field,
    lookupOwn key = Some field ->
    isValidKey summary key = true
    /\ getProperty summary key = VNumber (ofInt (field summary)).
Proof.
  intros summary key field H. unfold isValidKey, hasProperty, getProperty.
  now rewrite H.
Qed.

Lemma symbol_facts :
  forall op, trim (Spec.symbol op) = Spec.symbol op
             /\ containsChar " " (Spec.symbol op) = false.
Proof. intros []; split; reflexivity. Qed.

(** The five comparisons of the evaluator against the order of the exact
    values. *)
Lemma compare_holds :
  forall op x y,
    isNaN y = false ->
    (match op with
     | Spec.Gt => gt
     | Spec.Lt => lt
     | Spec.Ge => ge
     | Spec.Le => le
     | Spec.Eq => looseEq
     end (VNumber (ofInt x)) (VNumber y)) = true
    <-> Spec.holds op x y.
Proof.
  intros op x y Hy.
  destruct y as [|q| |]; [discriminate Hy| | |].
  - destruct op; unfold gt, lt, ge, le, looseEq, isLessThan, Spec.holds;
      cbn [toPrimitive toNumber lessThan ofInt equal isTrue isFalse].
    + destruct (Qle_bool (inject_Z x) q) eqn:E; cbn.
      * apply Qle_bool_iff in E. split; [discriminate|]. intros H.
        exfalso. exact (Qlt_not_le _ _ H E).
      * split; [intros _|reflexivity]. apply Qnot_le_lt. intros H.
        apply Qle_bool_iff in H. congruence.
    + destruct (Qle_bool q (inject_Z x)) eqn:E; cbn.
      * apply Qle_bool_iff in E. split; [discriminate|]. intros H.
        exfalso. exact (Qlt_not_le _ _ H E).
      * split; [intros _|reflexivity]. apply Qnot_le_lt. intros H.
        apply Qle_bool_iff in H. congruence.
    + destruct (Qle_bool q (inject_Z x)) eqn:E; cbn.
      * apply Qle_bool_iff in E. tauto.
      * split; [discriminate|]. intros H. apply Qle_bool_iff in H. congruence.
    + destruct (Qle_bool (inject_Z x) q) eqn:E; cbn.
      * apply Qle_bool_iff in E. tauto.
      * split; [discriminate|]. intros H. apply Qle_bool_iff in H. congruence.
    + apply Qeq_bool_iff.
  - destruct op; cbn; intuition discriminate.
  - destruct op; cbn; intuition discriminate.
Qed.

Lemma holds_ofInt :
  forall op x y, Spec.holds op x (ofInt y) <-> holdsBetween op x y.
Proof.
  intros op x y. unfold Spec.holds, ofInt, holdsBetween.
  destruct op; rewrite ?Zlt_Qlt, ?Zle_Qle; try reflexivity.
  apply inject_Z_injective.
Qed.

(** The evaluator on three parts without spaces, the left one a counter and
    the right one a number. *)
Lemma evaluateCriteria_counter_number :
  forall summary key field op literal,
    In (key, field) ownFields ->
    containsChar " " literal = false ->
    isNaN (Number literal) = false ->
    evaluateCriteria (key ++ " " ++ Spec.symbol op ++ " " ++ literal) summary
    = match op with
      | Spec.Gt => gt
      | Spec.Lt => lt
      | Spec.Ge => ge
      | Spec.Le => le
      | Spec.Eq => looseEq
      end (VNumber (ofInt (field summary))) (VNumber (Number literal)).
Proof.
  intros summary key field op literal Hkey Hlit Hnum.
  destruct (own_field_facts _ _ Hkey) as (Htrim & Hspace & Hown).
  destruct (own_field_valid summary _ _ Hown) as (Hvalid & Hget).
  destruct (symbol_facts op) as (Hop & Hopspace).
  unfold evaluateCriteria.
  rewrite spaced_not_trivial by apply containsChar_app_sep.
  rewrite split_three by assumption.
  cbn [map]. rewrite Htrim, Hop, Hvalid, Hget, Number_trim, Hnum.
  cbn [negb]. destruct op; reflexivity.
Qed.

(** Without exactly three parts around single spaces, nothing matches. *)
Lemma evaluateCriteria_not_three :
  forall c summary,
    ((c =? "ALWAYS_MATCH") || (c =? ""))%string = false ->
    List.length (split " " c) <> 3%nat ->
    evaluateCriteria c summary = false.
Proof.
  intros c summary Htriv Hlen. unfold evaluateCriteria. rewrite Htriv.
  destruct (split " " c) as [|p1 [|p2 [|p3 [|p4 ps]]]]; cbn in *;
    try reflexivity.
  contradiction.
Qed.

Lemma split_length_pos :
  forall sep s, (1 <= List.length (split sep s))%nat.
Proof.
  intros sep s. pose proof (split_not_nil sep s).
  destruct (split sep s); [contradiction | cbn; lia].
Qed.

(** An operator that is none of the five never matches, whatever stands
    around it. *)
Lemma evaluateCriteria_unknown_operator :
  forall summary left operator right,
    ~ In (trim operator) Spec.operators ->
    evaluateCriteria (left ++ " " ++ operator ++ " " ++ right) summary = false.
Proof.
  intros summary l o r Hop.
  pose proof (spaced_not_trivial _ (containsChar_app_sep " " l (o ++ " " ++ r))) as Htriv.
  change (l ++ String " " (o ++ " " ++ r)) with (l ++ " " ++ o ++ " " ++ r) in Htriv.
  destruct (containsChar " " l) eqn:El;
    [|destruct (containsChar " " o) eqn:Eo;
      [|destruct (containsChar " " r) eqn:Er]].
  4: {
    unfold evaluateCriteria. rewrite Htriv, split_three by assumption.
    cbn [map].
    assert (Hne : forall op, In op Spec.operators -> (trim o =? op)%string = false).
    { intros op Hin. apply String.eqb_neq. intros Heq. rewrite Heq in Hop. exact (Hop Hin). }
    destruct (negb (isValidKey summary (trim l))); [reflexivity|].
    destruct (if negb (isNaN (Number (trim r)))
              then Some (VNumber (Number (trim r)))
              else if isValidKey summary (trim r)
                   then Some (getProperty summary (trim r)) else None);
      [|reflexivity].
    rewrite !Hne by (cbn; tauto). reflexivity. }
  all: apply evaluateCriteria_not_three; [exact Htriv|];
    change (l ++ " " ++ o ++ " " ++ r) with (l ++ String " " (o ++ String " " r));
    rewrite !split_app, !length_app;
    pose proof (split_length_pos " " l); pose proof (split_length_pos " " o);
    pose proof (split_length_pos " " r).
  - pose proof (split_length_with " " l El). lia.
  - pose proof (split_length_with " " o Eo). lia.
  - pose proof (split_length_with " " r Er). lia.
Qed.

(** The [switch] returns true only under one of the five operators. *)
Lemma switch_true :
  forall operator leftValue rightValue,
    (if (operator =? ">")%string then gt leftValue rightValue
     else if (operator =? "<")%string then lt leftValue rightValue
     else if (operator =? ">=")%string then ge leftValue rightValue
     else if (operator =? "<=")%string then le leftValue rightValue
     else if (operator =? "==")%string then looseEq leftValue rightValue
     else false) = true ->
    exists op,
      operator = Spec.symbol op
      /\ (match op with
          | Spec.Gt => gt | Spec.Lt => lt | Spec.Ge => ge | Spec.Le => le
          | Spec.Eq => looseEq
          end leftValue rightValue) = true.
Proof.
  intros operator lv rv H.
  destruct (operator =? ">")%string eqn:E1;
    [apply String.eqb_eq in E1; now exists Spec.Gt|].
  destruct (operator =? "<")%string eqn:E2;
    [apply String.eqb_eq in E2; now exists Spec.Lt|].
  destruct (operator =? ">=")%string eqn:E3;
    [apply String.eqb_eq in E3; now exists Spec.Ge|].
  destruct (operator =? "<=")%string eqn:E4;
    [apply String.eqb_eq in E4; now exists Spec.Le|].
  destruct (operator =? "==")%string eqn:E5;
    [apply String.eqb_eq in E5; now exists Spec.Eq|].
  discriminate H.
Qed.

(** C5 at its failing input.  [toString] is none of the eight counters,
    yet [key in summary] finds it on the prototype of the summary object,
    on both sides, and an object is loosely equal to itself. *)
Theorem evaluateCriteria_inherited_key :
  forall summary,
    ~ In "toString" Spec.fieldNames
    /\ isValidKey summary "toString" = true
    /\ evaluateCriteria "toString == toString" summary = true.
Proof.
  intros summary. repeat split.
  cbv. intuition discriminate.
Qed.

(** ** The record selector *)

Lemma floorTimes_below :
  forall u n, (0 < n)%nat -> (floorTimes u n < n)%nat.
Proof.
  intros u n Hn. unfold floorTimes.
  assert (H : (numerator u * N.of_nat n) / N.pos (denominator u) < N.of_nat n).
  { apply N.Div0.div_lt_upper_bound.
    pose proof (below_one u) as Hu.
    apply N.mul_lt_mono_pos_r; [lia | exact Hu]. }
  lia.
Qed.

(** A random pick in a list that is not empty is one of its elements. *)
Lemma pickRandom_member :
  forall (T : Type) (arr : list T) rng,
    arr <> [] -> exists x, fst (pickRandom arr rng) = Some x /\ In x arr.
Proof.
  intros T arr rng Hne. unfold pickRandom. cbn.
  assert (Hlt : (floorTimes (rng 0%nat) (List.length arr) < List.length arr)%nat).
  { apply floorTimes_below. destruct arr; [contradiction | cbn; lia]. }
  destruct (nth_error arr (floorTimes (rng 0%nat) (List.length arr))) as [x|] eqn:E.
  - exists x. split; [reflexivity|]. eapply nth_error_In; eauto.
  - apply nth_error_Some in Hlt. contradiction.
Qed.

Lemma findAndPick_suitable :
  forall records summary type_ subtype_ rng,
    match fst (findAndPick records summary type_ subtype_ rng) with
    | Some item => In item (suitable records summary type_ subtype_)
    | None => suitable records summary type_ subtype_ = []
    end.
Proof.
  intros records summary type_ subtype_ rng. unfold findAndPick.
  destruct (suitable records summary type_ subtype_) as [|x xs] eqn:E.
  - reflexivity.
  - cbn [List.length Nat.ltb Nat.leb].
    destruct (pickRandom_member _ (x :: xs) rng) as (y & Hy & Hin); [discriminate|].
    now rewrite Hy.
Qed.

Lemma suitable_eligible :
  forall records summary type_ subtype_ item,
    In item (suitable records summary type_ subtype_)
    <-> Spec.eligible records summary type_ (given subtype_) item.
Proof.
  intros records summary type_ subtype_ item.
  unfold suitable, Spec.eligible.
  destruct (given subtype_) as [st|]; rewrite !filter_In, ?String.eqb_eq.
  - split.
    + intros [[[H1 H2] H3] H4]. repeat split; try assumption.
      intros st' Hst. now injection Hst as <-.
    + intros (H1 & H2 & H3 & H4). repeat split; try assumption. now apply H3.
  - split.
    + intros [[H1 H2] H4]. repeat split; try assumption. discriminate.
    + intros (H1 & H2 & H3 & H4). now repeat split.
Qed.

(** C1.  For every record set, summary, type, subtype and random outcome,
    [findAndPick] never returns a record whose criteria evaluates false:
    what it returns is a record of the set with exactly the given type,
    with exactly the given subtype when one is given, and whose criteria
    evaluates true; and it returns null exactly when no record of the set
    is such.  The subtype is the one of a call of the closure: none, or a
    string that is not empty.  The composer passes a literal, the period
    type, which is never empty, or [growthSubtype] under the guard
    [if (growthSubtype)], which lets no empty string through. *)
Theorem findAndPick_eligible :
  (forall records summary type_ subtype_ rng,
      subtype_ <> Some EmptyString ->
      (forall item,
          fst (findAndPick records summary type_ subtype_ rng) = Some item ->
          Spec.eligible records summary type_ subtype_ item)
      /\ (fst (findAndPick records summary type_ subtype_ rng) = None
          <-> forall item, ~ Spec.eligible records summary type_ subtype_ item))
  /\ (forall periodLabel, Some (periodType periodLabel) <> Some EmptyString)
  /\ (forall growthSubtype st,
         given growthSubtype = Some st -> Some st <> Some EmptyString).
Proof.
  split; [|split].
  - intros records summary type_ subtype_ rng Hgiven.
    assert (Hsame : given subtype_ = subtype_).
    { destruct subtype_ as [[|c s]|]; [contradiction | reflexivity | reflexivity]. }
    pose proof (findAndPick_suitable records summary type_ subtype_ rng) as H.
    pose proof (suitable_eligible records summary type_ subtype_) as Hel.
    rewrite Hsame in Hel.
    destruct (fst (findAndPick records summary type_ subtype_ rng)) as [picked|].
    + split.
      * intros item Heq. injection Heq as <-. now apply Hel.
      * split; [discriminate|]. intros Hnone. exfalso.
        apply (Hnone picked). now apply Hel.
    + split; [discriminate|]. split; [|reflexivity].
      intros _ item Hitem. apply Hel in Hitem. now rewrite H in Hitem.
  - intros periodLabel. unfold periodType.
    destruct (includes periodLabel "주"); [discriminate|].
    destruct (includes periodLabel "월"); discriminate.
  - intros [[|c s]|] st H; cbn in H; try discriminate H.
    injection H as <-. discriminate.
Qed.

Lemma findAndPick_eligible_witness :
  Some "x" <> Some EmptyString
  /\ fst (findAndPick [Sample.strengthBalance; Sample.tipX] Sample.summary "tip"
            (Some "x") Sample.rng) = Some Sample.tipX
  /\ Spec.eligible [Sample.strengthBalance; Sample.tipX] Sample.summary "tip"
       (Some "x") Sample.tipX.
Proof.
  assert (H1 : Some "x" <> Some EmptyString) by discriminate.
  assert (H2 : fst (findAndPick [Sample.strengthBalance; Sample.tipX] Sample.summary
                      "tip" (Some "x") Sample.rng) = Some Sample.tipX) by reflexivity.
  refine (conj H1 (conj H2 _)).
  exact (proj1 (proj1 findAndPick_eligible _ _ _ _ _ H1) _ H2).
Defined.

Lemma suitable_incl :
  forall records summary type_ subtype_,
    incl (suitable records summary type_ subtype_)
         (suitable records summary type_ None).
Proof.
  intros records summary type_ subtype_ item Hin.
  apply suitable_eligible in Hin. apply suitable_eligible.
  destruct Hin as (H1 & H2 & _ & H4). repeat split; try assumption.
  discriminate.
Qed.

(** Without a suitable record of a type, no subtype of it is picked, and no
    random value is drawn. *)
Lemma findAndPick_none :
  forall records summary type_ subtype_ rng,
    suitable records summary type_ None = [] ->
    findAndPick records summary type_ subtype_ rng = (None, rng).
Proof.
  intros records summary type_ subtype_ rng Hempty. unfold findAndPick.
  pose proof (suitable_incl records summary type_ subtype_) as Hsub.
  rewrite Hempty in Hsub.
  destruct (suitable records summary type_ subtype_) as [|x xs]; [reflexivity|].
  destruct (Hsub x (or_introl eq_refl)).
Qed.

(** The strength entry, without the branch that never finds a record. *)
Lemma strengthEntry_two_cases :
  forall records summary rng,
    strengthEntry records summary rng
    = match findAndPick records summary "strength" None rng with
      | (Some item, rng1) => ("1. " ++ text item ++ LF ++ LF, rng1)
      | (None, rng1) => (STRENGTH_ENCOURAGEMENT, rng1)
      end.
Proof.
  intros records summary rng. unfold strengthEntry.
  pose proof (findAndPick_suitable records summary "strength" None rng) as Hs.
  destruct (findAndPick records summary "strength" None rng) as [[item|] rng1] eqn:E;
    [reflexivity|].
  cbn [fst] in Hs. now rewrite (findAndPick_none records summary _ (Some "balance") rng1 Hs).
Qed.

(** C10.  A subtype filter only narrows the list the pick is made from; so
    when [findAndPick('strength')] finds nothing,
    [findAndPick('strength', 'balance')] finds nothing either, whatever the
    random values, and the strength entry is the picked record when there
    is one and the fixed encouragement otherwise. *)
Theorem subtype_filter_narrows :
  (forall records summary type_ subtype_,
      incl (suitable records summary type_ subtype_)
           (suitable records summary type_ None))
  /\ (forall records summary rng rng',
         fst (findAndPick records summary "strength" None rng) = None ->
         fst (findAndPick records summary "strength" (Some "balance") rng') = None)
  /\ (forall records summary rng,
         strengthEntry records summary rng
         = match findAndPick records summary "strength" None rng with
           | (Some item, rng1) => ("1. " ++ text item ++ LF ++ LF, rng1)
           | (None, rng1) => (STRENGTH_ENCOURAGEMENT, rng1)
           end).
Proof.
  split; [exact suitable_incl|]. split; [|exact strengthEntry_two_cases].
  intros records summary rng rng' H.
  pose proof (findAndPick_suitable records summary "strength" None rng) as Hs.
  rewrite H in Hs. now rewrite findAndPick_none.
Qed.

Lemma subtype_filter_narrows_witness :
  fst (findAndPick [Sample.tipX] Sample.summary "strength" None Sample.rng) = None
  /\ fst (findAndPick [Sample.tipX] Sample.summary "strength" (Some "balance") Sample.rng)
     = None.
Proof.
  assert (H : fst (findAndPick [Sample.tipX] Sample.summary "strength" None Sample.rng)
              = None) by reflexivity.
  refine (conj H _).
  exact (proj1 (proj2 subtype_filter_narrows) _ _ _ Sample.rng H).
Defined.

(** ** The loader *)

Lemma cleanField_trim :
  forall current, containsChar quoteChar current = false -> cleanField (trim current).
Proof.
  intros current H. split; [now apply trim_without | apply trim_idempotent].
Qed.

Lemma containsChar_snoc :
  forall c s d,
    containsChar c s = false -> Ascii.eqb d c = false ->
    containsChar c (s ++ String d EmptyString) = false.
Proof.
  intros c s d Hs Hd. induction s as [|a s IH]; cbn in *.
  - now rewrite Hd.
  - apply orb_false_iff in Hs as [Ha Hs]. now rewrite Ha, IH.
Qed.

Lemma parseCsvRowLoop_clean :
  forall row result current inQuotes,
    Forall cleanField result ->
    containsChar quoteChar current = false ->
    Forall cleanField (parseCsvRowLoop row result current inQuotes).
Proof.
  induction row as [|char rest IH]; intros result current inQuotes Hres Hcur;
    cbn [parseCsvRowLoop].
  - apply Forall_app. split; [exact Hres|].
    constructor; [now apply cleanField_trim | constructor].
  - destruct (Ascii.eqb char quoteChar) eqn:Equote; [now apply IH|].
    destruct (Ascii.eqb char "," && negb inQuotes).
    + apply IH; [|reflexivity].
      apply Forall_app. split; [exact Hres|].
      constructor; [now apply cleanField_trim | constructor].
    + apply IH; [exact Hres|]. now apply containsChar_snoc.
Qed.

Lemma dropLastQuote_without :
  forall s, containsChar quoteChar s = false -> dropLastQuote s = s.
Proof.
  induction s as [|c rest IH]; intros H; [reflexivity|].
  cbn [containsChar] in H. apply orb_false_iff in H as [Hc Hrest].
  destruct rest as [|d rest'].
  - cbn [dropLastQuote]. now rewrite Hc.
  - change (String c (dropLastQuote (String d rest')) = String c (String d rest')).
    now rewrite (IH Hrest).
Qed.

Lemma stripQuotes_without :
  forall s, containsChar quoteChar s = false -> stripQuotes s = s.
Proof.
  intros [|c rest] H; [reflexivity|].
  pose proof H as H'. cbn [containsChar] in H'. apply orb_false_iff in H' as [Hc _].
  unfold stripQuotes. rewrite Hc. now apply dropLastQuote_without.
Qed.

Lemma parseCsvRow_clean : forall row, Forall cleanField (parseCsvRow row).
Proof.
  intros row. unfold parseCsvRow.
  pose proof (parseCsvRowLoop_clean row [] EmptyString false (Forall_nil _) eq_refl) as H.
  induction H as [|f fs Hf _ IH]; cbn [map]; constructor; [|exact IH].
  destruct Hf as [Hq Ht]. now rewrite stripQuotes_without.
Qed.

Lemma present_not_empty :
  forall s, present (Some s) = true -> s <> EmptyString.
Proof. intros [|c s] H; [discriminate H | discriminate]. Qed.

Lemma parseAdviceRow_complete :
  forall row item, parseAdviceRow row = Some item -> Spec.complete item.
Proof.
  intros row item H. unfold parseAdviceRow in H.
  destruct (trim row =? "")%string; [discriminate|].
  pose proof (parseCsvRow_clean row) as Hclean.
  destruct (nth_error (parseCsvRow row) 0) as [t|]; [|discriminate].
  destruct (nth_error (parseCsvRow row) 1) as [st|]; [|discriminate].
  destruct (nth_error (parseCsvRow row) 2) as [tx|]; [|discriminate].
  destruct (nth_error (parseCsvRow row) 3) as [cr|] eqn:Ecr; [|discriminate].
  destruct (present (Some t)) eqn:Pt; [|discriminate].
  destruct (present (Some st)) eqn:Pst; [|discriminate].
  destruct (present (Some tx)) eqn:Ptx; [|discriminate].
  destruct (present (Some cr)) eqn:Pcr; [|discriminate].
  injection H as <-. unfold Spec.complete. cbn.
  apply nth_error_In in Ecr.
  rewrite Forall_forall in Hclean. destruct (Hclean _ Ecr) as [_ Htrim].
  rewrite Htrim. repeat split; now apply present_not_empty.
Qed.

Lemma parseAdviceRows_flat_map :
  forall rows parsedAdvice,
    parseAdviceRows rows parsedAdvice = (parsedAdvice ++ flat_map rowRecords rows)%list.
Proof.
  induction rows as [|row rest IH]; intros acc; cbn [parseAdviceRows flat_map].
  - now rewrite app_nil_r.
  - unfold rowRecords at 1. destruct (parseAdviceRow row) as [item|].
    + rewrite IH, <- app_assoc. reflexivity.
    + apply IH.
Qed.

Lemma parseAdviceRow_missing :
  forall row i,
    (i < 4)%nat -> present (nth_error (parseCsvRow row) i) = false ->
    parseAdviceRow row = None.
Proof.
  intros row i Hi Hmiss. unfold parseAdviceRow.
  destruct (trim row =? "")%string; [reflexivity|].
  destruct (nth_error (parseCsvRow row) 0) as [t|] eqn:E0;
    [|reflexivity].
  destruct (nth_error (parseCsvRow row) 1) as [st|] eqn:E1;
    [|reflexivity].
  destruct (nth_error (parseCsvRow row) 2) as [tx|] eqn:E2;
    [|reflexivity].
  destruct (nth_error (parseCsvRow row) 3) as [cr|] eqn:E3;
    [|reflexivity].
  destruct i as [|[|[|[|i]]]]; [| | | |lia];
    rewrite ?E0, ?E1, ?E2, ?E3 in Hmiss; rewrite Hmiss;
    rewrite ?andb_false_r; reflexivity.
Qed.

(** C9.  A load that succeeds caches the records of the rows after the
    header, in order, one for each row that has them; every cached record
    has a non-empty type, subtype, text and criteria; and a row in which one
    of the four fields is missing or empty (the criteria, say) adds no
    record. *)
Theorem loaded_records_complete :
  forall csvText,
    fetchAndParseAdviceData None (ResponseOk csvText)
    = (Normal tt, Some (parseAdviceCsv csvText))
    /\ parseAdviceCsv csvText = flat_map rowRecords (tl (splitLines csvText))
    /\ Forall Spec.complete (parseAdviceCsv csvText)
    /\ (forall row i,
           (i < 4)%nat -> present (nth_error (parseCsvRow row) i) = false ->
           rowRecords row = []).
Proof.
  intros csvText. split; [reflexivity|].
  assert (E : parseAdviceCsv csvText = flat_map rowRecords (tl (splitLines csvText))).
  { unfold parseAdviceCsv. now rewrite parseAdviceRows_flat_map. }
  split; [exact E|]. split.
  - rewrite E. apply Forall_forall. intros item Hin.
    apply in_flat_map in Hin as (row & _ & Hrow).
    unfold rowRecords in Hrow.
    destruct (parseAdviceRow row) as [item'|] eqn:Er; [|contradiction].
    destruct Hrow as [<-|[]]. now apply (parseAdviceRow_complete row).
  - intros row i Hi Hmiss. unfold rowRecords.
    now rewrite (parseAdviceRow_missing row i Hi Hmiss).
Qed.

Lemma loaded_records_complete_witness :
  parseAdviceCsv Sample.sheet = [Sample.strengthBalance; Sample.tipX]
  /\ present (nth_error (parseCsvRow "tip,x,Breathe.") 3) = false
  /\ rowRecords "tip,x,Breathe." = []
  /\ Forall Spec.complete (parseAdviceCsv Sample.sheet).
Proof.
  assert (H1 : parseAdviceCsv Sample.sheet = [Sample.strengthBalance; Sample.tipX])
    by reflexivity.
  assert (H2 : present (nth_error (parseCsvRow "tip,x,Breathe.") 3) = false)
    by reflexivity.
  assert (H3 : (3 < 4)%nat) by lia.
  refine (conj H1 (conj H2 (conj _ _))).
  - exact (proj2 (proj2 (proj2 (loaded_records_complete Sample.sheet))) _ 3%nat H3 H2).
  - exact (proj1 (proj2 (proj2 (loaded_records_complete Sample.sheet)))).
Defined.

(** ** The criteria of the loaded records *)

(** *** White space, byte by byte *)

Lemma whitespace1_bytes :
  forall a, whitespace1 a = true -> byte a < 128.
Proof.
  intros a H. unfold whitespace1 in H. cbv zeta in H.
  rewrite orb_true_iff, andb_true_iff, !N.leb_le, N.eqb_eq in H. lia.
Qed.

Lemma whitespace2_bytes :
  forall a b, whitespace2 a b = true -> byte a = 194 /\ byte b = 160.
Proof.
  intros a b H. unfold whitespace2 in H.
  rewrite andb_true_iff, !N.eqb_eq in H. exact H.
Qed.

Lemma whitespace3_bytes :
  forall a b c,
    whitespace3 a b c = true ->
    225 <= byte a /\ 128 <= byte b /\ byte b <> 194 /\ 128 <= byte c.
Proof.
  intros a b c H. unfold whitespace3 in H. cbv zeta in H.
  repeat rewrite ?orb_true_iff, ?andb_true_iff, ?N.leb_le, ?N.eqb_eq in H. lia.
Qed.

Lemma whitespace1_high : forall a, 128 <= byte a -> whitespace1 a = false.
Proof.
  intros a H. destruct (whitespace1 a) eqn:E; [|reflexivity].
  apply whitespace1_bytes in E. lia.
Qed.

Lemma whitespace2_not_lead : forall a b, byte a <> 194 -> whitespace2 a b = false.
Proof.
  intros a b H. destruct (whitespace2 a b) eqn:E; [|reflexivity].
  apply whitespace2_bytes in E. tauto.
Qed.

Lemma whitespace3_low : forall a b c, byte a < 225 -> whitespace3 a b c = false.
Proof.
  intros a b c H. destruct (whitespace3 a b c) eqn:E; [|reflexivity].
  apply whitespace3_bytes in E. lia.
Qed.

Lemma plainChar_bytes :
  forall a, plainChar a = true -> whitespace1 a = false /\ byte a < 128.
Proof.
  intros a H. unfold plainChar in H.
  apply andb_true_iff in H as [H1 H2]. apply negb_true_iff in H1.
  apply N.ltb_lt in H2. now split.
Qed.

Lemma whitespaceAt_plain :
  forall a s, plainChar a = true -> Spec.whitespaceAt (String a s) = 0%nat.
Proof.
  intros a s H. apply plainChar_bytes in H as [H1 H2].
  unfold Spec.whitespaceAt. rewrite H1.
  destruct s as [|b [|c s]]; [reflexivity| |].
  - rewrite whitespace2_not_lead by lia. reflexivity.
  - rewrite whitespace2_not_lead, whitespace3_low by lia. reflexivity.
Qed.

(** The shapes of a white-space character. *)
Lemma isWhitespaceChar_cases :
  forall w,
    isWhitespaceChar w = true ->
    (exists a, w = String a "" /\ whitespace1 a = true)
    \/ (exists a b, w = String a (String b "") /\ whitespace2 a b = true)
    \/ (exists a b c, w = String a (String b (String c "")) /\ whitespace3 a b c = true).
Proof.
  intros [|a [|b [|c [|d w]]]] H; cbn in H; try discriminate H.
  - left. now exists a.
  - right. left. now exists a, b.
  - right. right. now exists a, b, c.
Qed.

Lemma whitespaceAt_char :
  forall w s,
    isWhitespaceChar w = true ->
    Spec.whitespaceAt (w ++ s) = String.length w.
Proof.
  intros w s H.
  destruct (isWhitespaceChar_cases w H)
    as [(a & -> & Ha)|[(a & b & -> & Hab)|(a & b & c & -> & Habc)]].
  - cbn [append String.length]. unfold Spec.whitespaceAt. rewrite Ha.
    now destruct s as [|b [|c s]].
  - cbn [append String.length]. unfold Spec.whitespaceAt.
    destruct (whitespace2_bytes a b Hab) as [Ea Eb].
    rewrite whitespace1_high by lia. rewrite Hab.
    now destruct s.
  - cbn [append String.length]. unfold Spec.whitespaceAt.
    destruct (whitespace3_bytes a b c Habc) as (Ea & Eb & Eb' & Ec).
    rewrite whitespace1_high by lia.
    rewrite whitespace2_not_lead by lia. now rewrite Habc.
Qed.

(** *** The pieces between white-space characters *)

Lemma whitespacePieces_inside :
  forall u s, Spec.whitespacePieces (u ++ s) (String.length u) = Spec.whitespacePieces s 0.
Proof.
  induction u as [|c u IH]; intros s; [reflexivity|].
  cbn [append String.length Spec.whitespacePieces]. apply IH.
Qed.

Lemma whitespacePieces_char :
  forall w s,
    isWhitespaceChar w = true ->
    Spec.whitespacePieces (w ++ s) 0 = EmptyString :: Spec.whitespacePieces s 0.
Proof.
  intros w s H. pose proof (whitespaceAt_char w s H) as Hat.
  destruct w as [|a w]; [discriminate H|].
  cbn [append] in *. cbn [Spec.whitespacePieces]. rewrite Hat.
  cbn [String.length]. now rewrite whitespacePieces_inside.
Qed.

Lemma whitespacePieces_plain :
  forall t s h tl,
    plain t = true ->
    Spec.whitespacePieces s 0 = h :: tl ->
    Spec.whitespacePieces (t ++ s) 0 = (t ++ h) :: tl.
Proof.
  induction t as [|a t IH]; intros s h tl Ht Hs; [exact Hs|].
  cbn [plain] in Ht. apply andb_true_iff in Ht as [Ha Ht].
  cbn [append Spec.whitespacePieces].
  rewrite (whitespaceAt_plain a (t ++ s) Ha).
  now rewrite (IH s h tl Ht Hs).
Qed.

(** *** The tokens of a string with known white space *)

Lemma whitespaceTokens_char :
  forall w s,
    isWhitespaceChar w = true ->
    Spec.whitespaceTokens (w ++ s) = Spec.whitespaceTokens s.
Proof.
  intros w s H. unfold Spec.whitespaceTokens.
  now rewrite whitespacePieces_char.
Qed.

Lemma whitespaceTokens_blank :
  forall b s, blank b -> Spec.whitespaceTokens (b ++ s) = Spec.whitespaceTokens s.
Proof.
  intros b s H. induction H as [|w b Hw Hb IH]; [reflexivity|].
  rewrite append_assoc, whitespaceTokens_char by assumption. exact IH.
Qed.

Lemma whitespaceTokens_plain_char :
  forall t w s,
    plain t = true -> t <> EmptyString -> isWhitespaceChar w = true ->
    Spec.whitespaceTokens (t ++ w ++ s) = t :: Spec.whitespaceTokens s.
Proof.
  intros t w s Ht Hne Hw. unfold Spec.whitespaceTokens.
  rewrite (whitespacePieces_plain t (w ++ s) EmptyString (Spec.whitespacePieces s 0) Ht)
    by now apply whitespacePieces_char.
  rewrite append_nil_r. cbn [filter].
  destruct (t =? "")%string eqn:E; [|reflexivity].
  now apply String.eqb_eq in E.
Qed.

Lemma whitespaceTokens_plain_blank :
  forall t b w s,
    plain t = true -> t <> EmptyString -> blank b -> isWhitespaceChar w = true ->
    Spec.whitespaceTokens (t ++ b ++ w ++ s) = t :: Spec.whitespaceTokens s.
Proof.
  intros t b w s Ht Hne Hb Hw. destruct Hb as [|w' b' Hw' Hb'].
  - exact (whitespaceTokens_plain_char t w s Ht Hne Hw).
  - rewrite (append_assoc w' b'), whitespaceTokens_plain_char by assumption.
    rewrite whitespaceTokens_blank by assumption.
    now rewrite whitespaceTokens_char.
Qed.

Lemma whitespaceTokens_plain_end :
  forall t b,
    plain t = true -> t <> EmptyString -> blank b ->
    Spec.whitespaceTokens (t ++ b) = [t].
Proof.
  intros t b Ht Hne Hb. destruct Hb as [|w b Hw Hb].
  - rewrite append_nil_r. unfold Spec.whitespaceTokens.
    rewrite <- (append_nil_r t) at 1.
    rewrite (whitespacePieces_plain t EmptyString EmptyString [] Ht eq_refl).
    rewrite append_nil_r. cbn [filter].
    destruct (t =? "")%string eqn:E; [|reflexivity].
    now apply String.eqb_eq in E.
  - rewrite whitespaceTokens_plain_char by assumption.
    rewrite <- (append_nil_r b), whitespaceTokens_blank by assumption. reflexivity.
Qed.

(** *** What trimming cuts off *)

Lemma trimEnd_cut : forall s, exists b, blank b /\ s = trimEnd s ++ b.
Proof.
  induction s as [|a rest (b & Hb & IH)].
  - exists EmptyString. split; [constructor | reflexivity].
  - cbn [trimEnd].
    destruct (isWhitespaceChar (String a (trimEnd rest))) eqn:E.
    + exists (String a (trimEnd rest) ++ b). split.
      * now constructor.
      * cbn [append]. now rewrite <- IH.
    + exists b. split; [exact Hb|]. cbn [append]. now rewrite <- IH.
Qed.

Lemma trimStart_cut_bounded :
  forall n s, (String.length s <= n)%nat -> exists b, blank b /\ s = b ++ trimStart s.
Proof.
  induction n as [|n IH]; intros s Hlen.
  - destruct s; [|simpl in Hlen; lia].
    exists EmptyString. split; [constructor | reflexivity].
  - assert (Hstay : exists b, blank b /\ s = b ++ s).
    { exists EmptyString. split; [constructor | reflexivity]. }
    destruct s as [|a s1]; [exact Hstay|].
    cbn [trimStart]. cbn [String.length] in Hlen.
    destruct (whitespace1 a) eqn:E1.
    { destruct (IH s1) as (b & Hb & Hs); [lia|].
      exists (String a "" ++ b). split; [now constructor|].
      cbn [append]. now rewrite <- Hs. }
    destruct s1 as [|b0 s2]; [exact Hstay|].
    cbn [String.length] in Hlen.
    destruct (whitespace2 a b0) eqn:E2.
    { destruct (IH s2) as (b & Hb & Hs); [lia|].
      exists (String a (String b0 "") ++ b). split; [now constructor|].
      cbn [append]. now rewrite <- Hs. }
    destruct s2 as [|c s3]; [exact Hstay|].
    cbn [String.length] in Hlen.
    destruct (whitespace3 a b0 c) eqn:E3; [|exact Hstay].
    destruct (IH s3) as (b & Hb & Hs); [lia|].
    exists (String a (String b0 (String c "")) ++ b). split; [now constructor|].
    cbn [append]. now rewrite <- Hs.
Qed.

(** A string is what [trim] leaves of it, between two runs of white space. *)
Lemma trim_cut :
  forall s, exists b1 b2, blank b1 /\ blank b2 /\ s = b1 ++ trim s ++ b2.
Proof.
  intros s. destruct (trimEnd_cut s) as (b2 & Hb2 & H2).
  destruct (trimStart_cut_bounded _ (trimEnd s) (Nat.le_refl _)) as (b1 & Hb1 & H1).
  exists b1, b2. split; [exact Hb1|]. split; [exact Hb2|].
  unfold trim. rewrite <- append_assoc, <- H1. exact H2.
Qed.

Lemma trimEnd_length : forall s, (String.length (trimEnd s) <= String.length s)%nat.
Proof.
  induction s as [|a rest IH]; [apply Nat.le_refl|].
  cbn [trimEnd]. destruct (isWhitespaceChar (String a (trimEnd rest))); cbn; lia.
Qed.

Lemma trimEnd_app_blank :
  forall x b, trimEnd b = EmptyString -> trimEnd (x ++ b) = trimEnd x.
Proof.
  induction x as [|a x IH]; intros b Hb; [exact Hb|].
  cbn [append trimEnd]. now rewrite IH.
Qed.

Lemma trimEnd_char : forall w, isWhitespaceChar w = true -> trimEnd w = EmptyString.
Proof.
  intros w H.
  destruct (isWhitespaceChar_cases w H)
    as [(a & -> & Ha)|[(a & b & -> & Hab)|(a & b & c & -> & Habc)]].
  - cbn. now rewrite Ha.
  - destruct (whitespace2_bytes a b Hab) as [Ea Eb].
    cbn. rewrite whitespace1_high by lia. now rewrite Hab.
  - destruct (whitespace3_bytes a b c Habc) as (Ea & Eb & Eb' & Ec).
    cbn. rewrite (whitespace1_high c) by lia.
    rewrite whitespace2_not_lead by lia. now rewrite Habc.
Qed.

Lemma trimEnd_blank : forall b, blank b -> trimEnd b = EmptyString.
Proof.
  intros b H. induction H as [|w b Hw Hb IH]; [reflexivity|].
  rewrite trimEnd_app_blank by exact IH. now apply trimEnd_char.
Qed.

Lemma trimEnd_trim : forall s, trimEnd (trim s) = trim s.
Proof.
  intros s. unfold trim.
  apply (trimStart_keeps (fun v => trimEnd v = v)).
  - apply trimEnd_fixed_tail.
  - apply trimEnd_idempotent.
Qed.

Lemma length_append :
  forall a b, String.length (a ++ b) = (String.length a + String.length b)%nat.
Proof. induction a as [|c a IH]; intros b; cbn; [reflexivity | now rewrite IH]. Qed.

(** A trimmed string does not end with white space. *)
Lemma trimmed_end :
  forall x b, trim (x ++ b) = x ++ b -> blank b -> b = EmptyString.
Proof.
  intros x b Htrim Hb.
  assert (H : trimEnd (x ++ b) = x ++ b) by (rewrite <- Htrim; apply trimEnd_trim).
  rewrite trimEnd_app_blank in H by now apply trimEnd_blank.
  pose proof (trimEnd_length x) as Hlen. rewrite H, length_append in Hlen.
  destruct b; [reflexivity | cbn in Hlen; lia].
Qed.

(** *** The characters of a numeric literal *)

Lemma plain_app : forall a b, plain (a ++ b) = plain a && plain b.
Proof.
  induction a as [|c a IH]; intros b; [reflexivity|].
  cbn [append plain]. now rewrite IH, andb_assoc.
Qed.

Lemma digit_plain :
  forall base c d, digit base c = Some d -> plainChar c = true.
Proof.
  intros base c d H. unfold digit in H. cbv zeta in H.
  unfold plainChar, whitespace1. cbv zeta.
  destruct ((48 <=? byte c) && (byte c <=? 57)) eqn:E1.
  { apply andb_true_iff in E1 as [H1 H2]. apply N.leb_le in H1, H2.
    apply andb_true_iff. split; [|apply N.ltb_lt; lia].
    apply negb_true_iff, orb_false_iff. split.
    - apply andb_false_iff. right. apply N.leb_gt. lia.
    - apply N.eqb_neq. lia. }
  destruct ((97 <=? byte c) && (byte c <=? 102)) eqn:E2.
  { apply andb_true_iff in E2 as [H1 H2]. apply N.leb_le in H1, H2.
    apply andb_true_iff. split; [|apply N.ltb_lt; lia].
    apply negb_true_iff, orb_false_iff. split.
    - apply andb_false_iff. right. apply N.leb_gt. lia.
    - apply N.eqb_neq. lia. }
  destruct ((65 <=? byte c) && (byte c <=? 70)) eqn:E3; [|discriminate H].
  apply andb_true_iff in E3 as [H1 H2]. apply N.leb_le in H1, H2.
  apply andb_true_iff. split; [|apply N.ltb_lt; lia].
  apply negb_true_iff, orb_false_iff. split.
  - apply andb_false_iff. right. apply N.leb_gt. lia.
  - apply N.eqb_neq. lia.
Qed.

(** [readDigits] cuts a run of plain characters off the string. *)
Lemma readDigits_plain :
  forall base s acc count v n rest,
    readDigits base s acc count = (v, n, rest) ->
    exists ds, s = ds ++ rest /\ plain ds = true.
Proof.
  intros base. induction s as [|c s IH]; intros acc count v n rest H.
  - cbn in H. injection H as _ _ <-. now exists EmptyString.
  - cbn [readDigits] in H. destruct (digit base c) as [d|] eqn:Ed.
    + apply IH in H as (ds & -> & Hds).
      exists (String c ds). split; [reflexivity|].
      cbn [plain]. now rewrite (digit_plain _ _ _ Ed).
    + injection H as _ _ <-. now exists EmptyString.
Qed.

Lemma readDigits_all_plain :
  forall base s v n,
    readDigits base s 0 0 = (v, n, EmptyString) -> plain s = true.
Proof.
  intros base s v n H. apply readDigits_plain in H as (ds & -> & Hds).
  now rewrite append_nil_r.
Qed.

Lemma toBinary64_number : forall q, isNaN (toBinary64 q) = false.
Proof.
  intros q. unfold toBinary64. cbv zeta.
  destruct (Qnum q <=? 0)%Z; [reflexivity|].
  destruct (shiftBy _ _ _) as [a b].
  destruct (0 <=? _)%Z; [|reflexivity].
  now destruct (2 ^ 1024 <=? _)%Z.
Qed.

Lemma parseRadix_plain :
  forall base ds, isNaN (parseRadix base ds) = false -> plain ds = true.
Proof.
  intros base ds H. unfold parseRadix in H.
  destruct (readDigits base ds 0 0) as [[v n] rest] eqn:E.
  destruct n as [|n]; [discriminate H|].
  destruct rest; [|discriminate H].
  now apply readDigits_all_plain in E.
Qed.

Lemma parseExponent_plain :
  forall s e, parseExponent s = Some e -> plain s = true.
Proof.
  intros s e H. unfold parseExponent in H.
  assert (Hds : forall ds,
             match readDigits 10 ds 0 0 with
             | (v, S _, EmptyString) => Some v
             | _ => None
             end <> None -> plain ds = true).
  { intros ds Hne. destruct (readDigits 10 ds 0 0) as [[v n] rest] eqn:E.
    destruct n as [|n]; [contradiction|]. destruct rest; [|contradiction].
    now apply readDigits_all_plain in E. }
  destruct s as [|c r].
  - reflexivity.
  - destruct (Ascii.eqb c "+") eqn:Ep.
    { apply Ascii.eqb_eq in Ep. subst c. cbn [plain].
      replace (plainChar "+") with true by reflexivity. cbn [andb].
      apply Hds. destruct (readDigits 10 r 0 0) as [[v [|n]] [|x rest]];
        try discriminate H; discriminate. }
    destruct (Ascii.eqb c "-") eqn:Em.
    { apply Ascii.eqb_eq in Em. subst c. cbn [plain].
      replace (plainChar "-") with true by reflexivity. cbn [andb].
      apply Hds. destruct (readDigits 10 r 0 0) as [[v [|n]] [|x rest]];
        try discriminate H; discriminate. }
    apply Hds.
    revert H.
    destruct c as [[] [] [] [] [] [] [] []]; try discriminate Ep; try discriminate Em;
      intros H; destruct (readDigits 10 _ 0 0) as [[v [|n]] [|x rest]];
      try discriminate H; discriminate.
Qed.

Lemma plain_cons : forall c s, plain (String c s) = plainChar c && plain s.
Proof. reflexivity. Qed.

Lemma parseUnsignedDecimal_plain :
  forall s, isNaN (parseUnsignedDecimal s) = false -> plain s = true.
Proof.
  intros s H. unfold parseUnsignedDecimal in H.
  destruct (s =? "Infinity")%string eqn:Einf.
  { apply String.eqb_eq in Einf. now subst s. }
  destruct (readDigits 10 s 0 0) as [[ip ni] r1] eqn:E1.
  apply readDigits_plain in E1 as (ds1 & -> & Hds1).
  rewrite plain_app, Hds1. cbn [andb].
  assert (Htail : forall m nf r2,
             isNaN (match (ni + nf)%nat with
                    | O => NaN
                    | S _ =>
                        match r2 with
                        | EmptyString => toBinary64 (scale m (- Z.of_nat nf))
                        | String c r3 =>
                            if Ascii.eqb c "e" || Ascii.eqb c "E"
                            then match parseExponent r3 with
                                 | Some e => toBinary64 (scale m (e - Z.of_nat nf))
                                 | None => NaN
                                 end
                            else NaN
                        end
                    end) = false ->
             plain r2 = true).
  { intros m nf r2 Hn. destruct (ni + nf)%nat; [discriminate Hn|].
    destruct r2 as [|c r3]; [reflexivity|].
    destruct (Ascii.eqb c "e" || Ascii.eqb c "E") eqn:Ee; [|discriminate Hn].
    destruct (parseExponent r3) as [e|] eqn:Ex; [|discriminate Hn].
    rewrite plain_cons, (parseExponent_plain _ _ Ex), andb_true_r.
    apply orb_true_iff in Ee as [Ee|Ee]; apply Ascii.eqb_eq in Ee; now subst c. }
  destruct r1 as [|c r]; [reflexivity|].
  destruct (Ascii.eqb c ".") eqn:Edot.
  - apply Ascii.eqb_eq in Edot. subst c.
    destruct (readDigits 10 r ip 0) as [[m nf] r2] eqn:E2.
    apply readDigits_plain in E2 as (ds2 & -> & Hds2).
    rewrite plain_cons, plain_app, Hds2. cbn [andb].
    replace (plainChar ".") with true by reflexivity. cbn [andb].
    exact (Htail _ _ _ H).
  - apply (Htail ip 0%nat).
    revert H.
    destruct c as [[] [] [] [] [] [] [] []]; try discriminate Edot; exact (fun H => H).
Qed.

Lemma negate_number : forall x, isNaN (negate x) = isNaN x.
Proof. now intros []. Qed.

(** A string that reads as a number holds no white space. *)
Lemma parseNumeric_plain :
  forall s, isNaN (parseNumeric s) = false -> plain s = true.
Proof.
  intros s H. destruct s as [|c r]; [reflexivity|].
  destruct (Ascii.eqb c "+") eqn:Ep.
  { apply Ascii.eqb_eq in Ep. subst c. cbn [parseNumeric] in H.
    rewrite plain_cons, (parseUnsignedDecimal_plain _ H). reflexivity. }
  destruct (Ascii.eqb c "-") eqn:Em.
  { apply Ascii.eqb_eq in Em. subst c. cbn [parseNumeric] in H.
    rewrite negate_number in H.
    rewrite plain_cons, (parseUnsignedDecimal_plain _ H). reflexivity. }
  destruct (Ascii.eqb c "0") eqn:Ez.
  - apply Ascii.eqb_eq in Ez. subst c. destruct r as [|x r].
    + reflexivity.
    + cbn [parseNumeric] in H.
      destruct (Ascii.eqb x "x" || Ascii.eqb x "X") eqn:Ex.
      { apply parseRadix_plain in H. rewrite !plain_cons, H.
        apply orb_true_iff in Ex as [Ex|Ex]; apply Ascii.eqb_eq in Ex; now subst x. }
      destruct (Ascii.eqb x "o" || Ascii.eqb x "O") eqn:Eo.
      { apply parseRadix_plain in H. rewrite !plain_cons, H.
        apply orb_true_iff in Eo as [Eo|Eo]; apply Ascii.eqb_eq in Eo; now subst x. }
      destruct (Ascii.eqb x "b" || Ascii.eqb x "B") eqn:Eb.
      { apply parseRadix_plain in H. rewrite !plain_cons, H.
        apply orb_true_iff in Eb as [Eb|Eb]; apply Ascii.eqb_eq in Eb; now subst x. }
      now apply parseUnsignedDecimal_plain.
  - apply parseUnsignedDecimal_plain.
    revert H.
    destruct c as [[] [] [] [] [] [] [] []];
      try discriminate Ep; try discriminate Em; try discriminate Ez;
      exact (fun H => H).
Qed.

(** *** The names and the operators *)

Lemma validKey_plain :
  forall summary key,
    isValidKey summary key = true -> plain key = true /\ key <> EmptyString.
Proof.
  intros summary key H. unfold isValidKey, hasProperty in H.
  destruct (lookupOwn key) as [f|] eqn:Eo.
  - unfold lookupOwn in Eo.
    destruct (find (fun f => (fst f =? key)%string) ownFields) as [p|] eqn:E;
      [|discriminate Eo].
    apply find_some in E as [Hin Heq]. apply String.eqb_eq in Heq. subst key.
    unfold ownFields in Hin. cbn [In] in Hin.
    repeat (destruct Hin as [Hin|Hin]; [subst p; split; [reflexivity | discriminate]|]).
    contradiction.
  - destruct (lookupInherited key) as [m|] eqn:Ei; [|discriminate H].
    unfold lookupInherited in Ei. apply find_some in Ei as [_ Heq].
    apply String.eqb_eq in Heq. subst key.
    destruct m; split; try reflexivity; discriminate.
Qed.

Lemma operator_plain :
  forall o, In o Spec.operators -> plain o = true /\ o <> EmptyString.
Proof.
  intros o H. unfold Spec.operators in H. cbn in H.
  repeat (destruct H as [H|H]; [subst o; split; [reflexivity | discriminate]|]).
  contradiction.
Qed.

(** What a criteria that matches is made of. *)
Lemma evaluateCriteria_true_parts :
  forall c summary,
    ((c =? "ALWAYS_MATCH") || (c =? ""))%string = false ->
    evaluateCriteria c summary = true ->
    exists l o r,
      split " " c = [l; o; r]
      /\ isValidKey summary (trim l) = true
      /\ In (trim o) Spec.operators
      /\ (isNaN (Number (trim r)) = false \/ isValidKey summary (trim r) = true).
Proof.
  intros c summary Htriv H. unfold evaluateCriteria in H. rewrite Htriv in H.
  destruct (split " " c) as [|l [|o [|r [|x xs]]]]; try discriminate H.
  cbn [map] in H. exists l, o, r. split; [reflexivity|].
  destruct (isValidKey summary (trim l)); [|discriminate H]. cbn [negb] in H.
  split; [reflexivity|].
  destruct (isNaN (Number (trim r))) eqn:En; cbn [negb] in H.
  - destruct (isValidKey summary (trim r)); [|discriminate H].
    apply switch_true in H as (op & -> & _).
    split; [destruct op; cbn; tauto | now right].
  - apply switch_true in H as (op & -> & _).
    split; [destruct op; cbn; tauto | now left].
Qed.

Lemma split_concat :
  forall sep s, String.concat (String sep "") (split sep s) = s.
Proof.
  intros sep. induction s as [|c rest IH]; [reflexivity|].
  cbn [split]. pose proof (split_not_nil sep rest) as Hne.
  destruct (Ascii.eqb c sep) eqn:E.
  - apply Ascii.eqb_eq in E. subst c.
    destruct (split sep rest) as [|p ps]; [contradiction|].
    cbn [String.concat] in *. now rewrite IH.
  - destruct (split sep rest) as [|p ps]; [contradiction|].
    destruct ps; cbn [String.concat append] in *; now rewrite IH.
Qed.

Lemma split_join :
  forall s l o r, split " " s = [l; o; r] -> s = l ++ " " ++ o ++ " " ++ r.
Proof.
  intros s l o r H. rewrite <- (split_concat " " s), H. reflexivity.
Qed.

(** The tokens of a trimmed criteria that matches are the three operands
    the evaluator reads. *)
Lemma matching_criteria_tokens :
  forall c summary,
    trim c = c ->
    ((c =? "ALWAYS_MATCH") || (c =? ""))%string = false ->
    evaluateCriteria c summary = true ->
    Spec.whitespaceTokens c = map trim (split " " c).
Proof.
  intros c summary Htrim Htriv H.
  destruct (evaluateCriteria_true_parts c summary Htriv H)
    as (l & o & r & Hsplit & Hl & Ho & Hr).
  rewrite Hsplit. cbn [map].
  pose proof (split_join _ _ _ _ Hsplit) as Hc.
  destruct (trim_cut l) as (l1 & l2 & Hl1 & Hl2 & El).
  destruct (trim_cut o) as (o1 & o2 & Ho1 & Ho2 & Eo).
  destruct (trim_cut r) as (r1 & r2 & Hr1 & Hr2 & Er).
  destruct (validKey_plain _ _ Hl) as [Pl Nl].
  destruct (operator_plain _ Ho) as [Po No].
  assert (Hspace : isWhitespaceChar " " = true) by reflexivity.
  assert (Pr : plain (trim r) = true).
  { destruct Hr as [Hr|Hr]; [|now apply (validKey_plain summary)].
    apply parseNumeric_plain. unfold Number in Hr. now rewrite trim_idempotent in Hr. }
  assert (Nr : trim r <> EmptyString).
  { intros Hempty. rewrite Hempty in Er. cbn [append] in Er.
    assert (Hb : blank (" " ++ r)).
    { constructor; [exact Hspace|]. rewrite Er. clear - Hr1 Hr2.
      induction Hr1 as [|w b Hw Hb IH]; [exact Hr2|].
      rewrite append_assoc. now constructor. }
    assert (Hend : c = (l ++ " " ++ o) ++ " " ++ r).
    { rewrite Hc, !append_assoc. reflexivity. }
    rewrite Hend in Htrim. apply trimmed_end in Htrim; [|exact Hb].
    discriminate Htrim. }
  assert (Hshape :
            c = l1 ++ trim l ++ l2 ++ " "
                ++ (o1 ++ trim o ++ o2 ++ " " ++ (r1 ++ trim r ++ r2))).
  { rewrite Hc. rewrite El at 1. rewrite Eo at 1. rewrite Er at 1.
    now rewrite !append_assoc. }
  rewrite Hshape.
  rewrite whitespaceTokens_blank by assumption.
  rewrite whitespaceTokens_plain_blank by assumption.
  rewrite whitespaceTokens_blank by assumption.
  rewrite whitespaceTokens_plain_blank by assumption.
  rewrite whitespaceTokens_blank by assumption.
  now rewrite whitespaceTokens_plain_end.
Qed.

(** The loader trims the criteria of every record before storing it. *)
Lemma loaded_criteria_trimmed :
  forall csvText item,
    In item (parseAdviceCsv csvText) -> trim (criteria item) = criteria item.
Proof.
  intros csvText item Hin. unfold parseAdviceCsv in Hin.
  rewrite parseAdviceRows_flat_map in Hin. cbn [app] in Hin.
  apply in_flat_map in Hin as (row & _ & Hrow).
  unfold rowRecords in Hrow.
  destruct (parseAdviceRow row) as [item'|] eqn:Er; [|contradiction].
  destruct Hrow as [<-|[]]. unfold parseAdviceRow in Er.
  destruct (trim row =? "")%string; [discriminate|].
  destruct (nth_error (parseCsvRow row) 0); [|discriminate].
  destruct (nth_error (parseCsvRow row) 1); [|discriminate].
  destruct (nth_error (parseCsvRow row) 2); [|discriminate].
  destruct (nth_error (parseCsvRow row) 3); [|discriminate].
  destruct (_ && _); [|discriminate].
  injection Er as <-. cbn [criteria]. apply trim_idempotent.
Qed.

(** C4.  The evaluator returns true on the empty string and on
    [ALWAYS_MATCH].  On every other criteria of a loaded record, that is on
    every other trimmed string, that does not split on white space into
    exactly three tokens, it returns false: although the code cuts at the
    space character only, a trimmed criteria that matches always has exactly
    three tokens, the three operands the evaluator reads.  Every criteria
    the loader stores is trimmed. *)
Theorem evaluateCriteria_token_count :
  forall summary,
    evaluateCriteria "" summary = true
    /\ evaluateCriteria "ALWAYS_MATCH" summary = true
    /\ (forall c,
           trim c = c ->
           c <> "" -> c <> "ALWAYS_MATCH" ->
           List.length (Spec.whitespaceTokens c) <> 3%nat ->
           evaluateCriteria c summary = false)
    /\ (forall csvText item,
           In item (parseAdviceCsv csvText) -> trim (criteria item) = criteria item).
Proof.
  intros summary. split; [reflexivity|]. split; [reflexivity|].
  split; [|exact loaded_criteria_trimmed].
  intros c Htrim Hempty Hsentinel Hlen.
  assert (Htriv : ((c =? "ALWAYS_MATCH") || (c =? ""))%string = false).
  { apply orb_false_iff. split; now apply String.eqb_neq. }
  destruct (evaluateCriteria c summary) eqn:E; [|reflexivity].
  exfalso. apply Hlen.
  rewrite (matching_criteria_tokens c summary Htrim Htriv E).
  destruct (evaluateCriteria_true_parts c summary Htriv E) as (l & o & r & -> & _).
  reflexivity.
Qed.

Lemma evaluateCriteria_token_count_witness :
  trim ("goodThoughts >= 1" ++ TAB ++ "1") = "goodThoughts >= 1" ++ TAB ++ "1"
  /\ Spec.whitespaceTokens ("goodThoughts >= 1" ++ TAB ++ "1")
     = ["goodThoughts"; ">="; "1"; "1"]
  /\ split " " ("goodThoughts >= 1" ++ TAB ++ "1")
     = ["goodThoughts"; ">="; "1" ++ TAB ++ "1"]
  /\ evaluateCriteria ("goodThoughts >= 1" ++ TAB ++ "1") Sample.summary = false.
Proof.
  assert (H1 : trim ("goodThoughts >= 1" ++ TAB ++ "1")
               = "goodThoughts >= 1" ++ TAB ++ "1") by reflexivity.
  assert (H2 : "goodThoughts >= 1" ++ TAB ++ "1" <> "") by discriminate.
  assert (H3 : "goodThoughts >= 1" ++ TAB ++ "1" <> "ALWAYS_MATCH") by discriminate.
  assert (H4 : List.length (Spec.whitespaceTokens ("goodThoughts >= 1" ++ TAB ++ "1"))
               <> 3%nat) by (cbv; discriminate).
  refine (conj H1 (conj eq_refl (conj eq_refl _))).
  exact (proj1 (proj2 (proj2 (evaluateCriteria_token_count Sample.summary))) _ H1 H2 H3 H4).
Defined.

(** ** Numeric right operands *)

(** Reading back the digits [String(n)] writes. *)
Lemma readDigits_of_uint_acc :
  forall d acc count,
    readDigits 10 (NilEmpty.string_of_uint d) (Npos acc) count
    = (Npos (Pos.of_uint_acc d acc),
       (count + String.length (NilEmpty.string_of_uint d))%nat, EmptyString).
Proof.
  induction d; intros acc count;
    cbn [NilEmpty.string_of_uint readDigits String.length Pos.of_uint_acc];
    try (now rewrite Nat.add_0_r);
    (change (digit 10 _) with (Some 0) || change (digit 10 _) with (Some 1)
     || change (digit 10 _) with (Some 2) || change (digit 10 _) with (Some 3)
     || change (digit 10 _) with (Some 4) || change (digit 10 _) with (Some 5)
     || change (digit 10 _) with (Some 6) || change (digit 10 _) with (Some 7)
     || change (digit 10 _) with (Some 8) || change (digit 10 _) with (Some 9));
    cbv beta iota;
    match goal with
    | |- readDigits _ _ ?a _ = (N.pos (Pos.of_uint_acc _ ?b), _, _) =>
        replace a with (Npos b) by lia
    end;
    rewrite IHd; f_equal; f_equal; lia.
Qed.

Lemma readDigits_of_uint :
  forall d count,
    readDigits 10 (NilEmpty.string_of_uint d) 0 count
    = (Pos.of_uint d, (count + String.length (NilEmpty.string_of_uint d))%nat,
       EmptyString).
Proof.
  induction d; intros count;
    cbn [NilEmpty.string_of_uint readDigits String.length Pos.of_uint];
    try (now rewrite Nat.add_0_r);
    (change (digit 10 _) with (Some 0) || change (digit 10 _) with (Some 1)
     || change (digit 10 _) with (Some 2) || change (digit 10 _) with (Some 3)
     || change (digit 10 _) with (Some 4) || change (digit 10 _) with (Some 5)
     || change (digit 10 _) with (Some 6) || change (digit 10 _) with (Some 7)
     || change (digit 10 _) with (Some 8) || change (digit 10 _) with (Some 9));
    cbv beta iota;
    try (rewrite IHd; f_equal; f_equal; lia);
    match goal with
    | |- readDigits _ _ ?a _ = (N.pos (Pos.of_uint_acc _ ?b), _, _) =>
        replace a with (Npos b) by lia
    end;
    rewrite readDigits_of_uint_acc; f_equal; f_equal; lia.
Qed.

Lemma Qred_integer : forall n : Z, Qred (inject_Z n) = inject_Z n.
Proof.
  intros n. unfold Qred, inject_Z.
  pose proof (Z.ggcd_gcd n 1) as Hg.
  pose proof (Z.ggcd_correct_divisors n 1) as Hd.
  destruct (Z.ggcd n 1) as [g [a b]]. cbn [fst snd] in *.
  rewrite Z.gcd_1_r in Hg. subst g. destruct Hd as [Ha Hb].
  rewrite Z.mul_1_l in Ha, Hb. now subst a b.
Qed.

(** An integer below [2^53] is its own binary64 value. *)
Lemma toBinary64_exact :
  forall n : Z, (0 <= n < 2 ^ 53)%Z -> toBinary64 (inject_Z n) = ofInt n.
Proof.
  intros n [Hlo Hhi]. unfold toBinary64. cbn [Qnum Qden inject_Z].
  destruct (n <=? 0)%Z eqn:E0.
  { apply Z.leb_le in E0. now replace n with 0%Z by lia. }
  apply Z.leb_gt in E0.
  pose proof (Z.log2_spec n E0) as [Hl1 Hl2].
  pose proof (Z.log2_nonneg n) as Hl0.
  assert (Hl53 : (Z.log2 n < 53)%Z) by (apply Z.log2_lt_pow2; lia).
  assert (Hfloor : floorLog2 n 1 = Z.log2 n).
  { unfold floorLog2, shiftBy. change (Z.log2 1) with 0%Z. rewrite Z.sub_0_r.
    replace (0 <=? Z.log2 n)%Z with true by (symmetry; apply Z.leb_le; lia).
    replace (1 * 2 ^ Z.log2 n <=? n)%Z with true
      by (symmetry; apply Z.leb_le; lia).
    reflexivity. }
  rewrite Hfloor. rewrite Z.max_l by lia.
  unfold shiftBy.
  destruct (0 <=? Z.log2 n - 52)%Z eqn:Ex.
  - apply Z.leb_le in Ex. replace (Z.log2 n - 52)%Z with 0%Z by lia.
    change (1 * 2 ^ 0)%Z with 1%Z. unfold roundHalfEven.
    rewrite Z.mod_1_r, Z.div_1_r. cbn [Z.mul Z.compare].
    rewrite Z.mul_1_r.
    replace (2 ^ 1024 <=? n)%Z with false; [reflexivity|].
    symmetry. apply Z.leb_gt.
    apply Z.lt_trans with (2 ^ 53)%Z; [exact Hhi | reflexivity].
  - apply Z.leb_gt in Ex. unfold roundHalfEven.
    rewrite Z.mod_1_r, Z.div_1_r. cbn [Z.mul Z.compare].
    unfold ofInt. f_equal. rewrite <- (Qred_integer n).
    apply Qred_complete. unfold Qeq, inject_Z. cbn [Qnum Qden].
    rewrite Z2Pos.id by (apply Z.pow_pos_nonneg; lia). lia.
Qed.

Lemma string_of_uint_plain :
  forall d, plain (NilEmpty.string_of_uint d) = true.
Proof. induction d; cbn [NilEmpty.string_of_uint plain]; try reflexivity; exact IHd. Qed.

Lemma isWhitespaceChar_plain :
  forall a s, plainChar a = true -> isWhitespaceChar (String a s) = false.
Proof.
  intros a s H. apply plainChar_bytes in H as [H1 H2].
  destruct s as [|b [|c [|d s]]]; cbn [isWhitespaceChar]; try reflexivity.
  - exact H1.
  - apply whitespace2_not_lead. lia.
  - apply whitespace3_low. lia.
Qed.

(** [trim] leaves a string without white space as it is. *)
Lemma trim_plain : forall s, plain s = true -> trim s = s.
Proof.
  intros s H. unfold trim.
  assert (Hend : trimEnd s = s).
  { induction s as [|a s IH]; [reflexivity|].
    cbn [plain] in H. apply andb_true_iff in H as [Ha Hs].
    cbn [trimEnd]. rewrite (IH Hs). now rewrite isWhitespaceChar_plain. }
  rewrite Hend. destruct s as [|a s]; [reflexivity|].
  cbn [plain] in H. apply andb_true_iff in H as [Ha _].
  apply plainChar_bytes in Ha as [H1 H2].
  cbn [trimStart]. rewrite H1.
  destruct s as [|b s]; [reflexivity|].
  rewrite whitespace2_not_lead by lia.
  destruct s as [|c s]; [reflexivity|].
  now rewrite whitespace3_low by lia.
Qed.

Lemma parseUnsignedDecimal_digits :
  forall p,
    parseUnsignedDecimal (NilEmpty.string_of_uint (Pos.to_uint p))
    = toBinary64 (inject_Z (Zpos p)).
Proof.
  intros p. unfold parseUnsignedDecimal.
  pose proof (DecimalPos.Unsigned.of_to p) as Hof.
  pose proof (readDigits_of_uint (Pos.to_uint p) 0) as Hread.
  rewrite Hof in Hread.
  assert (Hinf : (NilEmpty.string_of_uint (Pos.to_uint p) =? "Infinity")%string = false).
  { destruct (Pos.to_uint p); reflexivity. }
  rewrite Hinf, Hread. cbv beta iota zeta.
  destruct (Pos.to_uint p) eqn:Ed; [discriminate Hof| | | | | | | | | |];
    cbn [NilEmpty.string_of_uint String.length Nat.add];
    unfold scale; cbn [Z.of_nat Z.opp Z.leb Z.compare Z.of_N];
    now rewrite Z.pow_0_r, Z.mul_1_r.
Qed.

Lemma parseNumeric_digits :
  forall p,
    parseNumeric (NilEmpty.string_of_uint (Pos.to_uint p))
    = toBinary64 (inject_Z (Zpos p)).
Proof.
  intros p. rewrite <- parseUnsignedDecimal_digits.
  pose proof (DecimalPos.Unsigned.of_to p) as Hof.
  destruct (Pos.to_uint p) as [|d|d|d|d|d|d|d|d|d|d]; [discriminate Hof|..];
    try reflexivity.
  destruct d; reflexivity.
Qed.

(** [Number(String(n))] is [n] for every safe integer. *)
Lemma Number_ofZ :
  forall n : Z, (Z.abs n < 2 ^ 53)%Z -> Number (ofZ n) = ofInt n.
Proof.
  intros n Hn. unfold Number, ofZ, NilZero.string_of_int.
  destruct n as [|p|p]; [reflexivity| |]; cbn [Z.to_int].
  - pose proof (DecimalPos.Unsigned.of_to p) as Hof.
    assert (Hs : NilZero.string_of_uint (Pos.to_uint p)
                 = NilEmpty.string_of_uint (Pos.to_uint p)).
    { destruct (Pos.to_uint p); [discriminate Hof|..]; reflexivity. }
    rewrite Hs, trim_plain by apply string_of_uint_plain.
    rewrite parseNumeric_digits. apply toBinary64_exact. cbn [Z.abs] in Hn. lia.
  - pose proof (DecimalPos.Unsigned.of_to p) as Hof.
    assert (Hs : NilZero.string_of_uint (Pos.to_uint p)
                 = NilEmpty.string_of_uint (Pos.to_uint p)).
    { destruct (Pos.to_uint p); [discriminate Hof|..]; reflexivity. }
    rewrite Hs.
    rewrite trim_plain
      by (cbn [plain]; now rewrite string_of_uint_plain).
    cbn [parseNumeric]. rewrite parseUnsignedDecimal_digits.
    rewrite toBinary64_exact by (cbn [Z.abs] in Hn; lia).
    reflexivity.
Qed.

Lemma ofZ_plain : forall z, plain (ofZ z) = true.
Proof.
  intros z. unfold ofZ, NilZero.string_of_int, NilZero.string_of_uint.
  destruct (Z.to_int z) as [d|d]; cbv beta iota.
  - destruct d; try reflexivity; apply string_of_uint_plain.
  - cbn [append plain]. destruct d; try reflexivity; apply string_of_uint_plain.
Qed.

Lemma plain_without_space : forall s, plain s = true -> containsChar " " s = false.
Proof.
  induction s as [|a s IH]; intros H; [reflexivity|].
  cbn [plain] in H. apply andb_true_iff in H as [Ha Hs].
  cbn [containsChar]. rewrite (IH Hs), orb_false_r.
  apply Ascii.eqb_neq. intros ->. discriminate Ha.
Qed.

(** What [Number] makes of long literals: the nearest binary64 value, an
    infinity beyond the largest one, zero below the smallest one. *)
Lemma Number_rounds :
  Number "0.99999999999999999" = ofInt 1
  /\ Number "9007199254740993" = ofInt 9007199254740992
  /\ Number "0x20000000000003" = ofInt 9007199254740996
  /\ Number "1e400" = PosInfinity
  /\ Number "1e-400" = ofInt 0
  /\ Number "2.5" = Finite (5 # 2).
Proof. repeat split; vm_compute; reflexivity. Qed.

(** So a counter at 1 is not above [0.99999999999999999], which reads
    as 1. *)
Lemma long_literal_comparison :
  forall summary,
    goodThoughts summary = 1%Z ->
    evaluateCriteria "goodThoughts > 0.99999999999999999" summary = false
    /\ evaluateCriteria "goodThoughts == 0.99999999999999999" summary = true
    /\ evaluateCriteria "goodThoughts < 1e400" summary = true.
Proof.
  intros summary H.
  destruct Number_rounds as (Hone & _ & _ & Hinf & _).
  assert (E : forall op literal,
             containsChar " " literal = false ->
             isNaN (Number literal) = false ->
             evaluateCriteria ("goodThoughts" ++ " " ++ Spec.symbol op ++ " " ++ literal)
               summary = true
             <-> Spec.holds op 1 (Number literal)).
  { intros op literal Hspace Hnum.
    rewrite (evaluateCriteria_counter_number summary "goodThoughts" goodThoughts op
               literal (or_introl eq_refl) Hspace Hnum).
    rewrite H. now apply compare_holds. }
  assert (Hnum : isNaN (Number "0.99999999999999999") = false) by now rewrite Hone.
  assert (Hnum' : isNaN (Number "1e400") = false) by now rewrite Hinf.
  pose proof (fun op => E op "0.99999999999999999" eq_refl Hnum) as E1.
  pose proof (E Spec.Lt "1e400" eq_refl Hnum') as E2.
  rewrite Hone in E1. rewrite Hinf in E2.
  split; [|split].
  - destruct (evaluateCriteria "goodThoughts > 0.99999999999999999" summary) eqn:Ev;
      [|reflexivity].
    apply (proj1 (E1 Spec.Gt)) in Ev. cbn in Ev. now apply Qlt_irrefl in Ev.
  - apply (proj2 (E1 Spec.Eq)). cbn. reflexivity.
  - apply (proj2 E2). exact I.
Qed.

(** C3.  For a criteria [key op literal] whose left operand is one of the
    eight counters and whose right operand is a numeric literal (a string
    without spaces that [Number] reads as a number), the evaluator returns
    true exactly when the comparison [op] holds between the value of the
    counter and the number the literal is read as, for each of the five
    operators, equality being equality of the numeric values; with an
    operator that is none of the five, it returns false.  The number is the
    binary64 value of the literal; for an integer literal below [2^53] in
    magnitude it is that integer, so that [key op n] compares the counter
    with [n]. *)
Theorem evaluateCriteria_numeric_comparison :
  forall summary key field,
    In (key, field) ownFields ->
    (forall literal,
        containsChar " " literal = false ->
        isNaN (Number literal) = false ->
        (forall op,
            evaluateCriteria (key ++ " " ++ Spec.symbol op ++ " " ++ literal) summary
            = true
            <-> Spec.holds op (field summary) (Number literal))
        /\ (forall operator,
               ~ In (trim operator) Spec.operators ->
               evaluateCriteria (key ++ " " ++ operator ++ " " ++ literal) summary
               = false))
    /\ (forall n op,
           (Z.abs n < 2 ^ 53)%Z ->
           Number (ofZ n) = ofInt n
           /\ (evaluateCriteria (key ++ " " ++ Spec.symbol op ++ " " ++ ofZ n) summary
               = true
               <-> holdsBetween op (field summary) n)).
Proof.
  intros summary key field Hkey. split.
  - intros literal Hlit Hnum. split.
    + intros op.
      rewrite (evaluateCriteria_counter_number summary key field op literal
                 Hkey Hlit Hnum).
      now apply compare_holds.
    + intros operator Hop. now apply evaluateCriteria_unknown_operator.
  - intros n op Hn. pose proof (Number_ofZ n Hn) as Hnum.
    split; [exact Hnum|].
    assert (Hspace : containsChar " " (ofZ n) = false)
      by (apply plain_without_space, ofZ_plain).
    assert (Hnan : isNaN (Number (ofZ n)) = false) by now rewrite Hnum.
    rewrite (evaluateCriteria_counter_number summary key field op (ofZ n)
               Hkey Hspace Hnan).
    rewrite Hnum, <- holds_ofInt. now apply compare_holds.
Qed.

Lemma evaluateCriteria_numeric_comparison_witness :
  In ("goodThoughts", goodThoughts) ownFields
  /\ containsChar " " "2.5" = false
  /\ isNaN (Number "2.5") = false
  /\ (forall op,
         evaluateCriteria ("goodThoughts" ++ " " ++ Spec.symbol op ++ " " ++ "2.5")
           Sample.summary = true
         <-> Spec.holds op (goodThoughts Sample.summary) (Number "2.5"))
  /\ (forall operator,
         ~ In (trim operator) Spec.operators ->
         evaluateCriteria ("goodThoughts" ++ " " ++ operator ++ " " ++ "2.5")
           Sample.summary = false)
  /\ (Z.abs 3 < 2 ^ 53)%Z
  /\ (evaluateCriteria ("goodThoughts" ++ " " ++ Spec.symbol Spec.Ge ++ " " ++ ofZ 3)
        Sample.summary = true
      <-> holdsBetween Spec.Ge (goodThoughts Sample.summary) 3).
Proof.
  assert (H1 : In ("goodThoughts", goodThoughts) ownFields) by (left; reflexivity).
  assert (H2 : containsChar " " "2.5" = false) by reflexivity.
  assert (H3 : isNaN (Number "2.5") = false) by reflexivity.
  assert (H4 : (Z.abs 3 < 2 ^ 53)%Z) by reflexivity.
  refine (conj H1 (conj H2 (conj H3 _))).
  pose (T := evaluateCriteria_numeric_comparison Sample.summary _ _ H1).
  exact (conj (proj1 (proj1 T "2.5" H2 H3))
           (conj (proj2 (proj1 T "2.5" H2 H3))
              (conj H4 (proj2 (proj2 T 3%Z Spec.Ge H4))))).
Defined.

(** ** The composer *)

Lemma orZero_id : forall val, orZero val = val.
Proof.
  intros val. unfold orZero. destruct (val =? 0)%Z eqn:E; [|reflexivity].
  apply Z.eqb_eq in E. now subst.
Qed.

Lemma totalActions_fieldSum : forall summary, totalActions summary = Spec.fieldSum summary.
Proof.
  intros summary. unfold totalActions, Spec.fieldSum, objectValues. cbn.
  now rewrite !orZero_id.
Qed.

Lemma suitable_nil :
  forall summary type_ subtype_, suitable [] summary type_ subtype_ = [].
Proof. intros summary type_ subtype_. unfold suitable. now destruct (given subtype_). Qed.

Lemma findAndPick_nil :
  forall summary type_ subtype_ rng,
    findAndPick [] summary type_ subtype_ rng = (None, rng).
Proof. intros. unfold findAndPick. now rewrite suitable_nil. Qed.

(** The tips block completes normally: the fallback pick is made in a list
    that is not empty. *)
Lemma tipsSection_normal :
  forall records summary growthSubtype rng,
    exists tips rng', tipsSection records summary growthSubtype rng = Normal (tips, rng').
Proof.
  intros records summary growthSubtype rng. unfold tipsSection.
  set (first := match given growthSubtype with
                | Some st => _
                | None => _
                end).
  destruct first as [tipsList rng1].
  destruct (findAndPick records summary "tip" (Some "maintainStrengths") rng1)
    as [maintainTip rng2].
  set (tipsList' := match maintainTip with Some item => _ | None => _ end).
  destruct (List.length tipsList' =? 0)%nat; [|eauto].
  set (fallbackTip := filter _ records).
  destruct fallbackTip as [|x xs] eqn:E; [cbn; eauto|].
  cbn [List.length Nat.ltb Nat.leb].
  destruct (pickRandom_member _ (x :: xs) rng2) as (y & Hy & _); [discriminate|].
  destruct (pickRandom (x :: xs) rng2) as [picked rng3]. cbn [fst] in Hy. subst picked.
  eauto.
Qed.

(** The pipeline completes normally, and its text is the concatenation of
    the five blocks with the placeholders replaced. *)
Lemma composeAdvice_normal :
  forall records summary periodLabel rng,
    exists intro rng1 rest,
      introSection records summary periodLabel rng = (intro, rng1)
      /\ composeAdvice records summary periodLabel rng
         = Normal (substitutePlaceholders summary
                     (intro ++ STRENGTH_HEADING
                        ++ fst (strengthEntry records summary rng1) ++ rest)).
Proof.
  intros records summary periodLabel rng. unfold composeAdvice, strengthSection.
  destruct (introSection records summary periodLabel rng) as [intro rng1].
  destruct (strengthEntry records summary rng1) as [entry rng2] eqn:Eentry.
  destruct (growthSection records summary rng2) as [[growth growthSubtype] rng3].
  destruct (tipsSection_normal records summary growthSubtype rng3) as (tips & rng4 & Ht).
  rewrite Ht.
  destruct (closingSection records summary rng4) as [closing rng5].
  exists intro, rng1, (growth ++ tips ++ closing). split; [reflexivity|].
  rewrite Eentry. cbn [fst]. change (EmptyString ++ intro) with intro.
  now rewrite !append_assoc.
Qed.

Lemma composeAdvice_nil :
  forall summary periodLabel rng,
    composeAdvice [] summary periodLabel rng = Normal Spec.emptyDatasetAdvice.
Proof.
  intros summary periodLabel rng.
  unfold composeAdvice, introSection, strengthSection, strengthEntry, growthSection,
    tipsSection, closingSection.
  rewrite !findAndPick_nil. cbn [given].
  rewrite !findAndPick_nil. reflexivity.
Qed.

(** C7.  With a dataset in the cache, or fetched by the call, whatever its
    contents, a summary whose eight counters sum to zero gets the fixed
    no-activity message, for every period label. *)
Theorem zero_sum_no_activity :
  forall summary periodLabel rng,
    Spec.fieldSum summary = 0%Z ->
    (forall records outcome,
        generateDetailedAdvice (Some summary) periodLabel (Some records) outcome rng
        = (MSG_NO_ACTIVITY, Some records))
    /\ (forall csvText,
           generateDetailedAdvice (Some summary) periodLabel None (ResponseOk csvText) rng
           = (MSG_NO_ACTIVITY, Some (parseAdviceCsv csvText))).
Proof.
  intros summary periodLabel rng Hsum.
  assert (Hzero : (totalActions summary =? 0)%Z = true).
  { rewrite totalActions_fieldSum, Hsum. reflexivity. }
  split; intros;
    unfold generateDetailedAdvice, adviceAttempt, fetchAndParseAdviceData;
    cbv beta iota zeta; now rewrite Hzero.
Qed.

Lemma zero_sum_no_activity_witness :
  Spec.fieldSum Sample.noActivity = 0%Z
  /\ generateDetailedAdvice (Some Sample.noActivity) "오늘" (Some [Sample.tipX])
       NetworkError Sample.rng
     = (MSG_NO_ACTIVITY, Some [Sample.tipX]).
Proof.
  assert (H : Spec.fieldSum Sample.noActivity = 0%Z) by reflexivity.
  refine (conj H _).
  exact (proj1 (zero_sum_no_activity Sample.noActivity "오늘" Sample.rng H) _ _).
Defined.

(** C8, as stated, fails: when no strength record is suitable the entry is
    the fixed encouragement, which carries no number; with an empty record
    list the whole advice holds no numbered entry. *)
Lemma strength_entry_numbered_counterexample :
  ~ (forall records summary rng,
        prefix "1. " (fst (strengthEntry records summary rng)) = true)
  /\ fst (strengthEntry [] Sample.summary Sample.rng) = STRENGTH_ENCOURAGEMENT
  /\ prefix "1. " STRENGTH_ENCOURAGEMENT = false
  /\ composeAdvice [] Sample.summary "오늘" Sample.rng = Normal Spec.emptyDatasetAdvice
  /\ includes Spec.emptyDatasetAdvice "1. " = false.
Proof.
  split; [|repeat split; reflexivity].
  intros H. specialize (H [] Sample.summary Sample.rng). discriminate H.
Qed.

(** C8, amended.  Every composed advice is the intro, the strength heading,
    the strength entry and the rest, with the placeholders replaced.  The
    entry comes from [findAndPick('strength')], then
    [findAndPick('strength', 'balance')], then the fixed encouragement: it
    is the one numbered item ["1. " + text] of a suitable strength record
    when there is one, and the encouragement sentence, without a number,
    when there is none. *)
Theorem strength_entry_cases :
  forall records summary periodLabel rng,
    exists intro rng1 rest,
      composeAdvice records summary periodLabel rng
      = Normal (substitutePlaceholders summary
                  (intro ++ STRENGTH_HEADING
                     ++ fst (strengthEntry records summary rng1) ++ rest))
      /\ ((exists item,
              Spec.eligible records summary "strength" None item
              /\ fst (strengthEntry records summary rng1)
                 = "1. " ++ text item ++ LF ++ LF)
          \/ ((forall item, ~ Spec.eligible records summary "strength" None item)
              /\ fst (strengthEntry records summary rng1) = STRENGTH_ENCOURAGEMENT)).
Proof.
  intros records summary periodLabel rng.
  destruct (composeAdvice_normal records summary periodLabel rng)
    as (intro & rng1 & rest & _ & Hcompose).
  exists intro, rng1, rest. split; [exact Hcompose|].
  rewrite strengthEntry_two_cases.
  pose proof (findAndPick_suitable records summary "strength" None rng1) as Hs.
  destruct (findAndPick records summary "strength" None rng1) as [[item|] rng2];
    cbn [fst] in *.
  - left. exists item. split; [|reflexivity]. now apply suitable_eligible in Hs.
  - right. split; [|reflexivity].
    intros item Hel. apply (suitable_eligible records summary "strength" None) in Hel.
    now rewrite Hs in Hel.
Qed.

(** What a call returns when the request for the sheet fails. *)
Lemma failed_load_message :
  forall summary periodLabel rng,
    generateDetailedAdvice summary periodLabel None NetworkError rng
    = (MSG_GENERATION_FAILED, None).
Proof. reflexivity. Qed.

Lemma generateDetailedAdvice_empty_list :
  forall summary periodLabel outcome rng,
    generateDetailedAdvice (Some summary) periodLabel (Some []) outcome rng
    = (if (Spec.fieldSum summary =? 0)%Z then MSG_NO_ACTIVITY
       else Spec.emptyDatasetAdvice, Some []).
Proof.
  intros summary periodLabel outcome rng.
  unfold generateDetailedAdvice, adviceAttempt. cbv beta iota zeta.
  rewrite totalActions_fieldSum, composeAdvice_nil.
  now destruct (Spec.fieldSum summary =? 0)%Z.
Qed.

(** C2, as stated, fails: an empty record list is a loaded dataset; the
    call goes on to compose, and finds its fixed fallbacks. *)
Lemma empty_dataset_counterexample :
  ~ (forall summary periodLabel cache outcome rng,
        cache = Some [] \/ (cache = None /\ forall csvText, outcome <> ResponseOk csvText) ->
        fst (generateDetailedAdvice (Some summary) periodLabel cache outcome rng)
        = MSG_DATA_UNAVAILABLE)
  /\ fst (generateDetailedAdvice (Some Sample.summary) "오늘" (Some []) NetworkError Sample.rng)
     = Spec.emptyDatasetAdvice
  /\ Spec.emptyDatasetAdvice <> MSG_DATA_UNAVAILABLE.
Proof.
  assert (E : fst (generateDetailedAdvice (Some Sample.summary) "오늘" (Some [])
                     NetworkError Sample.rng) = Spec.emptyDatasetAdvice) by reflexivity.
  assert (D : Spec.emptyDatasetAdvice <> MSG_DATA_UNAVAILABLE) by (cbv; discriminate).
  split; [|exact (conj E D)].
  intros H.
  specialize (H Sample.summary "오늘" (Some []) NetworkError Sample.rng (or_introl eq_refl)).
  rewrite E in H. exact (D H).
Qed.

(** C2, amended.  For every summary that is not null and every period
    label, a cache that holds an empty record list counts as loaded: the
    call returns the no-activity message when the counters sum to zero,
    and otherwise the advice made of the two headings and the fixed
    encouragement; in neither case the data-unavailable message. *)
Theorem empty_dataset_advice :
  forall summary periodLabel outcome rng,
    (Spec.fieldSum summary = 0%Z ->
     generateDetailedAdvice (Some summary) periodLabel (Some []) outcome rng
     = (MSG_NO_ACTIVITY, Some []))
    /\ (Spec.fieldSum summary <> 0%Z ->
        generateDetailedAdvice (Some summary) periodLabel (Some []) outcome rng
        = (Spec.emptyDatasetAdvice, Some []))
    /\ fst (generateDetailedAdvice (Some summary) periodLabel (Some []) outcome rng)
       <> MSG_DATA_UNAVAILABLE.
Proof.
  intros summary periodLabel outcome rng.
  rewrite generateDetailedAdvice_empty_list.
  destruct (Spec.fieldSum summary =? 0)%Z eqn:E.
  - apply Z.eqb_eq in E. repeat split; [tauto | cbv; discriminate].
  - apply Z.eqb_neq in E. repeat split; [tauto | cbv; discriminate].
Qed.

Lemma empty_dataset_advice_witness :
  Spec.fieldSum Sample.summary <> 0%Z
  /\ generateDetailedAdvice (Some Sample.summary) "오늘" (Some []) NetworkError Sample.rng
     = (Spec.emptyDatasetAdvice, Some []).
Proof.
  assert (H : Spec.fieldSum Sample.summary <> 0%Z) by (cbv; discriminate).
  refine (conj H _).
  exact (proj1 (proj2 (empty_dataset_advice Sample.summary "오늘" NetworkError Sample.rng)) H).
Defined.

(** C6, as stated, fails: with a loaded dataset and a summary whose
    counters are all zero the result is the no-activity message, which is
    neither of the two fallback strings nor a composed advice. *)
Lemma three_outcomes_counterexample :
  ~ (forall summary periodLabel cache outcome rng,
        fst (generateDetailedAdvice summary periodLabel cache outcome rng)
        = MSG_DATA_UNAVAILABLE
        \/ fst (generateDetailedAdvice summary periodLabel cache outcome rng)
           = MSG_GENERATION_FAILED
        \/ exists records s rng',
            snd (generateDetailedAdvice summary periodLabel cache outcome rng)
            = Some records
            /\ summary = Some s
            /\ composeAdvice records s periodLabel rng'
               = Normal (fst (generateDetailedAdvice summary periodLabel cache outcome rng)))
  /\ generateDetailedAdvice (Some Sample.noActivity) "오늘" (Some []) NetworkError Sample.rng
     = (MSG_NO_ACTIVITY, Some []).
Proof.
  assert (E : generateDetailedAdvice (Some Sample.noActivity) "오늘" (Some [])
                NetworkError Sample.rng = (MSG_NO_ACTIVITY, Some [])) by reflexivity.
  split; [|exact E].
  intros H.
  specialize (H (Some Sample.noActivity) "오늘" (Some []) NetworkError Sample.rng).
  rewrite E in H. cbn [fst snd] in H.
  destruct H as [H|[H|(records & s & rng' & Hrec & Hs & Hc)]].
  - revert H. cbv. discriminate.
  - revert H. cbv. discriminate.
  - injection Hrec as <-. rewrite composeAdvice_nil in Hc.
    revert Hc. cbv. discriminate.
Qed.

(** C6, amended.  For every summary, period label, cache, outcome of the
    request and random values, the call returns a string: the
    data-unavailable message, the no-activity message, the
    generation-failed message, or the advice composed from the cached
    records for a summary whose counters do not sum to zero.  Composition
    itself completes normally; an exception of the attempt (the request
    failed) is turned into the generation-failed message. *)
Theorem generateDetailedAdvice_outcomes :
  forall summary periodLabel cache outcome rng,
    (fst (generateDetailedAdvice summary periodLabel cache outcome rng)
     = MSG_DATA_UNAVAILABLE
     \/ fst (generateDetailedAdvice summary periodLabel cache outcome rng)
        = MSG_NO_ACTIVITY
     \/ fst (generateDetailedAdvice summary periodLabel cache outcome rng)
        = MSG_GENERATION_FAILED
     \/ exists records s,
         snd (generateDetailedAdvice summary periodLabel cache outcome rng)
         = Some records
         /\ summary = Some s
         /\ Spec.fieldSum s <> 0%Z
         /\ composeAdvice records s periodLabel rng
            = Normal (fst (generateDetailedAdvice summary periodLabel cache outcome rng)))
    /\ (forall e cache',
           adviceAttempt summary periodLabel cache outcome rng = (Throw e, cache') ->
           generateDetailedAdvice summary periodLabel cache outcome rng
           = (MSG_GENERATION_FAILED, cache'))
    /\ (forall records s, exists advice,
           composeAdvice records s periodLabel rng = Normal advice).
Proof.
  intros summary periodLabel cache outcome rng.
  assert (Hnormal : forall records s, exists advice,
             composeAdvice records s periodLabel rng = Normal advice).
  { intros records s.
    destruct (composeAdvice_normal records s periodLabel rng) as (i & r & t & _ & H).
    eauto. }
  split; [|split; [|exact Hnormal]].
  - unfold generateDetailedAdvice, adviceAttempt, fetchAndParseAdviceData.
    destruct cache as [records|]; [|destruct outcome]; cbv beta iota zeta;
      try (right; right; left; reflexivity).
    all: destruct summary as [s|]; [|left; reflexivity].
    all: rewrite totalActions_fieldSum.
    all: destruct (Spec.fieldSum s =? 0)%Z eqn:E; [right; left; reflexivity|].
    all: apply Z.eqb_neq in E.
    all: right; right; right.
    + exists records, s. destruct (Hnormal records s) as (advice & Ha).
      rewrite Ha. now repeat split.
    + exists (parseAdviceCsv csvText), s.
      destruct (Hnormal (parseAdviceCsv csvText) s) as (advice & Ha).
      rewrite Ha. now repeat split.
  - intros e cache' H. unfold generateDetailedAdvice. now rewrite H.
Qed.

(* ================================================================== *)
(** * Further properties of the service *)

(** ** The evaluator, beyond numeric right operands *)

Lemma own_field_not_numeric :
  forall key field, In (key, field) ownFields -> isNaN (Number key) = true.
Proof.
  intros key field H. unfold ownFields in H. cbn [In] in H.
  repeat (destruct H as [H|H]; [injection H as <- <-; reflexivity|]).
  contradiction.
Qed.

(** X1.  A criteria that compares two counters evaluates to the comparison of
    their values. *)
Theorem evaluateCriteria_two_counters :
  forall summary key1 field1 key2 field2 op,
    In (key1, field1) ownFields ->
    In (key2, field2) ownFields ->
    (evaluateCriteria (key1 ++ " " ++ Spec.symbol op ++ " " ++ key2) summary = true
     <-> holdsBetween op (field1 summary) (field2 summary)).
Proof.
  intros summary key1 field1 key2 field2 op H1 H2.
  destruct (own_field_facts _ _ H1) as (Htrim1 & Hspace1 & Hown1).
  destruct (own_field_facts _ _ H2) as (Htrim2 & Hspace2 & Hown2).
  destruct (own_field_valid summary _ _ Hown1) as (Hvalid1 & Hget1).
  destruct (own_field_valid summary _ _ Hown2) as (Hvalid2 & Hget2).
  destruct (symbol_facts op) as (Hop & Hopspace).
  pose proof (own_field_not_numeric _ _ H2) as Hnan.
  unfold evaluateCriteria.
  rewrite spaced_not_trivial by apply containsChar_app_sep.
  rewrite split_three by assumption.
  cbn [map]. rewrite Htrim1, Htrim2, Hop, Hvalid1, Hget1, Hnan, Hvalid2, Hget2.
  cbn [negb]. rewrite <- holds_ofInt.
  rewrite <- (compare_holds op (field1 summary) (ofInt (field2 summary)) eq_refl).
  destruct op; reflexivity.
Qed.

Lemma evaluateCriteria_two_counters_witness :
  In ("goodThoughts", goodThoughts) ownFields
  /\ In ("badThoughts", badThoughts) ownFields
  /\ (evaluateCriteria ("goodThoughts" ++ " " ++ Spec.symbol Spec.Gt ++ " " ++ "badThoughts")
        Sample.summary = true
      <-> holdsBetween Spec.Gt (goodThoughts Sample.summary) (badThoughts Sample.summary)).
Proof.
  assert (H1 : In ("goodThoughts", goodThoughts) ownFields) by (left; reflexivity).
  assert (H2 : In ("badThoughts", badThoughts) ownFields) by (right; left; reflexivity).
  refine (conj H1 (conj H2 _)).
  exact (evaluateCriteria_two_counters Sample.summary _ _ _ _ Spec.Gt H1 H2).
Defined.

Lemma lookupOwn_fieldNames :
  forall key field, lookupOwn key = Some field -> In key Spec.fieldNames.
Proof.
  intros key field H. unfold lookupOwn in H.
  destruct (find (fun f => (fst f =? key)%string) ownFields) as [f|] eqn:E;
    [|discriminate].
  apply find_some in E as [Hin Heq]. apply String.eqb_eq in Heq. subst key.
  now apply in_map.
Qed.

Lemma inherited_not_number :
  forall m, toNumber (toPrimitive (VInherited m)) = NaN.
Proof. intros []; reflexivity. Qed.

(** An inherited member never compares with a number, on either side. *)
Lemma inherited_against_number :
  forall op m y,
    (match op with
     | Spec.Gt => gt | Spec.Lt => lt | Spec.Ge => ge | Spec.Le => le
     | Spec.Eq => looseEq
     end (VInherited m) (VNumber y)) = false
    /\ (match op with
        | Spec.Gt => gt | Spec.Lt => lt | Spec.Ge => ge | Spec.Le => le
        | Spec.Eq => looseEq
        end (VNumber y) (VInherited m)) = false.
Proof.
  intros op m y. pose proof (inherited_not_number m) as Hnan.
  cbn [toPrimitive toNumber] in Hnan.
  destruct op; unfold gt, lt, ge, le, looseEq, isLessThan;
    cbn [toPrimitive toNumber]; rewrite Hnan; destruct y; split; reflexivity.
Qed.

(** X2.  Every criteria that matches is empty, the sentinel, or three parts
    around single spaces: an operator among the five between a counter and
    a number or a counter, or else between two names inherited from
    [Object.prototype].  Nothing else ever matches. *)
Theorem evaluateCriteria_match_shape :
  forall criteria summary,
    evaluateCriteria criteria summary = true ->
    criteria = "" \/ criteria = "ALWAYS_MATCH"
    \/ exists left operator right,
        map trim (split " " criteria) = [left; operator; right]
        /\ In operator Spec.operators
        /\ ((In left Spec.fieldNames
             /\ (isNaN (Number right) = false \/ In right Spec.fieldNames))
            \/ (lookupInherited left <> None /\ lookupInherited right <> None
                /\ isNaN (Number right) = true)).
Proof.
  intros c summary H. unfold evaluateCriteria in H.
  destruct (c =? "ALWAYS_MATCH")%string eqn:E1;
    [apply String.eqb_eq in E1; tauto|].
  destruct (c =? "")%string eqn:E2; [apply String.eqb_eq in E2; tauto|].
  cbn [orb] in H. right. right.
  destruct (map trim (split " " c)) as [|l [|o [|r [|x xs]]]]; try discriminate H.
  exists l, o, r. split; [reflexivity|].
  unfold isValidKey, hasProperty, getProperty in H.
  assert (Hcases :
            forall lv rv,
              (if (o =? ">")%string then gt lv rv
               else if (o =? "<")%string then lt lv rv
               else if (o =? ">=")%string then ge lv rv
               else if (o =? "<=")%string then le lv rv
               else if (o =? "==")%string then looseEq lv rv
               else false) = true ->
              In o Spec.operators
              /\ (forall m y, lv = VInherited m -> rv = VNumber y -> False)
              /\ (forall m y, lv = VNumber y -> rv = VInherited m -> False)).
  { intros lv rv Hsw. apply switch_true in Hsw as (op & -> & Hcmp).
    split; [destruct op; cbn; tauto|]. split; intros m y -> ->.
    - rewrite (proj1 (inherited_against_number op m y)) in Hcmp. discriminate.
    - rewrite (proj2 (inherited_against_number op m y)) in Hcmp. discriminate. }
  destruct (lookupOwn l) as [fl|] eqn:El.
  - pose proof (lookupOwn_fieldNames _ _ El) as Hl. cbn [negb] in H.
    destruct (isNaN (Number r)) eqn:En; cbn [negb] in H.
    + destruct (lookupOwn r) as [fr|] eqn:Er.
      * pose proof (lookupOwn_fieldNames _ _ Er) as Hr.
        apply Hcases in H as (Ho & _). tauto.
      * destruct (lookupInherited r) as [m|]; [|discriminate H].
        apply Hcases in H as (_ & _ & Hno). exfalso. eapply Hno; reflexivity.
    + apply Hcases in H as (Ho & _). tauto.
  - destruct (lookupInherited l) as [ml|] eqn:Eml; [|discriminate H].
    cbn [negb] in H.
    destruct (isNaN (Number r)) eqn:En; cbn [negb] in H.
    + destruct (lookupOwn r) as [fr|] eqn:Er.
      * apply Hcases in H as (_ & Hno & _). exfalso. eapply Hno; reflexivity.
      * destruct (lookupInherited r) as [mr|]; [|discriminate H].
        apply Hcases in H as (Ho & _).
        split; [exact Ho|]. right. repeat split; discriminate.
    + apply Hcases in H as (_ & Hno & _). exfalso. eapply Hno; reflexivity.
Qed.

Lemma evaluateCriteria_match_shape_witness :
  evaluateCriteria "goodThoughts >= 3" Sample.summary = true
  /\ ("goodThoughts >= 3" = "" \/ "goodThoughts >= 3" = "ALWAYS_MATCH"
      \/ exists left operator right,
          map trim (split " " "goodThoughts >= 3") = [left; operator; right]
          /\ In operator Spec.operators
          /\ ((In left Spec.fieldNames
               /\ (isNaN (Number right) = false \/ In right Spec.fieldNames))
              \/ (lookupInherited left <> None /\ lookupInherited right <> None
                  /\ isNaN (Number right) = true))).
Proof.
  assert (H : evaluateCriteria "goodThoughts >= 3" Sample.summary = true) by reflexivity.
  refine (conj H _).
  exact (evaluateCriteria_match_shape _ _ H).
Defined.

(** ** The random pick *)



(** ** Reading a row of the sheet *)

Lemma map_stripQuotes_clean :
  forall fields, Forall cleanField fields -> map stripQuotes fields = fields.
Proof.
  intros fields H. induction H as [|f fs [Hq _] _ IH]; [reflexivity|].
  cbn [map]. now rewrite stripQuotes_without, IH.
Qed.

(** Without quotes the loop cuts at every comma. *)
Lemma parseCsvRowLoop_unquoted :
  forall row result current,
    containsChar quoteChar row = false ->
    parseCsvRowLoop row result current false
    = (result ++ match split "," row with
                 | p :: ps => trim (current ++ p) :: map trim ps
                 | [] => []
                 end)%list.
Proof.
  induction row as [|c rest IH]; intros result current Hq.
  - cbn. now rewrite append_nil_r.
  - cbn [containsChar] in Hq. apply orb_false_iff in Hq as [Hc Hrest].
    cbn [parseCsvRowLoop split]. rewrite Hc. cbn [negb]. rewrite andb_true_r.
    destruct (Ascii.eqb c ",").
    + rewrite (IH _ _ Hrest). rewrite append_nil_r, <- app_assoc. cbn [app].
      pose proof (split_not_nil "," rest) as Hne.
      destruct (split "," rest) as [|p ps]; [contradiction | reflexivity].
    + rewrite (IH _ _ Hrest).
      pose proof (split_not_nil "," rest) as Hne.
      destruct (split "," rest) as [|p ps]; [contradiction|].
      now rewrite append_assoc.
Qed.

(** Between quotes every character but a quote is kept. *)
Lemma parseCsvRowLoop_quoted_run :
  forall field rest result current,
    containsChar quoteChar field = false ->
    parseCsvRowLoop (field ++ rest) result current true
    = parseCsvRowLoop rest result (current ++ field) true.
Proof.
  induction field as [|c field IH]; intros rest result current Hq.
  - cbn. now rewrite append_nil_r.
  - cbn [containsChar] in Hq. apply orb_false_iff in Hq as [Hc Hfield].
    cbn [append parseCsvRowLoop]. rewrite Hc. cbn [negb]. rewrite andb_false_r.
    rewrite (IH _ _ _ Hfield), append_assoc. reflexivity.
Qed.

Lemma parseCsvRowLoop_quoted_field :
  forall field rest result,
    containsChar quoteChar field = false ->
    parseCsvRowLoop (csvQuote field ++ rest) result EmptyString false
    = parseCsvRowLoop rest result field false.
Proof.
  intros field rest result Hq. unfold csvQuote.
  cbn [append]. rewrite append_assoc. cbn [append parseCsvRowLoop].
  rewrite Ascii.eqb_refl. cbn [negb].
  rewrite (parseCsvRowLoop_quoted_run _ _ _ _ Hq).
  cbn [append parseCsvRowLoop]. now rewrite Ascii.eqb_refl.
Qed.

Lemma parseCsvRowLoop_quoted_fields :
  forall fields field result,
    Forall cleanField (field :: fields) ->
    parseCsvRowLoop (joinComma (map csvQuote (field :: fields))) result EmptyString false
    = (result ++ field :: fields)%list.
Proof.
  induction fields as [|g gs IH]; intros f result Hclean;
    inversion Hclean as [|? ? [Hq Ht] Hrest]; subst.
  - cbn [map joinComma]. rewrite <- (append_nil_r (csvQuote f)).
    rewrite (parseCsvRowLoop_quoted_field _ _ _ Hq). cbn. now rewrite Ht.
  - change (joinComma (map csvQuote (f :: g :: gs)))
      with (csvQuote f ++ String "," (joinComma (map csvQuote (g :: gs)))).
    rewrite (parseCsvRowLoop_quoted_field _ _ _ Hq).
    cbn [parseCsvRowLoop].
    replace (Ascii.eqb "," quoteChar) with false by reflexivity.
    rewrite Ascii.eqb_refl. cbn [negb andb].
    rewrite (IH g _ Hrest), Ht, <- app_assoc. reflexivity.
Qed.

(** X4.  The fields of a row never hold a quote and are trimmed; there is at
    least one; and a row without quotes is cut at each of its commas. *)
Theorem parseCsvRow_fields :
  forall row,
    Forall cleanField (parseCsvRow row)
    /\ parseCsvRow row <> []
    /\ (containsChar quoteChar row = false ->
        parseCsvRow row = map trim (split "," row)).
Proof.
  intros row.
  assert (Hplain : containsChar quoteChar row = false ->
                   parseCsvRow row = map trim (split "," row)).
  { intros Hq. unfold parseCsvRow.
    rewrite map_stripQuotes_clean
      by apply (parseCsvRowLoop_clean row [] EmptyString false (Forall_nil _) eq_refl).
    rewrite (parseCsvRowLoop_unquoted _ _ _ Hq). cbn [app append].
    pose proof (split_not_nil "," row) as Hne.
    destruct (split "," row) as [|p ps]; [contradiction | reflexivity]. }
  split; [apply parseCsvRow_clean|]. split; [|exact Hplain].
  clear Hplain. unfold parseCsvRow. intros Hnil. apply map_eq_nil in Hnil.
  revert Hnil. generalize (@nil string) at 1. generalize EmptyString. generalize false.
  induction row as [|c rest IH]; intros b cur res; cbn [parseCsvRowLoop].
  - destruct res; discriminate.
  - destruct (Ascii.eqb c quoteChar); [apply IH|].
    destruct (Ascii.eqb c "," && negb b); apply IH.
Qed.

Lemma parseCsvRow_fields_witness :
  containsChar quoteChar "tip, x ,Breathe." = false
  /\ parseCsvRow "tip, x ,Breathe." = map trim (split "," "tip, x ,Breathe.").
Proof.
  assert (H : containsChar quoteChar "tip, x ,Breathe." = false) by reflexivity.
  refine (conj H _).
  exact (proj2 (proj2 (parseCsvRow_fields "tip, x ,Breathe.")) H).
Defined.

(** X5.  Written between quotes and joined with commas, fields that hold no
    quote and no surrounding white space are read back as they are, commas
    inside them included. *)
Theorem parseCsvRow_quoted_round_trip :
  forall fields,
    fields <> [] ->
    Forall cleanField fields ->
    parseCsvRow (joinComma (map csvQuote fields)) = fields.
Proof.
  intros [|f fs] Hne Hclean; [contradiction|].
  unfold parseCsvRow.
  rewrite (parseCsvRowLoop_quoted_fields fs f [] Hclean). cbn [app].
  now apply map_stripQuotes_clean.
Qed.

Lemma parseCsvRow_quoted_round_trip_witness :
  ["good"; "balance"; "Great job, keep it up"; "ALWAYS_MATCH"] <> []
  /\ Forall cleanField ["good"; "balance"; "Great job, keep it up"; "ALWAYS_MATCH"]
  /\ parseCsvRow
       (joinComma (map csvQuote ["good"; "balance"; "Great job, keep it up"; "ALWAYS_MATCH"]))
     = ["good"; "balance"; "Great job, keep it up"; "ALWAYS_MATCH"].
Proof.
  assert (H1 : ["good"; "balance"; "Great job, keep it up"; "ALWAYS_MATCH"] <> [])
    by discriminate.
  assert (H2 : Forall cleanField
                 ["good"; "balance"; "Great job, keep it up"; "ALWAYS_MATCH"]).
  { repeat constructor. }
  refine (conj H1 (conj H2 _)).
  exact (parseCsvRow_quoted_round_trip _ H1 H2).
Defined.

(** ** The header line *)

Lemma mapButLast_cons :
  forall (A : Type) (f : A -> A) x l,
    l <> [] -> mapButLast f (x :: l) = f x :: mapButLast f l.
Proof. intros A f x [|y l] H; [contradiction | reflexivity]. Qed.

(** X6.  The first line of the sheet is dropped whatever it holds, and a sheet
    of one line gives no record. *)
Theorem header_line_dropped :
  forall header body,
    containsChar (ascii_of_nat 10) header = false ->
    parseAdviceCsv (header ++ LF ++ body) = flat_map rowRecords (splitLines body)
    /\ parseAdviceCsv header = [].
Proof.
  intros header body Hlf. unfold parseAdviceCsv, splitLines. split.
  - change (header ++ LF ++ body) with (header ++ String (ascii_of_nat 10) body).
    rewrite split_app, (split_without _ _ Hlf). cbn [app].
    rewrite mapButLast_cons by apply split_not_nil. cbn [tl].
    now rewrite parseAdviceRows_flat_map.
  - now rewrite (split_without _ _ Hlf).
Qed.

Lemma header_line_dropped_witness :
  containsChar (ascii_of_nat 10) "tip,x,Breathe.,ALWAYS_MATCH" = false
  /\ parseAdviceCsv ("tip,x,Breathe.,ALWAYS_MATCH" ++ LF ++ "tip,x,Breathe.,ALWAYS_MATCH")
     = flat_map rowRecords (splitLines "tip,x,Breathe.,ALWAYS_MATCH")
  /\ parseAdviceCsv "tip,x,Breathe.,ALWAYS_MATCH" = [].
Proof.
  assert (H : containsChar (ascii_of_nat 10) "tip,x,Breathe.,ALWAYS_MATCH" = false)
    by reflexivity.
  refine (conj H _).
  exact (header_line_dropped "tip,x,Breathe.,ALWAYS_MATCH" "tip,x,Breathe.,ALWAYS_MATCH" H).
Defined.

(** ** Global replacement *)

Lemma prefix_cons_inv :
  forall a p b s, prefix (String a p) (String b s) = true -> a = b /\ prefix p s = true.
Proof.
  intros a p b s H. cbn in H. destruct (ascii_dec a b); [now split | discriminate].
Qed.

Lemma prefix_cons_same : forall a p s, prefix (String a p) (String a s) = prefix p s.
Proof. intros a p s. cbn. destruct (ascii_dec a a); [reflexivity | contradiction]. Qed.

Lemma containsChar_app :
  forall x a b, containsChar x (a ++ b) = containsChar x a || containsChar x b.
Proof.
  intros x a b. induction a as [|c a IH]; cbn; [reflexivity|].
  now rewrite IH, orb_assoc.
Qed.

Lemma includes_rest :
  forall c s p, includes (String c s) p = false -> includes s p = false.
Proof. intros c s p H. cbn [includes] in H. now apply orb_false_iff in H. Qed.

Section ReplaceAllFacts.

Variables pat r : string.

Hypothesis r_not_empty : r <> EmptyString.

Lemma apartFrom_tail : forall a p, apartFrom r (String a p) -> apartFrom r p.
Proof. intros a p H c Hc. apply (containsChar_tail c a). now apply H. Qed.

Lemma apartFrom_head : forall a p, apartFrom r (String a p) -> containsChar a r = false.
Proof.
  intros a p H. destruct (containsChar a r) eqn:E; [|reflexivity].
  specialize (H a E). cbn in H. now rewrite Ascii.eqb_refl in H.
Qed.

Lemma includes_after_replacement :
  forall t a p, containsChar a r = false ->
                includes (r ++ t) (String a p) = includes t (String a p).
Proof.
  intros t a p. clear r_not_empty. induction r as [|b r' IH]; intros Ha; [reflexivity|].
  cbn [containsChar] in Ha. apply orb_false_iff in Ha as [Hb Hr'].
  cbn [append includes]. rewrite (IH Hr').
  destruct (prefix (String a p) (String b (r' ++ t))) eqn:E; [|reflexivity].
  apply prefix_cons_inv in E as [-> _]. now rewrite Ascii.eqb_refl in Hb.
Qed.

(** Where the output starts with [p], the input did. *)
Lemma prefix_through_replaceAll :
  forall s p, apartFrom r p -> prefix p (replaceAllFrom pat r s 0) = true -> prefix p s = true.
Proof.
  induction s as [|c rest IH]; intros p Hp H; [exact H|].
  destruct p as [|a p']; [reflexivity|].
  cbn [replaceAllFrom] in H.
  destruct (prefix pat (String c rest)).
  - exfalso. pose proof (apartFrom_head _ _ Hp) as Ha.
    destruct r as [|b r']; [now apply r_not_empty|].
    cbn [append] in H. apply prefix_cons_inv in H as [-> _].
    cbn in Ha. now rewrite Ascii.eqb_refl in Ha.
  - apply prefix_cons_inv in H as [-> H]. rewrite prefix_cons_same.
    apply IH; [|exact H]. exact (apartFrom_tail c p' Hp).
Qed.

(** After the replacement the pattern is gone, and no other pattern that
    is apart from the replacement has appeared. *)
Lemma replaceAllFrom_no_occurrence :
  forall p, p <> EmptyString -> apartFrom r p ->
            forall s inside,
              p = pat \/ includes s p = false ->
              includes (replaceAllFrom pat r s inside) p = false.
Proof.
  intros p Hne Hp. destruct p as [|a p']; [contradiction|].
  induction s as [|c rest IH]; intros inside Hor; [reflexivity|].
  assert (Hor' : String a p' = pat \/ includes rest (String a p') = false).
  { destruct Hor as [H|H]; [now left | right; now apply includes_rest in H]. }
  cbn [replaceAllFrom]. destruct inside as [|k]; [|now apply IH].
  destruct (prefix pat (String c rest)) eqn:Epat.
  - rewrite includes_after_replacement by exact (apartFrom_head a p' Hp).
    now apply IH.
  - cbn [includes]. rewrite (IH 0%nat Hor'), orb_false_r.
    destruct (prefix (String a p') (String c (replaceAllFrom pat r rest 0))) eqn:E;
      [|reflexivity].
    apply prefix_cons_inv in E as [-> E].
    apply prefix_through_replaceAll in E; [|exact (apartFrom_tail c p' Hp)].
    assert (Hin : prefix (String c p') (String c rest) = true)
      by now rewrite prefix_cons_same.
    destruct Hor as [H|H].
    + rewrite <- H in Epat. congruence.
    + cbn [includes] in H. rewrite Hin in H. discriminate H.
Qed.

(** A character that is not in the pattern survives the replacement. *)
Lemma replaceAllFrom_keeps_char :
  forall x, containsChar x pat = false -> pat <> EmptyString ->
            forall s q,
              prefix q s = true -> containsChar x q = false ->
              containsChar x s = true ->
              containsChar x (replaceAllFrom pat r s (String.length q)) = true.
Proof.
  intros x Hx Hpat. induction s as [|c rest IH]; intros q Hq Hxq Hs; [discriminate Hs|].
  destruct q as [|b q'].
  - cbn [String.length replaceAllFrom].
    destruct (prefix pat (String c rest)) eqn:Epat.
    + destruct pat as [|a pat'] eqn:E; [contradiction|].
      apply prefix_cons_inv in Epat as [-> Epat].
      cbn [String.length Nat.pred]. rewrite containsChar_app.
      cbn [containsChar] in Hx, Hs. apply orb_false_iff in Hx as [Hc Hpat'].
      rewrite Hc in Hs. cbn [orb] in Hs.
      rewrite (IH pat' Epat Hpat' Hs). apply orb_true_r.
    + cbn [containsChar] in *. destruct (Ascii.eqb c x); [reflexivity|].
      cbn [orb] in *. apply (IH EmptyString); [now destruct rest | reflexivity | exact Hs].
  - apply prefix_cons_inv in Hq as [-> Hq].
    cbn [String.length replaceAllFrom].
    cbn [containsChar] in Hxq, Hs. apply orb_false_iff in Hxq as [Hc Hq'].
    rewrite Hc in Hs. cbn [orb] in Hs. now apply IH.
Qed.

End ReplaceAllFacts.

(** ** The text of a composed advice *)

Lemma containsChar_cons :
  forall c d s, containsChar c (String d s) = Ascii.eqb d c || containsChar c s.
Proof. reflexivity. Qed.

Lemma string_of_uint_digits :
  forall d c,
    containsChar c (NilEmpty.string_of_uint d) = true ->
    containsChar c "-0123456789" = true.
Proof.
  induction d; intros c H; cbn [NilEmpty.string_of_uint] in H;
    try discriminate H;
    rewrite containsChar_cons in H;
    apply orb_true_iff in H as [H|H]; try (now apply IHd);
    apply Ascii.eqb_eq in H; subst c; reflexivity.
Qed.

Lemma ofZ_chars :
  forall z c, containsChar c (ofZ z) = true -> containsChar c "-0123456789" = true.
Proof.
  intros z c H. unfold ofZ, NilZero.string_of_int in H.
  assert (Hu : forall d, containsChar c (NilZero.string_of_uint d) = true ->
                         containsChar c "-0123456789" = true).
  { intros d Hd. unfold NilZero.string_of_uint in Hd.
    destruct d; cbv beta iota in Hd;
      try (apply string_of_uint_digits in Hd; exact Hd).
    rewrite containsChar_cons in Hd.
    apply orb_true_iff in Hd as [Hd|Hd]; [|discriminate Hd].
    apply Ascii.eqb_eq in Hd. subst c. reflexivity. }
  destruct (Z.to_int z) as [d|d]; cbv beta iota in H; [exact (Hu d H)|].
  rewrite containsChar_cons in H. apply orb_true_iff in H as [H|H]; [|exact (Hu d H)].
  apply Ascii.eqb_eq in H. subst c. reflexivity.
Qed.

Lemma ofZ_not_empty : forall z, ofZ z <> EmptyString.
Proof.
  intros z. unfold ofZ, NilZero.string_of_int.
  destruct (Z.to_int z) as [d|d]; [|discriminate].
  destruct d; discriminate.
Qed.

(** The numbers written by [String(n)] share no character with a
    placeholder. *)
Lemma placeholder_apart :
  forall z p, In p placeholders -> apartFrom (ofZ z) p /\ p <> EmptyString.
Proof.
  intros z p Hin. split.
  - intros c Hc. apply ofZ_chars in Hc.
    repeat (rewrite containsChar_cons in Hc; apply orb_true_iff in Hc as [Hc|Hc];
            [apply Ascii.eqb_eq in Hc; subst c;
             cbn in Hin; repeat (destruct Hin as [<-|Hin]; [reflexivity|]);
             contradiction|]).
    discriminate Hc.
  - cbn in Hin. repeat (destruct Hin as [<-|Hin]; [discriminate|]). contradiction.
Qed.

Ltac replaced_layers :=
  unfold replaceAll;
  apply replaceAllFrom_no_occurrence;
  [ apply ofZ_not_empty
  | discriminate
  | match goal with
    | Hp : In _ placeholders |- _ => exact (proj1 (placeholder_apart _ _ Hp))
    end
  | first [ left; reflexivity | right; replaced_layers ] ].

Lemma substitutePlaceholders_no_placeholder :
  forall summary advice p,
    In p placeholders -> includes (substitutePlaceholders summary advice) p = false.
Proof.
  intros summary advice p Hin. unfold substitutePlaceholders.
  pose proof Hin as Hp. cbn in Hin.
  repeat (destruct Hin as [<-|Hin]; [replaced_layers|]).
  contradiction.
Qed.

Lemma replaceAll_keeps_newline :
  forall pat r s,
    containsChar (ascii_of_nat 10) pat = false -> pat <> EmptyString ->
    containsChar (ascii_of_nat 10) s = true ->
    containsChar (ascii_of_nat 10) (replaceAll pat r s) = true.
Proof.
  intros pat r s Hpat Hne Hs. unfold replaceAll.
  apply (replaceAllFrom_keeps_char pat r _ Hpat Hne s EmptyString);
    [now destruct s | reflexivity | exact Hs].
Qed.

Lemma substitutePlaceholders_keeps_newline :
  forall summary advice,
    containsChar (ascii_of_nat 10) advice = true ->
    containsChar (ascii_of_nat 10) (substitutePlaceholders summary advice) = true.
Proof.
  intros summary advice H. unfold substitutePlaceholders.
  repeat (apply replaceAll_keeps_newline; [reflexivity | discriminate |]).
  exact H.
Qed.

(** A composed advice holds a line feed, which no fixed message does. *)
Lemma composeAdvice_not_fixed :
  forall records summary periodLabel rng advice,
    composeAdvice records summary periodLabel rng = Normal advice ->
    ~ In advice fixedMessages.
Proof.
  intros records summary periodLabel rng advice H.
  destruct (composeAdvice_normal records summary periodLabel rng)
    as (intro & rng1 & rest & _ & Hc).
  assert (Hlf : containsChar (ascii_of_nat 10) advice = true).
  { assert (Hadv : substitutePlaceholders summary
                     (intro ++ STRENGTH_HEADING
                        ++ fst (strengthEntry records summary rng1) ++ rest) = advice)
      by congruence.
    rewrite <- Hadv. apply substitutePlaceholders_keeps_newline.
    rewrite !containsChar_app.
    replace (containsChar (ascii_of_nat 10) STRENGTH_HEADING) with true by reflexivity.
    cbn [orb]. apply orb_true_r. }
  intros Hin. cbn [fixedMessages In] in Hin.
  destruct Hin as [E|[E|[E|[]]]]; rewrite <- E in Hlf; discriminate Hlf.
Qed.

(** X7.  No placeholder of the eight counters is left in a composed advice,
    whatever the texts of the records. *)
Theorem composed_advice_no_placeholder :
  forall records summary periodLabel rng advice,
    composeAdvice records summary periodLabel rng = Normal advice ->
    Forall (fun p => includes advice p = false) placeholders.
Proof.
  intros records summary periodLabel rng advice H.
  destruct (composeAdvice_normal records summary periodLabel rng)
    as (intro & rng1 & rest & _ & Hc).
  assert (Hadv : substitutePlaceholders summary
                   (intro ++ STRENGTH_HEADING
                      ++ fst (strengthEntry records summary rng1) ++ rest) = advice)
    by congruence.
  rewrite <- Hadv. apply Forall_forall. intros p Hp.
  now apply substitutePlaceholders_no_placeholder.
Qed.

Lemma composed_advice_no_placeholder_witness :
  composeAdvice [Sample.tipX] Sample.summary "오늘" Sample.rng
  = Normal (STRENGTH_HEADING ++ STRENGTH_ENCOURAGEMENT ++ TIPS_HEADING
              ++ "1. Breathe." ++ LF ++ LF)
  /\ Forall (fun p => includes (STRENGTH_HEADING ++ STRENGTH_ENCOURAGEMENT ++ TIPS_HEADING
                                  ++ "1. Breathe." ++ LF ++ LF) p = false) placeholders.
Proof.
  assert (H : composeAdvice [Sample.tipX] Sample.summary "오늘" Sample.rng
              = Normal (STRENGTH_HEADING ++ STRENGTH_ENCOURAGEMENT ++ TIPS_HEADING
                          ++ "1. Breathe." ++ LF ++ LF)) by reflexivity.
  refine (conj H _).
  exact (composed_advice_no_placeholder _ _ _ _ _ H).
Defined.

(** ** What the returned string tells *)

Lemma fixedMessages_distinct :
  MSG_DATA_UNAVAILABLE <> MSG_NO_ACTIVITY
  /\ MSG_DATA_UNAVAILABLE <> MSG_GENERATION_FAILED
  /\ MSG_NO_ACTIVITY <> MSG_GENERATION_FAILED.
Proof. repeat split; cbv; discriminate. Qed.

(** The four ways a call ends. *)
Lemma generateDetailedAdvice_cases :
  forall summary periodLabel cache outcome rng,
    (loadFails cache outcome
     /\ fst (generateDetailedAdvice summary periodLabel cache outcome rng)
        = MSG_GENERATION_FAILED)
    \/ (~ loadFails cache outcome /\ summary = None
        /\ fst (generateDetailedAdvice summary periodLabel cache outcome rng)
           = MSG_DATA_UNAVAILABLE)
    \/ (~ loadFails cache outcome
        /\ (exists s, summary = Some s /\ Spec.fieldSum s = 0%Z)
        /\ fst (generateDetailedAdvice summary periodLabel cache outcome rng)
           = MSG_NO_ACTIVITY)
    \/ (~ loadFails cache outcome
        /\ (exists s, summary = Some s /\ Spec.fieldSum s <> 0%Z)
        /\ ~ In (fst (generateDetailedAdvice summary periodLabel cache outcome rng))
             fixedMessages).
Proof.
  intros summary periodLabel cache outcome rng.
  assert (Hloaded :
            forall records,
              snd (fetchAndParseAdviceData cache outcome) = Some records
              \/ cache = Some records ->
              ~ loadFails cache outcome).
  { intros records [H|H] [Hnone Hout]; subst cache; [|discriminate].
    destruct outcome; try discriminate H. now apply (Hout csvText). }
  unfold generateDetailedAdvice, adviceAttempt.
  destruct cache as [records|].
  - assert (Hok : ~ loadFails (Some records) outcome) by (intros [H _]; discriminate).
    right. cbv beta iota zeta.
    destruct summary as [s|]; [|left; now repeat split].
    right. rewrite totalActions_fieldSum.
    destruct (Spec.fieldSum s =? 0)%Z eqn:E.
    + apply Z.eqb_eq in E. left. repeat split; eauto.
    + apply Z.eqb_neq in E. right. split; [exact Hok|]. split; [eauto|].
      destruct (composeAdvice records s periodLabel rng) as [advice|e] eqn:Ec.
      * cbn [fst]. now apply composeAdvice_not_fixed in Ec.
      * destruct (composeAdvice_normal records s periodLabel rng) as (i & r & t & _ & H).
        congruence.
  - destruct outcome as [| | |csvText];
      try (left; split; [split; [reflexivity | discriminate] | reflexivity]).
    assert (Hok : ~ loadFails None (ResponseOk csvText)).
    { intros [_ H]. now apply (H csvText). }
    right. unfold fetchAndParseAdviceData. cbv beta iota zeta.
    destruct summary as [s|]; [|left; now repeat split].
    right. rewrite totalActions_fieldSum.
    destruct (Spec.fieldSum s =? 0)%Z eqn:E.
    + apply Z.eqb_eq in E. left. repeat split; eauto.
    + apply Z.eqb_neq in E. right. split; [exact Hok|]. split; [eauto|].
      destruct (composeAdvice (parseAdviceCsv csvText) s periodLabel rng)
        as [advice|e] eqn:Ec.
      * cbn [fst]. now apply composeAdvice_not_fixed in Ec.
      * destruct (composeAdvice_normal (parseAdviceCsv csvText) s periodLabel rng)
          as (i & r & t & _ & H).
        congruence.
Qed.

(** X8.  Each fixed message has one cause: the generation-failed message is
    returned exactly when the request of the call fails; the
    data-unavailable message exactly when the request does not fail and
    the summary is null; the no-activity message exactly when the request
    does not fail and the counters of the summary sum to zero.  A composed
    advice is never mistaken for one of them. *)
Theorem fixed_message_cause :
  forall summary periodLabel cache outcome rng,
    (fst (generateDetailedAdvice summary periodLabel cache outcome rng)
     = MSG_GENERATION_FAILED
     <-> loadFails cache outcome)
    /\ (fst (generateDetailedAdvice summary periodLabel cache outcome rng)
        = MSG_DATA_UNAVAILABLE
        <-> ~ loadFails cache outcome /\ summary = None)
    /\ (fst (generateDetailedAdvice summary periodLabel cache outcome rng)
        = MSG_NO_ACTIVITY
        <-> ~ loadFails cache outcome
            /\ exists s, summary = Some s /\ Spec.fieldSum s = 0%Z).
Proof.
  intros summary periodLabel cache outcome rng.
  destruct fixedMessages_distinct as (D1 & D2 & D3).
  destruct (generateDetailedAdvice_cases summary periodLabel cache outcome rng)
    as [[Hf E]|[(Hok & Hs & E)|[(Hok & (s & Hs & Hz) & E)|(Hok & (s & Hs & Hz) & Hno)]]].
  - rewrite E.
    split; [tauto|].
    split; (split; [intros H; exfalso; congruence | tauto]).
  - rewrite E. subst summary.
    split; [split; [intros H; exfalso; congruence | tauto]|].
    split; [tauto|].
    split; [intros H; exfalso; congruence|].
    intros [_ (s & Hs & _)]. discriminate Hs.
  - rewrite E. subst summary.
    split; [split; [intros H; exfalso; congruence | tauto]|].
    split; [|split; eauto].
    split; [intros H; exfalso; congruence|].
    intros [_ H]. discriminate H.
  - subst summary. cbn [fixedMessages In] in Hno.
    split; [split; [intros H; exfalso; apply Hno; auto | tauto]|].
    split; split.
    + intros H. exfalso. apply Hno. auto.
    + intros [_ H]. discriminate H.
    + intros H. exfalso. apply Hno. auto.
    + intros [_ (s' & Hs' & Hz')]. injection Hs' as <-. contradiction.
Qed.

(** ** The intro and the tips *)

Lemma findAndPick_some :
  forall records summary type_ st rng item rng',
    findAndPick records summary type_ (Some st) rng = (Some item, rng') ->
    st <> EmptyString ->
    Spec.eligible records summary type_ (Some st) item.
Proof.
  intros records summary type_ st rng item rng' H Hst.
  pose proof (findAndPick_suitable records summary type_ (Some st) rng) as Hs.
  rewrite H in Hs. cbn [fst] in Hs. apply suitable_eligible in Hs.
  destruct st; [contradiction | exact Hs].
Qed.

Lemma findAndPick_nothing :
  forall records summary type_ st rng rng',
    findAndPick records summary type_ (Some st) rng = (None, rng') ->
    st <> EmptyString ->
    forall item, ~ Spec.eligible records summary type_ (Some st) item.
Proof.
  intros records summary type_ st rng rng' H Hst item Hel.
  pose proof (findAndPick_suitable records summary type_ (Some st) rng) as Hs.
  rewrite H in Hs. cbn [fst] in Hs.
  assert (Hin : In item (suitable records summary type_ (Some st))).
  { apply suitable_eligible. destruct st; [contradiction | exact Hel]. }
  now rewrite Hs in Hin.
Qed.

Lemma periodType_values :
  forall periodLabel,
    (periodType periodLabel = "weekly" \/ periodType periodLabel = "monthly"
     \/ periodType periodLabel = "daily")
    /\ periodType periodLabel <> EmptyString.
Proof.
  intros periodLabel. unfold periodType.
  destruct (includes periodLabel "주"); [split; [tauto | discriminate]|].
  destruct (includes periodLabel "월"); split; try tauto; discriminate.
Qed.

(** X9.  The intro is taken from a suitable intro record of the period of the
    label when there is one, from a suitable [default] intro record only
    when there is none, and is empty when there is neither; a label that
    holds the week marker is weekly even if it also holds the month
    marker. *)
Theorem intro_section_cases :
  forall records summary periodLabel rng,
    (includes periodLabel "주" = true -> periodType periodLabel = "weekly")
    /\ ((exists item,
            Spec.eligible records summary "intro" (Some (periodType periodLabel)) item
            /\ fst (introSection records summary periodLabel rng)
               = replaceFirst "{periodLabel}" periodLabel (text item) ++ LF ++ LF)
        \/ ((forall item,
                ~ Spec.eligible records summary "intro"
                    (Some (periodType periodLabel)) item)
            /\ exists item,
                Spec.eligible records summary "intro" (Some "default") item
                /\ fst (introSection records summary periodLabel rng)
                   = replaceFirst "{periodLabel}" periodLabel (text item) ++ LF ++ LF)
        \/ ((forall item,
                ~ Spec.eligible records summary "intro"
                    (Some (periodType periodLabel)) item)
            /\ (forall item,
                   ~ Spec.eligible records summary "intro" (Some "default") item)
            /\ fst (introSection records summary periodLabel rng) = EmptyString)).
Proof.
  intros records summary periodLabel rng. split.
  { intros H. unfold periodType. now rewrite H. }
  destruct (periodType_values periodLabel) as [_ Hpt].
  unfold introSection.
  destruct (findAndPick records summary "intro" (Some (periodType periodLabel)) rng)
    as [[item|] rng1] eqn:E1.
  - left. exists item. split; [|reflexivity]. now apply (findAndPick_some _ _ _ _ _ _ _ E1).
  - right.
    pose proof (findAndPick_nothing _ _ _ _ _ _ E1 Hpt) as Hnone.
    destruct (findAndPick records summary "intro" (Some "default") rng1)
      as [[item|] rng2] eqn:E2.
    + left. split; [exact Hnone|]. exists item. split; [|reflexivity].
      apply (findAndPick_some _ _ _ _ _ _ _ E2). discriminate.
    + right. split; [exact Hnone|]. split; [|reflexivity].
      apply (findAndPick_nothing _ _ _ _ _ _ E2). discriminate.
Qed.

(** X10.  The tips block lists at most two tips, each the text of a tip record of
    the dataset, and at least one as soon as the dataset holds a tip record
    whose subtype is not [maintainStrengths], whatever its criteria. *)
Theorem tips_section_entries :
  forall records summary growthSubtype rng,
    exists tipsList rng',
      tipsSection records summary growthSubtype rng
      = Normal (TIPS_HEADING ++ renderTips tipsList 0 ++ LF, rng')
      /\ (List.length tipsList <= 2)%nat
      /\ Forall (fun tip => exists item,
                     In item records /\ type item = "tip" /\ text item = tip) tipsList
      /\ ((exists item,
              In item records /\ type item = "tip"
              /\ subtype item <> "maintainStrengths") ->
          tipsList <> []).
Proof.
  intros records summary growthSubtype rng.
  set (isTip := fun tip : string =>
                  exists item, In item records /\ type item = "tip" /\ text item = tip).
  assert (Hpick : forall st r item r',
             findAndPick records summary "tip" st r = (Some item, r') ->
             isTip (text item)).
  { intros st r item r' H.
    pose proof (findAndPick_suitable records summary "tip" st r) as Hs.
    rewrite H in Hs. cbn [fst] in Hs. apply suitable_eligible in Hs.
    destruct Hs as (Hin & Hty & _). exists item. now repeat split. }
  unfold tipsSection.
  set (first := match given growthSubtype with
                | Some st => _
                | None => _
                end).
  assert (Hfirst : (List.length (fst first) <= 1)%nat /\ Forall isTip (fst first)).
  { subst first. destruct (given growthSubtype) as [st|]; [|cbn; split; [lia | constructor]].
    destruct (findAndPick records summary "tip" (Some st) rng) as [[item|] r] eqn:E;
      cbn; split; try lia; repeat constructor.
    now apply (Hpick _ _ _ _ E). }
  destruct first as [tipsList rng1]. cbn [fst] in Hfirst. destruct Hfirst as [Hlen Hall].
  destruct (findAndPick records summary "tip" (Some "maintainStrengths") rng1)
    as [maintainTip rng2] eqn:Em.
  set (tipsList' := match maintainTip with Some item => _ | None => _ end).
  assert (Hsecond : (List.length tipsList' <= 2)%nat /\ Forall isTip tipsList').
  { subst tipsList'. destruct maintainTip as [item|]; [|split; [lia | exact Hall]].
    rewrite length_app. cbn. split; [lia|].
    apply Forall_app. split; [exact Hall|]. repeat constructor.
    now apply (Hpick _ _ _ _ Em). }
  clearbody tipsList'. destruct Hsecond as [Hlen' Hall'].
  destruct tipsList' as [|t ts].
  - cbn [List.length Nat.eqb].
    set (fallbackTip := filter _ records).
    assert (Hfb : forall item, In item fallbackTip ->
                               In item records /\ type item = "tip").
    { intros item Hin. subst fallbackTip. apply filter_In in Hin as [Hin Hc].
      apply andb_true_iff in Hc as [Hc _]. apply String.eqb_eq in Hc. now split. }
    assert (Hex : (exists item, In item records /\ type item = "tip"
                                /\ subtype item <> "maintainStrengths") ->
                  fallbackTip <> []).
    { intros (item & Hin & Hty & Hsub) Hnil.
      assert (Hi : In item fallbackTip).
      { subst fallbackTip. apply filter_In. split; [exact Hin|].
        apply andb_true_iff. split; [now apply String.eqb_eq|].
        apply negb_true_iff. now apply String.eqb_neq. }
      rewrite Hnil in Hi. exact Hi. }
    clearbody fallbackTip.
    destruct fallbackTip as [|x xs].
    + exists [], rng2. cbn. repeat split; try lia; [constructor|].
      intros H. now apply Hex in H.
    + cbn [List.length Nat.ltb Nat.leb].
      destruct (pickRandom_member _ (x :: xs) rng2) as (y & Hy & Hin); [discriminate|].
      destruct (pickRandom (x :: xs) rng2) as [picked rng3]. cbn [fst] in Hy. subst picked.
      exists [text y], rng3. cbn [app]. repeat split; try (cbn; lia); try discriminate.
      repeat constructor. exists y. destruct (Hfb y Hin). now repeat split.
  - cbn [List.length Nat.eqb].
    exists (t :: ts), rng2. repeat split; try assumption. discriminate.
Qed.

(* ================================================================== *)
(** * Properties of the ad service *)

Lemma parseAdRow_complete :
  forall row item, AdService.parseAdRow row = Some item -> AdService.complete item.
Proof.
  intros row item H. unfold AdService.parseAdRow in H.
  destruct (trim row =? "")%string; [discriminate|].
  destruct (nth_error (parseCsvRow row) 0) as [t|]; [|discriminate].
  destruct (nth_error (parseCsvRow row) 1) as [l|]; [|discriminate].
  destruct (present (Some t)) eqn:Pt; [|discriminate].
  destruct (present (Some l)) eqn:Pl; [|discriminate].
  injection H as <-. split; now apply present_not_empty.
Qed.

Lemma parseAdRows_complete :
  forall rows parsedAds,
    Forall AdService.complete parsedAds ->
    Forall AdService.complete (AdService.parseAdRows rows parsedAds).
Proof.
  induction rows as [|row rest IH]; intros acc Hacc; cbn [AdService.parseAdRows];
    [exact Hacc|].
  destruct (AdService.parseAdRow row) as [item|] eqn:E; [|now apply IH].
  apply IH. apply Forall_app. split; [exact Hacc|].
  constructor; [now apply (parseAdRow_complete row) | constructor].
Qed.

Lemma fallback_ads_complete :
  Forall AdService.complete AdService.FALLBACK_ADS /\ AdService.FALLBACK_ADS <> [].
Proof.
  split; [|discriminate].
  repeat constructor; cbv; discriminate.
Qed.

(** X14.  Whatever the request does, [loadAds] shows at least one ad, every ad it
    shows has a text and a link, and the cache it leaves holds only such
    ads.  What it shows is pinned down: the ads of the sheet, cached or
    just read, when there is at least one, and which it keeps in the cache;
    the four fallback ads when the sheet holds no ad or the request fails. *)
Theorem loadAds_shows_ads :
  forall cache outcome,
    AdService.cacheComplete cache ->
    fst (AdService.loadAds cache outcome) <> []
    /\ Forall AdService.complete (fst (AdService.loadAds cache outcome))
    /\ AdService.cacheComplete (snd (AdService.loadAds cache outcome))
    /\ (forall ads,
           cache = Some ads -> ads <> [] ->
           AdService.loadAds cache outcome = (ads, Some ads))
    /\ (forall csvText,
           cache = None -> outcome = ResponseOk csvText ->
           AdService.parseAdCsv csvText <> [] ->
           AdService.loadAds cache outcome
           = (AdService.parseAdCsv csvText, Some (AdService.parseAdCsv csvText)))
    /\ (cache = Some [] ->
        AdService.loadAds cache outcome = (AdService.FALLBACK_ADS, Some []))
    /\ (forall csvText,
           cache = None -> outcome = ResponseOk csvText ->
           AdService.parseAdCsv csvText = [] ->
           AdService.loadAds cache outcome = (AdService.FALLBACK_ADS, Some []))
    /\ (cache = None -> (forall csvText, outcome <> ResponseOk csvText) ->
        AdService.loadAds cache outcome = (AdService.FALLBACK_ADS, Some [])).
Proof.
  intros cache outcome Hc.
  destruct fallback_ads_complete as [Hfb Hne].
  assert (Hshown : forall ads,
             AdService.loadAds (Some ads) outcome
             = (if (0 <? List.length ads)%nat then ads else AdService.FALLBACK_ADS,
                Some ads)).
  { intros ads. unfold AdService.loadAds, AdService.fetchAds. cbv beta iota zeta.
    now destruct (0 <? List.length ads)%nat. }
  assert (Hread : forall csvText,
             AdService.loadAds None (ResponseOk csvText)
             = (if (0 <? List.length (AdService.parseAdCsv csvText))%nat
                then AdService.parseAdCsv csvText else AdService.FALLBACK_ADS,
                Some (AdService.parseAdCsv csvText))).
  { intros csvText.
    unfold AdService.loadAds, AdService.fetchAds, AdService.fetchAndParseAdData.
    cbv beta iota zeta.
    now destruct (0 <? List.length (AdService.parseAdCsv csvText))%nat. }
  assert (Hfail : (forall csvText, outcome <> ResponseOk csvText) ->
                  AdService.loadAds None outcome = (AdService.FALLBACK_ADS, Some [])).
  { intros Hno. destruct outcome; try reflexivity. now destruct (Hno csvText). }
  assert (Hparsed : forall csvText,
             Forall AdService.complete (AdService.parseAdCsv csvText)).
  { intros csvText. unfold AdService.parseAdCsv.
    apply parseAdRows_complete. constructor. }
  assert (Hpick : forall ads,
             (ads <> [] -> (if (0 <? List.length ads)%nat then ads
                            else AdService.FALLBACK_ADS) = ads)
             /\ (ads = [] -> (if (0 <? List.length ads)%nat then ads
                              else AdService.FALLBACK_ADS) = AdService.FALLBACK_ADS)).
  { intros [|a ads]; split; intros H; try reflexivity; try contradiction; discriminate. }
  assert (Hmain :
            fst (AdService.loadAds cache outcome) <> []
            /\ Forall AdService.complete (fst (AdService.loadAds cache outcome))
            /\ AdService.cacheComplete (snd (AdService.loadAds cache outcome))).
  { destruct cache as [ads|].
    - rewrite Hshown. cbn [fst snd]. destruct ads as [|a ads]; cbn.
      + repeat split; [exact Hne | exact Hfb | constructor].
      + repeat split; [discriminate | exact Hc | exact Hc].
    - destruct outcome as [| | |csvText];
        try (rewrite Hfail by discriminate; cbn [fst snd];
             repeat split; [exact Hne | exact Hfb | constructor]).
      rewrite Hread. cbn [fst snd]. pose proof (Hparsed csvText) as Hp.
      destruct (AdService.parseAdCsv csvText) as [|a ads]; cbn.
      + repeat split; [exact Hne | exact Hfb | constructor].
      + repeat split; [discriminate | exact Hp | exact Hp]. }
  destruct Hmain as (M1 & M2 & M3).
  split; [exact M1|]. split; [exact M2|]. split; [exact M3|].
  split; [|split; [|split; [|split]]].
  - intros ads -> Hads. rewrite Hshown. now rewrite (proj1 (Hpick ads) Hads).
  - intros csvText -> -> Hads. rewrite Hread. now rewrite (proj1 (Hpick _) Hads).
  - intros ->. now rewrite Hshown.
  - intros csvText -> -> Hads. rewrite Hread. now rewrite Hads.
  - intros ->. exact Hfail.
Qed.

Lemma loadAds_shows_ads_witness :
  AdService.cacheComplete None
  /\ fst (AdService.loadAds None NetworkError) <> []
  /\ Forall AdService.complete (fst (AdService.loadAds None NetworkError))
  /\ AdService.loadAds None (ResponseOk ("text,link" ++ LF ++ "Tea,https://tea.example"))
     = ([{| AdService.text := "Tea"; AdService.link := "https://tea.example" |}],
        Some [{| AdService.text := "Tea"; AdService.link := "https://tea.example" |}]).
Proof.
  assert (H : AdService.cacheComplete None) by exact I.
  assert (Hads : AdService.parseAdCsv ("text,link" ++ LF ++ "Tea,https://tea.example")
                 <> []) by (vm_compute; discriminate).
  refine (conj H (conj _ (conj _ _))).
  - exact (proj1 (loadAds_shows_ads None NetworkError H)).
  - exact (proj1 (proj2 (loadAds_shows_ads None NetworkError H))).
  - exact (proj1 (proj2 (proj2 (proj2 (proj2 (loadAds_shows_ads None _ H))))) _
             eq_refl eq_refl Hads).
Defined.

(** X13.  A failed load is handled differently by the two services.  The ad
    service caches the empty list: every later call is answered from it
    without a request, even when the sheet can be read, and [loadAds] shows
    the fallback ads.  The advice service leaves its cache null: the next
    call asks again, and loads the sheet when it can be read. *)
Theorem failed_load_retry :
  forall failure,
    (forall csvText, failure <> ResponseOk csvText) ->
    (AdService.fetchAds None failure = (Throw FetchError, Some [])
     /\ forall outcome,
         AdService.fetchAds (snd (AdService.fetchAds None failure)) outcome
         = (Normal [], Some [])
         /\ AdService.loadAds (snd (AdService.fetchAds None failure)) outcome
            = (AdService.FALLBACK_ADS, Some []))
    /\ (forall summary periodLabel rng,
           generateDetailedAdvice summary periodLabel None failure rng
           = (MSG_GENERATION_FAILED, None))
    /\ (forall summary periodLabel rng summary' periodLabel' rng' csvText,
           snd (generateDetailedAdvice summary' periodLabel'
                  (snd (generateDetailedAdvice summary periodLabel None failure rng))
                  (ResponseOk csvText) rng')
           = Some (parseAdviceCsv csvText)).
Proof.
  intros failure Hfail.
  assert (Hads : AdService.fetchAds None failure = (Throw FetchError, Some [])).
  { destruct failure; try reflexivity. now destruct (Hfail csvText). }
  assert (Hadvice : forall summary periodLabel rng,
             generateDetailedAdvice summary periodLabel None failure rng
             = (MSG_GENERATION_FAILED, None)).
  { intros. destruct failure; try reflexivity. now destruct (Hfail csvText). }
  split; [split; [exact Hads|]|split; [exact Hadvice|]].
  - intros outcome. rewrite Hads. cbn [snd]. split; reflexivity.
  - intros. rewrite Hadvice. cbn [snd].
    unfold generateDetailedAdvice, adviceAttempt, fetchAndParseAdviceData.
    cbv beta iota zeta.
    destruct summary' as [s|]; [|reflexivity].
    destruct (totalActions s =? 0)%Z; [reflexivity|].
    now destruct (composeAdvice (parseAdviceCsv csvText) s periodLabel' rng').
Qed.

Lemma failed_load_retry_witness :
  (forall csvText, NetworkError <> ResponseOk csvText)
  /\ AdService.loadAds (snd (AdService.fetchAds None NetworkError))
       (ResponseOk "text,link")
     = (AdService.FALLBACK_ADS, Some [])
  /\ snd (generateDetailedAdvice (Some Sample.summary) "오늘"
            (snd (generateDetailedAdvice (Some Sample.summary) "오늘" None
                    NetworkError Sample.rng))
            (ResponseOk Sample.sheet) Sample.rng)
     = Some (parseAdviceCsv Sample.sheet).
Proof.
  assert (H : forall csvText, NetworkError <> ResponseOk csvText) by discriminate.
  refine (conj H (conj _ _)).
  - exact (proj2 (proj2 (proj1 (failed_load_retry NetworkError H)) (ResponseOk "text,link"))).
  - exact (proj2 (proj2 (failed_load_retry NetworkError H)) _ _ _ _ _ _ _).
Defined.

(* ================================================================== *)
(** * Properties of the daily log, the coach and the monthly report *)

(** ** The counter buttons *)

Ltac journal_cbn :=
  unfold Journal.setCounter, Journal.getCounter in *;
  cbn [Journal.amountValue
       Journal.goodWords Journal.badWords
       Journal.goodThoughts Journal.badThoughts Journal.goodActions
       Journal.badActions Journal.happyEvents Journal.toughEvents] in *.

(** X15.  A counter button never leaves its counter negative and touches nothing
    else; on a counter that is not negative, minus after plus gives the log
    back; minus on a counter at zero changes nothing. *)
Theorem counter_buttons :
  forall log field amount,
    (0 <= Journal.getCounter (Journal.handleCounterChange log field amount) field)%Z
    /\ (forall other,
           other <> field ->
           Journal.getCounter (Journal.handleCounterChange log field amount) other
           = Journal.getCounter log other)
    /\ Journal.goodWords (Journal.handleCounterChange log field amount)
       = Journal.goodWords log
    /\ Journal.badWords (Journal.handleCounterChange log field amount)
       = Journal.badWords log
    /\ ((0 <= Journal.getCounter log field)%Z ->
        Journal.handleCounterChange
          (Journal.handleCounterChange log field Journal.PlusOne) field Journal.MinusOne
        = log)
    /\ (Journal.getCounter log field = 0%Z ->
        Journal.handleCounterChange log field Journal.MinusOne = log).
Proof.
  intros log field amount. destruct log as [gw bw gt bt ga ba he te].
  unfold Journal.handleCounterChange.
  split; [destruct field; journal_cbn; lia|].
  split; [intros other Hne; destruct field, other; journal_cbn; congruence|].
  split; [reflexivity|]. split; [reflexivity|].
  split; intros H; destruct field; journal_cbn; f_equal; lia.
Qed.

Lemma counter_buttons_witness :
  (0 <= Journal.getCounter Journal.emptyLog Journal.GoodActions)%Z
  /\ Journal.handleCounterChange
       (Journal.handleCounterChange Journal.emptyLog Journal.GoodActions Journal.PlusOne)
       Journal.GoodActions Journal.MinusOne
     = Journal.emptyLog.
Proof.
  assert (H : (0 <= Journal.getCounter Journal.emptyLog Journal.GoodActions)%Z)
    by (cbn; lia).
  refine (conj H _).
  exact (proj1 (proj2 (proj2 (proj2 (proj2
           (counter_buttons Journal.emptyLog Journal.GoodActions Journal.PlusOne))))) H).
Defined.

Lemma act_nonNegative :
  forall log action, Journal.nonNegative log -> Journal.nonNegative (Journal.act log action).
Proof.
  intros log action H field. destruct log as [gw bw gt bt ga ba he te].
  destruct action as [f a|[] t i n].
  - pose proof (H field) as Hf. unfold Journal.act, Journal.handleCounterChange.
    destruct f, field; journal_cbn; lia.
  - exact (H field).
  - exact (H field).
Qed.

(** X16.  Whatever the buttons pressed and the words added, starting from a log
    without negative counters (the log of a new day, say), no counter is
    ever negative. *)
Theorem journal_counters_never_negative :
  forall actions log,
    Journal.nonNegative log ->
    Journal.nonNegative (fold_left Journal.act actions log).
Proof.
  induction actions as [|action rest IH]; intros log H; [exact H|].
  cbn [fold_left]. apply IH. now apply act_nonNegative.
Qed.

Lemma journal_counters_never_negative_witness :
  Journal.nonNegative (Journal.currentLog None)
  /\ Journal.nonNegative
       (fold_left Journal.act
          [Journal.Counter Journal.BadActions Journal.MinusOne;
           Journal.Word Journal.Good "고마워요" 3 1700000000000;
           Journal.Counter Journal.GoodThoughts Journal.PlusOne]
          (Journal.currentLog None)).
Proof.
  assert (H : Journal.nonNegative (Journal.currentLog None)).
  { intros []; cbn; lia. }
  refine (conj H _).
  exact (journal_counters_never_negative _ _ H).
Defined.

(** ** The coach *)

Lemma coach_total_is_service_total :
  forall input,
    Coach.totalActions (Some input) = Spec.fieldSum (Coach.summaryForAdvice input).
Proof.
  intros input. unfold Coach.totalActions, objectValues, Spec.fieldSum. cbn. lia.
Qed.

(** X17.  The coach is hidden for a log without negative counters exactly when
    the log holds no word and all its counters are zero. *)
Theorem coach_hidden_iff_empty :
  forall log,
    Journal.nonNegative log ->
    (Coach.renders (Some (Coach.Daily log)) = false
     <-> Journal.goodWords log = [] /\ Journal.badWords log = []
         /\ forall field, Journal.getCounter log field = 0%Z).
Proof.
  intros log Hnn. unfold Coach.renders.
  rewrite negb_false_iff, Z.eqb_eq, coach_total_is_service_total.
  unfold Spec.fieldSum. cbn. rewrite !orZero_id.
  pose proof (Hnn Journal.GoodThoughts). pose proof (Hnn Journal.BadThoughts).
  pose proof (Hnn Journal.GoodActions). pose proof (Hnn Journal.BadActions).
  pose proof (Hnn Journal.HappyEvents). pose proof (Hnn Journal.ToughEvents).
  cbn in *. split.
  - intros Hsum.
    assert (Hg : List.length (Journal.goodWords log) = 0%nat) by lia.
    assert (Hb : List.length (Journal.badWords log) = 0%nat) by lia.
    apply length_zero_iff_nil in Hg, Hb.
    repeat split; try assumption. intros []; cbn; lia.
  - intros (Hg & Hb & Hz). rewrite Hg, Hb. cbn.
    pose proof (Hz Journal.GoodThoughts). pose proof (Hz Journal.BadThoughts).
    pose proof (Hz Journal.GoodActions). pose proof (Hz Journal.BadActions).
    pose proof (Hz Journal.HappyEvents). pose proof (Hz Journal.ToughEvents).
    cbn in *. lia.
Qed.

Lemma coach_hidden_iff_empty_witness :
  Journal.nonNegative Journal.emptyLog
  /\ (Coach.renders (Some (Coach.Daily Journal.emptyLog)) = false
      <-> Journal.goodWords Journal.emptyLog = [] /\ Journal.badWords Journal.emptyLog = []
          /\ forall field, Journal.getCounter Journal.emptyLog field = 0%Z).
Proof.
  assert (H : Journal.nonNegative Journal.emptyLog).
  { intros []; cbn; lia. }
  refine (conj H _).
  exact (coach_hidden_iff_empty Journal.emptyLog H).
Defined.

(** X18.  Through the coach the service is never asked with a null summary nor
    with a summary that sums to zero: the handler does nothing without a
    log, and when the component is shown the advice it sets is never the
    no-activity message nor the data-unavailable message; it is the
    generation-failed message exactly when the request of the call fails. *)
Theorem coach_advice :
  forall input periodLabel cache outcome rng,
    Coach.renders (Some input) = true ->
    exists advice cache',
      Coach.handleGetAdvice (Some input) periodLabel cache outcome rng
      = Some (advice, cache')
      /\ advice <> MSG_NO_ACTIVITY
      /\ advice <> MSG_DATA_UNAVAILABLE
      /\ (advice = MSG_GENERATION_FAILED <-> loadFails cache outcome).
Proof.
  intros input periodLabel cache outcome rng Hr.
  unfold Coach.renders in Hr. rewrite negb_true_iff, Z.eqb_neq in Hr.
  rewrite coach_total_is_service_total in Hr.
  unfold Coach.handleGetAdvice.
  destruct (generateDetailedAdvice (Some (Coach.summaryForAdvice input)) periodLabel
              cache outcome rng) as [advice cache'] eqn:E.
  exists advice, cache'. split; [reflexivity|].
  destruct fixedMessages_distinct as (D1 & D2 & D3).
  pose proof (generateDetailedAdvice_cases (Some (Coach.summaryForAdvice input))
                periodLabel cache outcome rng) as Hc.
  rewrite E in Hc. cbn [fst] in Hc.
  destruct Hc as [[Hf Ea]|[(_ & Hs & _)|[(_ & (s & Hs & Hz) & _)|(Hok & _ & Hno)]]].
  - subst advice. split; [congruence|]. split; [congruence|]. tauto.
  - discriminate Hs.
  - injection Hs as <-. contradiction.
  - cbn [fixedMessages In] in Hno.
    split; [intros ->; apply Hno; tauto|].
    split; [intros ->; apply Hno; tauto|].
    split; [intros ->; exfalso; apply Hno; tauto | intros Hf; contradiction].
Qed.

Lemma coach_advice_witness :
  Coach.renders (Some (Coach.Daily
                         (Journal.handleCounterChange Journal.emptyLog
                            Journal.GoodThoughts Journal.PlusOne))) = true
  /\ exists advice cache',
      Coach.handleGetAdvice
        (Some (Coach.Daily
                 (Journal.handleCounterChange Journal.emptyLog
                    Journal.GoodThoughts Journal.PlusOne)))
        "오늘" None (ResponseOk Sample.sheet) Sample.rng
      = Some (advice, cache')
      /\ advice <> MSG_NO_ACTIVITY
      /\ advice <> MSG_DATA_UNAVAILABLE
      /\ (advice = MSG_GENERATION_FAILED
          <-> loadFails None (ResponseOk Sample.sheet)).
Proof.
  assert (H : Coach.renders
                (Some (Coach.Daily
                         (Journal.handleCounterChange Journal.emptyLog
                            Journal.GoodThoughts Journal.PlusOne))) = true)
    by reflexivity.
  refine (conj H _).
  exact (coach_advice _ "오늘" None (ResponseOk Sample.sheet) Sample.rng H).
Defined.

(** ** The monthly report *)

Lemma updateAt_length :
  forall (A : Type) (f : A -> A) arr index,
    List.length (Monthly.updateAt index f arr) = List.length arr.
Proof.
  intros A f. induction arr as [|x rest IH]; intros [|i]; cbn; try reflexivity.
  now rewrite IH.
Qed.

Lemma updateAt_Forall :
  forall (A : Type) (P : A -> Prop) (f : A -> A),
    (forall x, P x -> P (f x)) ->
    forall arr index, Forall P arr -> Forall P (Monthly.updateAt index f arr).
Proof.
  intros A P f Hf. induction arr as [|x rest IH]; intros [|i] H; cbn;
    try exact H; inversion H; subst; constructor; auto.
Qed.

Lemma updateAt_sum :
  forall (A : Type) (g : A -> Z) (f : A -> A) d,
    (forall x, g (f x) = (g x + d)%Z) ->
    forall arr index,
      (index < List.length arr)%nat ->
      Monthly.sumZ (map g (Monthly.updateAt index f arr))
      = (Monthly.sumZ (map g arr) + d)%Z.
Proof.
  intros A g f d Hf. induction arr as [|x rest IH]; intros [|i] Hlt;
    cbn in Hlt; try lia; cbn [Monthly.updateAt map Monthly.sumZ fold_right].
  - rewrite Hf. fold (Monthly.sumZ (map g rest)). lia.
  - fold (Monthly.sumZ (map g (Monthly.updateAt i f rest))).
    fold (Monthly.sumZ (map g rest)). rewrite IH by lia. lia.
Qed.

(** What the loop over the days adds to the totals and to the weeks. *)
Lemma monthly_fold :
  forall logOfDay days totals weeks,
    (forall day, In day days -> ((day - 1) / 7 < List.length weeks)%nat) ->
    forall totals' weeks',
      fold_left (Monthly.dayStep logOfDay) days (totals, weeks) = (totals', weeks') ->
      List.length weeks' = List.length weeks
      /\ (Forall weekConsistent weeks -> Forall weekConsistent weeks')
      /\ Monthly.sumZ (map Monthly.goodEnergy weeks')
         = (Monthly.sumZ (map Monthly.goodEnergy weeks)
            + Monthly.sumZ (map (fun day => Monthly.goodEnergyOf
                                              (Journal.currentLog (logOfDay day))) days))%Z
      /\ Monthly.sumZ (map Monthly.badEnergy weeks')
         = (Monthly.sumZ (map Monthly.badEnergy weeks)
            + Monthly.sumZ (map (fun day => Monthly.badEnergyOf
                                              (Journal.currentLog (logOfDay day))) days))%Z
      /\ goodEnergyOfTotals totals'
         = (goodEnergyOfTotals totals
            + Monthly.sumZ (map (fun day => Monthly.goodEnergyOf
                                              (Journal.currentLog (logOfDay day))) days))%Z
      /\ badEnergyOfTotals totals'
         = (badEnergyOfTotals totals
            + Monthly.sumZ (map (fun day => Monthly.badEnergyOf
                                              (Journal.currentLog (logOfDay day))) days))%Z.
Proof.
  intros logOfDay. induction days as [|day rest IH]; intros totals weeks Hidx totals' weeks' H.
  - cbn in H. injection H as <- <-. cbn. repeat split; try lia. tauto.
  - cbn [fold_left] in H.
    destruct (Monthly.dayStep logOfDay (totals, weeks) day) as [totals1 weeks1] eqn:Estep.
    unfold Monthly.dayStep in Estep. injection Estep as Et Ew.
    assert (Hday : ((day - 1) / 7 < List.length weeks)%nat) by (apply Hidx; now left).
    assert (Hlen1 : List.length weeks1 = List.length weeks)
      by (subst weeks1; apply updateAt_length).
    apply IH in H; [|intros d Hd; rewrite Hlen1; apply Hidx; now right].
    destruct H as (Hlen & Hcons & Hgood & Hbad & Htg & Htb).
    assert (Hg1 : Monthly.sumZ (map Monthly.goodEnergy weeks1)
                  = (Monthly.sumZ (map Monthly.goodEnergy weeks)
                     + Monthly.goodEnergyOf (Journal.currentLog (logOfDay day)))%Z).
    { subst weeks1. now apply updateAt_sum. }
    assert (Hb1 : Monthly.sumZ (map Monthly.badEnergy weeks1)
                  = (Monthly.sumZ (map Monthly.badEnergy weeks)
                     + Monthly.badEnergyOf (Journal.currentLog (logOfDay day)))%Z).
    { subst weeks1. now apply updateAt_sum. }
    assert (Hc1 : Forall weekConsistent weeks -> Forall weekConsistent weeks1).
    { intros Hw. subst weeks1. apply updateAt_Forall; [|exact Hw].
      intros w Hc. unfold weekConsistent in *. cbn. lia. }
    assert (Htg1 : goodEnergyOfTotals totals1
                   = (goodEnergyOfTotals totals
                      + Monthly.goodEnergyOf (Journal.currentLog (logOfDay day)))%Z).
    { subst totals1. unfold goodEnergyOfTotals, Monthly.goodEnergyOf. cbn. lia. }
    assert (Htb1 : badEnergyOfTotals totals1
                   = (badEnergyOfTotals totals
                      + Monthly.badEnergyOf (Journal.currentLog (logOfDay day)))%Z).
    { subst totals1. unfold badEnergyOfTotals, Monthly.badEnergyOf. cbn. lia. }
    cbn [map Monthly.sumZ fold_right].
    fold (Monthly.sumZ (map (fun d => Monthly.goodEnergyOf
                                       (Journal.currentLog (logOfDay d))) rest)).
    fold (Monthly.sumZ (map (fun d => Monthly.badEnergyOf
                                       (Journal.currentLog (logOfDay d))) rest)).
    repeat split; try lia. tauto.
Qed.

(** X19.  In a month of at most 35 days no day is left out of the five weeks:
    the good energies of the weeks add up to the good energy of all the
    days, which is also what the totals of the month stand for; likewise
    for the bad energies; and the total of each week is the sum of its two
    parts. *)
Theorem monthly_energy_accounts :
  forall numDays logOfDay,
    (numDays <= 35)%nat ->
    List.length (Monthly.weeklyEnergies (Monthly.monthlyData numDays logOfDay)) = 5%nat
    /\ Forall weekConsistent (Monthly.weeklyEnergies (Monthly.monthlyData numDays logOfDay))
    /\ Monthly.sumZ (map Monthly.goodEnergy
                       (Monthly.weeklyEnergies (Monthly.monthlyData numDays logOfDay)))
       = Monthly.sumZ (map (fun day => Monthly.goodEnergyOf
                                         (Journal.currentLog (logOfDay day)))
                         (seq 1 numDays))
    /\ Monthly.sumZ (map Monthly.badEnergy
                       (Monthly.weeklyEnergies (Monthly.monthlyData numDays logOfDay)))
       = Monthly.sumZ (map (fun day => Monthly.badEnergyOf
                                         (Journal.currentLog (logOfDay day)))
                         (seq 1 numDays))
    /\ Monthly.sumZ (map Monthly.goodEnergy
                       (Monthly.weeklyEnergies (Monthly.monthlyData numDays logOfDay)))
       = goodEnergyOfTotals (Monthly.totals (Monthly.monthlyData numDays logOfDay))
    /\ Monthly.sumZ (map Monthly.badEnergy
                       (Monthly.weeklyEnergies (Monthly.monthlyData numDays logOfDay)))
       = badEnergyOfTotals (Monthly.totals (Monthly.monthlyData numDays logOfDay)).
Proof.
  intros numDays logOfDay Hn. unfold Monthly.monthlyData.
  destruct (fold_left (Monthly.dayStep logOfDay) (seq 1 numDays)
              (Monthly.zeroTotals, repeat Monthly.zeroEnergy 5)) as [totals weeks] eqn:E.
  apply monthly_fold in E.
  - destruct E as (Hlen & Hcons & Hgood & Hbad & Htg & Htb).
    cbn [Monthly.weeklyEnergies Monthly.totals].
    assert (Hzero : Forall weekConsistent (repeat Monthly.zeroEnergy 5))
      by (repeat constructor).
    change (Monthly.sumZ (map Monthly.goodEnergy (repeat Monthly.zeroEnergy 5)))
      with 0%Z in Hgood.
    change (Monthly.sumZ (map Monthly.badEnergy (repeat Monthly.zeroEnergy 5)))
      with 0%Z in Hbad.
    change (goodEnergyOfTotals Monthly.zeroTotals) with 0%Z in Htg.
    change (badEnergyOfTotals Monthly.zeroTotals) with 0%Z in Htb.
    repeat split; try lia; [exact Hlen | now apply Hcons].
  - intros day Hin. apply in_seq in Hin. cbn [repeat List.length].
    apply Nat.Div0.div_lt_upper_bound. lia.
Qed.

Lemma monthly_energy_accounts_witness :
  (31 <= 35)%nat
  /\ Monthly.sumZ (map Monthly.goodEnergy
                     (Monthly.weeklyEnergies
                        (Monthly.monthlyData 31
                           (fun day => Some (Journal.handleCounterChange Journal.emptyLog
                                               Journal.GoodActions Journal.PlusOne)))))
     = goodEnergyOfTotals
         (Monthly.totals
            (Monthly.monthlyData 31
               (fun day => Some (Journal.handleCounterChange Journal.emptyLog
                                   Journal.GoodActions Journal.PlusOne)))).
Proof.
  assert (H : (31 <= 35)%nat) by lia.
  refine (conj H _).
  exact (proj1 (proj2 (proj2 (proj2 (proj2
           (monthly_energy_accounts 31
              (fun day => Some (Journal.handleCounterChange Journal.emptyLog
                                  Journal.GoodActions Journal.PlusOne)) H)))))).
Defined.

Lemma max_with_floor :
  forall (floor : Z) (values : list Z),
    (floor <= fold_right Z.max floor values)%Z
    /\ Forall (fun v => (v <= fold_right Z.max floor values)%Z) values
    /\ (fold_right Z.max floor values = floor
        \/ In (fold_right Z.max floor values) values).
Proof.
  intros floor. induction values as [|v rest (Hfloor & Hall & Hwhich)];
    cbn [fold_right].
  - repeat split; [lia | constructor | now left].
  - repeat split; [lia | |].
    + constructor; [lia|].
      eapply Forall_impl; [|exact Hall]. cbn. intros; lia.
    + destruct (Z.max_spec v (fold_right Z.max floor rest)) as [[_ ->]|[_ ->]].
      * destruct Hwhich as [H|H]; [now left | right; now right].
      * right. now left.
Qed.

(** X20.  The scale of the chart is at least 10 and at least the total energy of
    every week; it is 10 or the total energy of one of the weeks. *)
Theorem monthly_max_energy :
  forall numDays logOfDay,
    (10 <= Monthly.maxEnergy (Monthly.monthlyData numDays logOfDay))%Z
    /\ Forall (fun w => (Monthly.totalEnergy w
                         <= Monthly.maxEnergy (Monthly.monthlyData numDays logOfDay))%Z)
         (Monthly.weeklyEnergies (Monthly.monthlyData numDays logOfDay))
    /\ (Monthly.maxEnergy (Monthly.monthlyData numDays logOfDay) = 10%Z
        \/ exists w,
            In w (Monthly.weeklyEnergies (Monthly.monthlyData numDays logOfDay))
            /\ Monthly.totalEnergy w
               = Monthly.maxEnergy (Monthly.monthlyData numDays logOfDay)).
Proof.
  intros numDays logOfDay. unfold Monthly.monthlyData.
  destruct (fold_left (Monthly.dayStep logOfDay) (seq 1 numDays)
              (Monthly.zeroTotals, repeat Monthly.zeroEnergy 5)) as [totals weeks].
  cbn [Monthly.weeklyEnergies Monthly.maxEnergy].
  destruct (max_with_floor 10 (map Monthly.totalEnergy weeks)) as (H1 & H2 & H3).
  split; [exact H1|]. split.
  - apply Forall_forall. intros w Hin. rewrite Forall_forall in H2.
    apply H2. now apply in_map.
  - destruct H3 as [H3|H3]; [now left|]. right.
    apply in_map_iff in H3 as (w & Hw & Hin). now exists w.
Qed.

(* ================================================================== *)
(** * The cache over several calls, and the label of the intro *)

Lemma generateDetailedAdvice_cache :
  forall summary periodLabel cache outcome rng,
    snd (generateDetailedAdvice summary periodLabel cache outcome rng)
    = match cache, outcome with
      | Some records, _ => Some records
      | None, ResponseOk csvText => Some (parseAdviceCsv csvText)
      | None, _ => None
      end.
Proof.
  intros summary periodLabel cache outcome rng.
  unfold generateDetailedAdvice, adviceAttempt, fetchAndParseAdviceData.
  destruct cache as [records|]; [|destruct outcome; try reflexivity];
    cbv beta iota zeta;
    (destruct summary as [s|]; [|reflexivity]);
    (destruct (totalActions s =? 0)%Z; [reflexivity|]).
  - now destruct (composeAdvice records s periodLabel rng).
  - now destruct (composeAdvice (parseAdviceCsv csvText) s periodLabel rng).
Qed.

(** X12.  The cache is written once.  Whatever calls follow, a loaded cache is
    never replaced, not even by a later response; and a cache that is null
    stays null until the first call whose request succeeds, whose sheet it
    then keeps. *)
Theorem cache_written_once :
  forall calls,
    (forall records, cacheAfter (Some records) calls = Some records)
    /\ (cacheAfter None calls = None
        /\ (forall call csvText, In call calls -> callOutcome call <> ResponseOk csvText)
        \/ exists before call csvText after,
            calls = (before ++ call :: after)%list
            /\ (forall c csv, In c before -> callOutcome c <> ResponseOk csv)
            /\ callOutcome call = ResponseOk csvText
            /\ cacheAfter None calls = Some (parseAdviceCsv csvText)).
Proof.
  assert (Hloaded : forall calls records, cacheAfter (Some records) calls = Some records).
  { induction calls as [|call rest IH]; intros records; [reflexivity|].
    unfold cacheAfter in *. cbn [fold_left].
    rewrite generateDetailedAdvice_cache. apply IH. }
  intros calls. split; [apply Hloaded|].
  induction calls as [|call rest IH].
  - left. split; [reflexivity|]. intros call csvText [].
  - unfold cacheAfter in *. cbn [fold_left].
    rewrite generateDetailedAdvice_cache.
    destruct (callOutcome call) as [| | |csvText] eqn:Eo.
    4: { right. exists [], call, csvText, rest. repeat split; try assumption.
         - intros c csv [].
         - apply Hloaded. }
    all: destruct IH as [[Hnone Hall]|(before & c & csv & after & -> & Hb & Hc & Hres)];
      [ left; split; [exact Hnone|];
        intros c csv [<-|Hin]; [rewrite Eo; discriminate | now apply Hall]
      | right; exists (call :: before), c, csv, after;
        repeat split; try assumption;
        intros c' csv' [<-|Hin]; [rewrite Eo; discriminate | now apply Hb] ].
Qed.

Lemma getSubstitution_plain :
  forall matched before after replacement,
    containsChar "$" replacement = false ->
    getSubstitution matched before after replacement = replacement.
Proof.
  intros matched before after. induction replacement as [|d tl IH]; intros H;
    [reflexivity|].
  rewrite containsChar_cons in H. apply orb_false_iff in H as [Hd Htl].
  cbn [getSubstitution]. rewrite Hd. cbn [negb]. now rewrite IH.
Qed.

Lemma prefix_app : forall p s, prefix p (p ++ s) = true.
Proof.
  induction p as [|c p IH]; intros s; [now destruct s|].
  cbn [append]. now rewrite prefix_cons_same.
Qed.

Lemma skip_app : forall p s, skip (String.length p) (p ++ s) = s.
Proof.
  induction p as [|c p IH]; intros s; [now destruct s|]. cbn. apply IH.
Qed.

Lemma prefix_before_char :
  forall c p b r,
    containsChar c p = false ->
    prefix p (b ++ String c r) = true -> prefix p b = true.
Proof.
  intros c. induction p as [|x p IH]; intros b r Hp H; [now destruct b|].
  rewrite containsChar_cons in Hp. apply orb_false_iff in Hp as [Hx Hp].
  destruct b as [|y b]; cbn [append] in H.
  - apply prefix_cons_inv in H as [Hxc _]. subst x. now rewrite Ascii.eqb_refl in Hx.
  - apply prefix_cons_inv in H as [Hxy H]. subst y. rewrite prefix_cons_same.
    now apply (IH b r).
Qed.

(** The first occurrence of a pattern whose first character is not
    repeated in it: where nothing before holds the pattern. *)
Lemma breakOn_first :
  forall c pat before after,
    containsChar c pat = false ->
    includes before (String c pat) = false ->
    breakOn (String c pat) (before ++ String c (pat ++ after)) = Some (before, after).
Proof.
  intros c pat. induction before as [|d before IH]; intros after Hpat H.
  - cbn [append breakOn]. rewrite prefix_cons_same, prefix_app.
    cbn [String.length skip]. now rewrite skip_app.
  - cbn [includes] in H. apply orb_false_iff in H as [Hd Hb].
    cbn [append breakOn].
    destruct (prefix (String c pat) (String d (before ++ String c (pat ++ after)))) eqn:E.
    + apply prefix_cons_inv in E as [Hcd E]. subst d.
      rewrite prefix_cons_same in Hd.
      now rewrite (prefix_before_char c pat before (pat ++ after) Hpat E) in Hd.
    + now rewrite IH.
Qed.

Lemma breakOn_absent :
  forall pat s, includes s pat = false -> breakOn pat s = None.
Proof.
  intros pat. induction s as [|d s IH]; intros H.
  - cbn [includes] in H. apply orb_false_iff in H as [H _].
    cbn [breakOn]. now rewrite H.
  - cbn [includes] in H. apply orb_false_iff in H as [Hd Hs].
    cbn [breakOn]. now rewrite Hd, IH.
Qed.

(** X11.  In the text of an intro only the first [{periodLabel}], the one that
    no [{periodLabel}] precedes, is replaced by the label, which is copied
    as it is when it holds no dollar sign; what stands before it, other
    placeholders included, and what follows it, further [{periodLabel}]
    included, is kept; a text that holds no [{periodLabel}] is returned
    unchanged. *)
Theorem period_label_first_occurrence :
  forall before after periodLabel,
    includes before "{periodLabel}" = false ->
    containsChar "$" periodLabel = false ->
    replaceFirst "{periodLabel}" periodLabel (before ++ "{periodLabel}" ++ after)
    = before ++ periodLabel ++ after
    /\ replaceFirst "{periodLabel}" periodLabel before = before.
Proof.
  intros before after periodLabel Hb Hl. unfold replaceFirst. split.
  - change (before ++ "{periodLabel}" ++ after)
      with (before ++ String "{" ("periodLabel}" ++ after)).
    rewrite (breakOn_first "{" "periodLabel}" before after eq_refl Hb).
    now rewrite getSubstitution_plain.
  - now rewrite (breakOn_absent "{periodLabel}" before Hb).
Qed.

Lemma period_label_first_occurrence_witness :
  includes "{goodThoughts} thoughts, " "{periodLabel}" = false
  /\ containsChar "$" "이번 주" = false
  /\ replaceFirst "{periodLabel}" "이번 주"
       ("{goodThoughts} thoughts, " ++ "{periodLabel}" ++ " and {periodLabel}")
     = "{goodThoughts} thoughts, " ++ "이번 주" ++ " and {periodLabel}".
Proof.
  assert (H1 : includes "{goodThoughts} thoughts, " "{periodLabel}" = false)
    by reflexivity.
  assert (H2 : containsChar "$" "이번 주" = false) by reflexivity.
  refine (conj H1 (conj H2 _)).
  exact (proj1 (period_label_first_occurrence "{goodThoughts} thoughts, "
                  " and {periodLabel}" "이번 주" H1 H2)).
Defined.
